(** * RAG-Sai: the strategy verification harness and the active-config store

    A shallow embedding of [implementation/verify_strategies.py] and
    [implementation/utils/config_manager.py].

    - [Py]: the fragment of Python both files rest on: [str] values,
      the exception hierarchy, results of calls that may raise.
    - [VerifyStrategies]: [TestResult], [StrategyTester] and the script's
      [__main__] block.  The strategy module [rag_agent_advanced], the
      environment, the database and the clock are an oracle ([world]).
    - [Json]: CPython's [json.dump(obj, f, indent=2)] and [json.load(f)].
    - [ConfigManager]: [load_active_config], [save_active_config] and
      [get_active_embedding_model] over a one-file file system. *)

From Stdlib Require Import List String Ascii Bool NArith ZArith Lia PrimFloat.
From Stdlib Require Import DecimalString DecimalN DecimalZ.
Import ListNotations.

Set Implicit Arguments.
Set Warnings "-register-all".

(* ===================================================================== *)
(** * Python values shared by the two source files *)
(* ===================================================================== *)

Module Py.

(** A Python [str] is a sequence of Unicode code points. *)
Definition codepoint := N.
Definition pystr := list codepoint.

(** An ASCII literal of the source, as a [str]. *)
Definition py (s : string) : pystr := map N_of_ascii (list_ascii_of_string s).

Definition pystr_eqb (a b : pystr) : bool :=
  if list_eq_dec N.eq_dec a b then true else false.

(** [s.startswith(prefix)] *)
Fixpoint startswith (s prefix : pystr) {struct prefix} : bool :=
  match prefix, s with
  | [], _ => true
  | _ :: _, [] => false
  | p :: prefix', c :: s' => N.eqb c p && startswith s' prefix'
  end.

(** [sub in s] *)
Fixpoint contains (sub s : pystr) : bool :=
  startswith s sub ||
  match s with
  | [] => false
  | _ :: s' => contains sub s'
  end.

(** [s[:n]] for a non-negative literal [n] *)
Definition slice_to (n : nat) (s : pystr) : pystr := firstn n s.

(** [s.replace(a, b)] for one-character [a] and [b] *)
Definition replace_char (a b : codepoint) (s : pystr) : pystr :=
  map (fun c => if N.eqb c a then b else c) s.

(** What a [raise] carries.  [Exception cls msg] stands for an instance of
    any class derived from [Exception] ([ValueError], [OSError], ...), with
    [str(e) = msg]; the other constructors are the classes that derive from
    [BaseException] only, which [except Exception] does not catch. *)
Inductive exn : Type :=
| Exception (cls msg : pystr)
| KeyboardInterrupt
| SystemExit (code : Z)
| CancelledError.

(** [isinstance(e, Exception)] *)
Definition is_Exception (e : exn) : bool :=
  match e with
  | Exception _ _ => true
  | _ => false
  end.

(** [str(e)] *)
Definition str_exn (e : exn) : pystr :=
  match e with
  | Exception _ msg => msg
  | KeyboardInterrupt => []
  | SystemExit code => py (NilZero.string_of_int (Z.to_int code))
  | CancelledError => []
  end.

(** A call either returns or raises. *)
Inductive outcome (A : Type) : Type :=
| Return (a : A)
| Raise (e : exn).
Arguments Return {A} a.
Arguments Raise {A} e.

(** Truthiness of [os.getenv(...)]: [None] and the empty [str] are false. *)
Definition truthy (v : option pystr) : bool :=
  match v with
  | None => false
  | Some [] => false
  | Some (_ :: _) => true
  end.

End Py.

(* ===================================================================== *)
(** * implementation/verify_strategies.py *)
(* ===================================================================== *)

Module VerifyStrategies.
Import Py.

(** The coroutines imported from [rag_agent_advanced] that [run_all] calls. *)
Inductive strategy : Type :=
| search_knowledge_base
| search_with_multi_query
| search_with_reranking
| search_with_self_reflection
| search_with_hybrid_retrieval
| retrieve_full_document
| answer_with_fact_verification
| answer_with_multi_hop
| answer_with_uncertainty.

(** What a strategy coroutine hands back: a [str], or an object of another
    class, of which the harness only reads the class name. *)
Inductive pyval : Type :=
| VStr (s : pystr)
| VOther (cls : pystr).

(** [isinstance(v, str)] *)
Definition is_str (v : pyval) : bool :=
  match v with
  | VStr _ => true
  | VOther _ => false
  end.

(** [str(type(v))], e.g. [<class 'NoneType'>] *)
Definition type_repr (v : pyval) : pystr :=
  match v with
  | VStr _ => py "<class 'str'>"
  | VOther cls => py "<class '" ++ cls ++ py "'>"
  end.

(** [str(v)] for the values [run_test] formats; by then [v] is a [str]. *)
Definition str_val (v : pyval) : pystr :=
  match v with
  | VStr s => s
  | VOther cls => py "<" ++ cls ++ py " object>"
  end.

(** [@dataclass class TestResult] *)
Record TestResult : Type := mkTestResult {
  name : pystr;
  status : pystr;
  duration_ms : float;
  output : pystr;
  error : pystr
}.

(** Everything outside the script: the environment after
    [load_dotenv(".env")], whether the imports at the top of the module
    succeed, the database, the strategy module and the clock.  The [n]-th
    awaited strategy call of a run is answered by [strategy_call n]. *)
Record world : Type := mkWorld {
  import_error : option pystr;
  getenv : pystr -> option pystr;
  initialize_db : option exn;
  close_db : option exn;
  strategy_call : nat -> strategy -> pystr -> outcome pyval;
  clock : nat -> float
}.

(** What [print] writes, by the statement that writes it. *)
Inductive message : Type :=
| MsgImportError (e : pystr)
| MsgImportHint
| MsgCheckingEnvironment
| MsgInitializingDatabase
| MsgDatabaseInitFailed (e : pystr)
| MsgStartingTests (query : pystr)
| MsgRunningTest (name : pystr)
| MsgVerdict (status : pystr) (duration : float)
| MsgReportHeader
| MsgRow (name status : pystr) (duration : float) (display_output : pystr)
| MsgTotals (total passed failed : nat)
| MsgSomeFailed
| MsgAllOperational
| MsgInterrupted
| MsgCriticalFailure (e : pystr).

(** The observable effects of a run, oldest first. *)
Inductive event : Type :=
| Stdout (m : message)
| InitDb
| CloseDb
| Call (f : strategy) (arg : pystr).

(** The [StrategyTester] object ([results], [db_initialized]) together
    with the run's position in the oracle and its effects so far. *)
Record runtime : Type := mkRuntime {
  results : list TestResult;
  db_initialized : bool;
  calls : nat;
  ticks : nat;
  trace : list event
}.

(** [StrategyTester.__init__] *)
Definition StrategyTester : runtime :=
  {| results := []; db_initialized := false; calls := 0; ticks := 0; trace := [] |}.

(** ** Coroutines as state transformers that may raise *)

Definition M (A : Type) : Type := runtime -> outcome A * runtime.

Definition ret {A} (a : A) : M A := fun s => (Return a, s).

Definition raise {A} (e : exn) : M A := fun s => (Raise e, s).

Definition bind {A B} (c : M A) (k : A -> M B) : M B :=
  fun s =>
    match c s with
    | (Return a, s') => k a s'
    | (Raise e, s') => (Raise e, s')
    end.

(** [try: body  except Exception as e: handler(e)] *)
Definition try_except_Exception {A} (body : M A) (handler : exn -> M A) : M A :=
  fun s =>
    match body s with
    | (Return a, s') => (Return a, s')
    | (Raise e, s') => if is_Exception e then handler e s' else (Raise e, s')
    end.

Declare Scope py_scope.
Delimit Scope py_scope with py.
Notation "x <- c ;; k" := (bind c (fun x => k))
  (at level 61, c at next level, right associativity) : py_scope.
Notation "c ;; k" := (bind c (fun _ => k))
  (at level 61, right associativity) : py_scope.
Local Open Scope py_scope.

Definition emit (e : event) : M unit :=
  fun s => (Return tt,
            {| results := results s; db_initialized := db_initialized s;
               calls := calls s; ticks := ticks s; trace := trace s ++ [e] |}).

Definition print (m : message) : M unit := emit (Stdout m).

Definition PASS : pystr := py "PASS".
Definition FAIL : pystr := py "FAIL".

(** Lines 82-89 of [run_test]: the verdict on a returned value and the
    value [result] is bound to afterwards. *)
Definition classify (result : pyval) : pystr * pyval :=
  match result with
  | VStr s =>
      if startswith s (py "Error") || startswith s (py "Search error")
         || contains (py "encountered an error") s
      then (FAIL, result)
      else (PASS, result)
  | VOther _ =>
      (FAIL, VStr (py "Unexpected return type: " ++ type_repr result))
  end.

(** The exit status of a process that ends with [SystemExit(code)], on a
    POSIX system whose C [long] has 64 bits: the interpreter converts the
    code to a [long], taking [-1] when it does not fit, and hands it to
    [exit], of which the system keeps the low eight bits. *)
Definition exit_status (code : Z) : Z :=
  if Z.leb (- 2 ^ 63) code && Z.ltb code (2 ^ 63)
  then code mod 256
  else 255.

Section Harness.

Variable w : world.

(** [time.time()] *)
Definition time_time : M float :=
  fun s => (Return (clock w (ticks s)),
            {| results := results s; db_initialized := db_initialized s;
               calls := calls s; ticks := S (ticks s); trace := trace s |}).

(** [await func(None, arg)] *)
Definition await_strategy (func : strategy) (arg : pystr) : M pyval :=
  fun s => (strategy_call w (calls s) func arg,
            {| results := results s; db_initialized := db_initialized s;
               calls := S (calls s); ticks := ticks s;
               trace := trace s ++ [Call func arg] |}).

(** [await initialize_db()] and [await close_db()] *)
Definition await_initialize_db : M unit :=
  emit InitDb ;;
  match initialize_db w with
  | None => ret tt
  | Some e => raise e
  end.

Definition await_close_db : M unit :=
  emit CloseDb ;;
  match close_db w with
  | None => ret tt
  | Some e => raise e
  end.

Definition set_db_initialized (b : bool) : M unit :=
  fun s => (Return tt,
            {| results := results s; db_initialized := b;
               calls := calls s; ticks := ticks s; trace := trace s |}).

Definition get_db_initialized : M bool :=
  fun s => (Return (db_initialized s), s).

(** [self.results.append(r)] *)
Definition results_append (r : TestResult) : M unit :=
  fun s => (Return tt,
            {| results := results s ++ [r]; db_initialized := db_initialized s;
               calls := calls s; ticks := ticks s; trace := trace s |}).

Definition get_results : M (list TestResult) :=
  fun s => (Return (results s), s).

(** [StrategyTester.setup] *)
Definition setup : M unit :=
  print MsgCheckingEnvironment ;;
  if negb (truthy (getenv w (py "DATABASE_URL")))
  then raise (Exception (py "ValueError") (py "DATABASE_URL is missing in .env"))
  else
  if negb (truthy (getenv w (py "OPENAI_API_KEY")))
  then raise (Exception (py "ValueError") (py "OPENAI_API_KEY is missing in .env"))
  else
  print MsgInitializingDatabase ;;
  try_except_Exception
    (await_initialize_db ;;
     set_db_initialized true)
    (fun e =>
     print (MsgDatabaseInitFailed (str_exn e)) ;;
     raise e).

(** [StrategyTester.teardown] *)
Definition teardown : M unit :=
  b <- get_db_initialized ;;
  if b then await_close_db else ret tt.

(** [(time.time() - start_time) * 1000] *)
Definition elapsed_ms (now start_time : float) : float :=
  PrimFloat.mul (PrimFloat.sub now start_time) 1000%float.

(** [StrategyTester.run_test] *)
Definition run_test (name : pystr) (func : strategy) (arg : pystr) : M TestResult :=
  print (MsgRunningTest name) ;;
  start_time <- time_time ;;
  try_except_Exception
    (result <- await_strategy func arg ;;
     now <- time_time ;;
     let duration := elapsed_ms now start_time in
     let (status, result) := classify result in
     print (MsgVerdict status duration) ;;
     ret (mkTestResult name status duration
            (slice_to 200 (str_val result) ++ py "...") []))
    (fun e =>
     now <- time_time ;;
     let duration := elapsed_ms now start_time in
     print (MsgVerdict FAIL duration) ;;
     ret (mkTestResult name FAIL duration [] (str_exn e))).

(** The body of the [for] loop of [print_report]: one row. *)
Definition display_output (r : TestResult) : pystr :=
  let display_output :=
    match output r with
    | _ :: _ => replace_char 10%N 32%N (output r)
    | [] => error r
    end in
  if Nat.ltb 30 (List.length display_output)
  then slice_to 27 display_output ++ py "..."
  else display_output.

Fixpoint report_rows (rs : list TestResult) (passed failed : nat) : M (nat * nat) :=
  match rs with
  | [] => ret (passed, failed)
  | r :: rs' =>
      let (passed, failed) :=
        if pystr_eqb (status r) PASS then (S passed, failed) else (passed, S failed) in
      print (MsgRow (name r) (status r) (duration_ms r) (display_output r)) ;;
      report_rows rs' passed failed
  end.

(** [StrategyTester.print_report]; [sys.exit(1)] raises [SystemExit(1)]. *)
Definition print_report : M unit :=
  print MsgReportHeader ;;
  rs <- get_results ;;
  counts <- report_rows rs 0 0 ;;
  let (passed, failed) := counts in
  print (MsgTotals (List.length rs) passed failed) ;;
  if Nat.ltb 0 failed
  then print MsgSomeFailed ;; raise (SystemExit 1)
  else print MsgAllOperational.

(** [StrategyTester.run_all] *)
Definition run_all (test_query : pystr) : M unit :=
  setup ;;
  print (MsgStartingTests test_query) ;;
  (r <- run_test (py "Baseline: search_knowledge_base")
         search_knowledge_base test_query ;;
   results_append r) ;;
  (r <- run_test (py "Strategy: search_with_multi_query")
         search_with_multi_query test_query ;;
   results_append r) ;;
  (r <- run_test (py "Strategy: search_with_reranking")
         search_with_reranking test_query ;;
   results_append r) ;;
  (r <- run_test (py "Strategy: search_with_self_reflection")
         search_with_self_reflection test_query ;;
   results_append r) ;;
  (r <- run_test (py "Strategy: search_with_hybrid_retrieval")
         search_with_hybrid_retrieval test_query ;;
   results_append r) ;;
  (r <- run_test (py "Edge Case: retrieve_full_document (missing)")
         retrieve_full_document (py "NON_EXISTENT_DOCUMENT_X123") ;;
   results_append r) ;;
  (r <- run_test (py "Strategy: answer_with_fact_verification")
         answer_with_fact_verification test_query ;;
   results_append r) ;;
  (r <- run_test (py "Strategy: answer_with_multi_hop")
         answer_with_multi_hop test_query ;;
   results_append r) ;;
  (r <- run_test (py "Strategy: answer_with_uncertainty")
         answer_with_uncertainty test_query ;;
   results_append r) ;;
  (r <- run_test (py "Input Validation: Empty Query")
         search_knowledge_base [] ;;
   results_append r) ;;
  teardown ;;
  print_report.

(** The [__main__] block: [asyncio.run(tester.run_all(args.query))] under
    its two handlers.  The value is the exit status of the process: [0]
    when the block falls off its end, what the system keeps of the code
    of a [SystemExit] that escapes, [1] for any other exception nobody
    catches. *)
Definition main (query : pystr) : Z * runtime :=
  let tester := StrategyTester in
  match run_all query tester with
  | (Return _, s) => (0%Z, s)
  | (Raise KeyboardInterrupt, s) =>
      (0%Z, snd (print MsgInterrupted s))
  | (Raise (Exception _ _ as e), s) =>
      (0%Z, snd (print (MsgCriticalFailure (str_exn e)) s))
  | (Raise (SystemExit code), s) => (exit_status code, s)
  | (Raise CancelledError, s) => (1%Z, s)
  end.

(** The script from its first line: the guarded import (lines 19-36),
    then [__main__]. *)
Definition script (query : pystr) : Z * runtime :=
  match import_error w with
  | Some e =>
      (1%Z, snd ((print (MsgImportError e) ;; print MsgImportHint) StrategyTester))
  | None => main query
  end.

End Harness.

End VerifyStrategies.

(* ===================================================================== *)
(** * The [json] module of CPython, as [config_manager.py] calls it *)
(* ===================================================================== *)

Module Json.
Import Py.

(** The Python objects [json.load] builds and [json.dump] accepts.  A
    [dict] keeps its insertion order; its keys are [str] and distinct. *)
Inductive value : Type :=
| PyNone
| PyBool (b : bool)
| PyInt (z : Z)
| PyFloat (f : float)
| PyStr (s : pystr)
| PyList (l : list value)
| PyDict (d : list (pystr * value)).

(** What the interpreter contributes: how many nested containers the
    decoder may enter before [RecursionError], the limit of
    [sys.get_int_max_str_digits()] ([0]: none), and the two conversions
    between [float] and decimal text, which are not modelled. *)
Record interpreter : Type := mkInterpreter {
  recursion_limit : nat;
  int_max_str_digits : nat;
  float_of_literal : pystr -> float;
  float_repr : float -> pystr
}.

Definition ch (a : ascii) : codepoint := N_of_ascii a.
Definition dquote : codepoint := 34%N.
Definition backslash : codepoint := 92%N.

(** ** Objects *)

(** [d[key] = val] *)
Fixpoint dict_set (key : pystr) (val : value) (d : list (pystr * value))
  : list (pystr * value) :=
  match d with
  | [] => [(key, val)]
  | (k, v) :: d' =>
      if pystr_eqb k key then (k, val) :: d' else (k, v) :: dict_set key val d'
  end.

(** [d.get(key)] *)
Fixpoint dict_get (key : pystr) (d : list (pystr * value)) : option value :=
  match d with
  | [] => None
  | (k, v) :: d' => if pystr_eqb k key then Some v else dict_get key d'
  end.

(** ** Integers and decimal text *)

Fixpoint digits_of_uint (u : Decimal.uint) : pystr :=
  match u with
  | Decimal.Nil => []
  | Decimal.D0 u' => 48%N :: digits_of_uint u'
  | Decimal.D1 u' => 49%N :: digits_of_uint u'
  | Decimal.D2 u' => 50%N :: digits_of_uint u'
  | Decimal.D3 u' => 51%N :: digits_of_uint u'
  | Decimal.D4 u' => 52%N :: digits_of_uint u'
  | Decimal.D5 u' => 53%N :: digits_of_uint u'
  | Decimal.D6 u' => 54%N :: digits_of_uint u'
  | Decimal.D7 u' => 55%N :: digits_of_uint u'
  | Decimal.D8 u' => 56%N :: digits_of_uint u'
  | Decimal.D9 u' => 57%N :: digits_of_uint u'
  end.

Definition is_digit (c : codepoint) : bool := N.leb 48 c && N.leb c 57.

Fixpoint uint_of_digits (s : pystr) : Decimal.uint :=
  match s with
  | [] => Decimal.Nil
  | c :: s' =>
      let u := uint_of_digits s' in
      match (c - 48)%N with
      | 0%N => Decimal.D0 u
      | 1%N => Decimal.D1 u
      | 2%N => Decimal.D2 u
      | 3%N => Decimal.D3 u
      | 4%N => Decimal.D4 u
      | 5%N => Decimal.D5 u
      | 6%N => Decimal.D6 u
      | 7%N => Decimal.D7 u
      | 8%N => Decimal.D8 u
      | _ => Decimal.D9 u
      end
  end.

Definition ValueError (msg : string) : exn := Exception (py "ValueError") (py msg).

(** Whether a conversion between [int] and a decimal text of [n] digits
    is refused. *)
Definition exceeds_limit (itp : interpreter) (ndigits : nat) : bool :=
  Nat.ltb 0 (int_max_str_digits itp) && Nat.ltb (int_max_str_digits itp) ndigits.

(** [int.__repr__(z)] *)
Definition intstr (itp : interpreter) (z : Z) : outcome pystr :=
  let digits := digits_of_uint (N.to_uint (Z.abs_N z)) in
  if exceeds_limit itp (List.length digits)
  then Raise (ValueError "Exceeds the limit for integer string conversion")
  else Return ((if Z.ltb z 0 then [ch "-"] else []) ++ digits).

(** [int(numstr)] on the text the scanner matched: an optional sign and
    the digits. *)
Definition int_of_numstr (itp : interpreter) (negative : bool) (digits : pystr)
  : outcome Z :=
  if exceeds_limit itp (List.length digits)
  then Raise (ValueError "Exceeds the limit for integer string conversion")
  else
    let n := Z.of_N (N.of_uint (uint_of_digits digits)) in
    Return (if negative then (- n)%Z else n).

(** ** Encoding: [json.dump(obj, fp, indent=2)] *)

Definition hex_digit (n : N) : codepoint :=
  if N.ltb n 10 then (48 + n)%N else (87 + n)%N.

(** ['\\u{0:04x}'.format(n)] *)
Definition u_escape (n : N) : pystr :=
  [backslash; ch "u";
   hex_digit ((n / 4096) mod 16); hex_digit ((n / 256) mod 16);
   hex_digit ((n / 16) mod 16); hex_digit (n mod 16)]%N.

(** The replacement of one character in [encode_basestring_ascii]. *)
Definition escape_char (c : codepoint) : pystr :=
  if N.eqb c backslash then [backslash; backslash]
  else if N.eqb c dquote then [backslash; dquote]
  else if N.eqb c 8 then [backslash; ch "b"]
  else if N.eqb c 12 then [backslash; ch "f"]
  else if N.eqb c 10 then [backslash; ch "n"]
  else if N.eqb c 13 then [backslash; ch "r"]
  else if N.eqb c 9 then [backslash; ch "t"]
  else if N.leb 32 c && N.leb c 126 then [c]
  else if N.ltb c 65536 then u_escape c
  else
    let n := (c - 65536)%N in
    let s1 := N.lor 55296 (N.land (N.shiftr n 10) 1023) in
    let s2 := N.lor 56320 (N.land n 1023) in
    u_escape s1 ++ u_escape s2.

(** [encode_basestring_ascii(s)] *)
Definition encode_basestring_ascii (s : pystr) : pystr :=
  dquote :: flat_map escape_char s ++ [dquote].

(** [floatstr(o)] with [allow_nan=True] *)
Definition floatstr (itp : interpreter) (o : float) : pystr :=
  if negb (PrimFloat.eqb o o) then py "NaN"
  else if PrimFloat.eqb o infinity then py "Infinity"
  else if PrimFloat.eqb o neg_infinity then py "-Infinity"
  else float_repr itp o.

(** The text of a value that is not a container, as every branch of
    [_iterencode], [_iterencode_list] and [_iterencode_dict] produces it. *)
Definition encode_scalar (itp : interpreter) (o : value) : option (outcome pystr) :=
  match o with
  | PyStr s => Some (Return (encode_basestring_ascii s))
  | PyNone => Some (Return (py "null"))
  | PyBool true => Some (Return (py "true"))
  | PyBool false => Some (Return (py "false"))
  | PyInt z => Some (intstr itp z)
  | PyFloat f => Some (Return (floatstr itp f))
  | PyList _ => None
  | PyDict _ => None
  end.

(** The chunks a generator has yielded, joined, and the exception that
    ended it, if one did. *)
Definition chunks : Type := pystr * option exn.

Definition yield (s : pystr) : chunks := (s, None).

Definition yield_outcome (prefix : pystr) (r : outcome pystr) : chunks :=
  match r with
  | Return t => (prefix ++ t, None)
  | Raise e => ([], Some e)
  end.

Definition and_then (a b : chunks) : chunks :=
  match a with
  | (s, None) => (s ++ fst b, snd b)
  | (s, Some e) => (s, Some e)
  end.

(** ['\n' + _indent * _current_indent_level] with [_indent = '  '] *)
Definition newline_indent (level : nat) : pystr :=
  10%N :: repeat 32%N (2 * level).

(** [_iterencode], [_iterencode_list] and [_iterencode_dict] of
    [json.encoder._make_iterencode], with [indent=2], the separators
    [','] and [': '] that go with it, [ensure_ascii], [allow_nan], no
    [sort_keys]. *)
Fixpoint iterencode (itp : interpreter) (level : nat) (o : value) {struct o} : chunks :=
  match o with
  | PyList [] => yield (py "[]")
  | PyList ((_ :: _) as lst) =>
      let separator := ch "," :: newline_indent (S level) in
      (fix items (buf : pystr) (l : list value) {struct l} : chunks :=
         match l with
         | [] => and_then (yield (newline_indent level)) (yield [ch "]"])
         | v :: l' =>
             and_then
               match encode_scalar itp v with
               | Some r => yield_outcome buf r
               | None => and_then (yield buf) (iterencode itp (S level) v)
               end
               (items separator l')
         end) (ch "[" :: newline_indent (S level)) lst
  | PyDict [] => yield (py "{}")
  | PyDict ((_ :: _) as dct) =>
      let item_separator := ch "," :: newline_indent (S level) in
      and_then (yield [ch "{"])
     (and_then (yield (newline_indent (S level)))
      ((fix items (first : bool) (d : list (pystr * value)) {struct d} : chunks :=
         match d with
         | [] => and_then (yield (newline_indent level)) (yield [ch "}"])
         | (key, v) :: d' =>
             and_then (if first then yield [] else yield item_separator)
            (and_then (yield (encode_basestring_ascii key))
            (and_then (yield (py ": "))
            (and_then
               match encode_scalar itp v with
               | Some r => yield_outcome [] r
               | None => iterencode itp (S level) v
               end
               (items false d'))))
         end) true dct))
  | _ =>
      match encode_scalar itp o with
      | Some r => yield_outcome [] r
      | None => yield []
      end
  end.

(** ** Decoding: [json.load(fp)], with the C scanner *)

Definition JSONDecodeError (msg : string) : exn :=
  Exception (py "JSONDecodeError") (py msg).

Definition RecursionError : exn :=
  Exception (py "RecursionError")
    (py "maximum recursion depth exceeded while decoding a JSON document").

Definition is_whitespace (c : codepoint) : bool :=
  N.eqb c 32 || N.eqb c 9 || N.eqb c 10 || N.eqb c 13.

Fixpoint skip_whitespace (s : pystr) : pystr :=
  match s with
  | c :: s' => if is_whitespace c then skip_whitespace s' else s
  | [] => []
  end.

(** The rest of [s] after [prefix], when [s] starts with it. *)
Fixpoint strip_prefix (prefix s : pystr) {struct prefix} : option pystr :=
  match prefix, s with
  | [], _ => Some s
  | _ :: _, [] => None
  | p :: prefix', c :: s' => if N.eqb c p then strip_prefix prefix' s' else None
  end.

Definition hex_value (c : codepoint) : option N :=
  if N.leb 48 c && N.leb c 57 then Some (c - 48)%N
  else if N.leb 97 c && N.leb c 102 then Some (c - 87)%N
  else if N.leb 65 c && N.leb c 70 then Some (c - 55)%N
  else None.

Definition hex4 (a b c d : codepoint) : option N :=
  match hex_value a, hex_value b, hex_value c, hex_value d with
  | Some x, Some y, Some z, Some t => Some (((x * 16 + y) * 16 + z) * 16 + t)%N
  | _, _, _, _ => None
  end.

Definition is_high_surrogate (u : N) : bool := N.leb 55296 u && N.leb u 56319.
Definition is_low_surrogate (u : N) : bool := N.leb 56320 u && N.leb u 57343.

(** [Py_UNICODE_JOIN_SURROGATES] *)
Definition join_surrogates (hi lo : N) : N :=
  (65536 + N.lor (N.shiftl (N.land hi 1023) 10) (N.land lo 1023))%N.

(** The character a one-letter escape stands for. *)
Definition unescape (c : codepoint) : option codepoint :=
  if N.eqb c dquote then Some dquote
  else if N.eqb c backslash then Some backslash
  else if N.eqb c (ch "/") then Some (ch "/")
  else if N.eqb c (ch "b") then Some 8%N
  else if N.eqb c (ch "f") then Some 12%N
  else if N.eqb c (ch "n") then Some 10%N
  else if N.eqb c (ch "r") then Some 13%N
  else if N.eqb c (ch "t") then Some 9%N
  else None.

(** [scanstring_unicode], strict, from the character after the opening
    quote.  [acc] holds the characters read so far, last first. *)
Fixpoint scanstring (s : pystr) (acc : pystr) {struct s} : outcome (pystr * pystr) :=
  match s with
  | [] => Raise (JSONDecodeError "Unterminated string starting at")
  | c :: s1 =>
      if N.eqb c dquote then Return (rev acc, s1)
      else if N.eqb c backslash then
        match s1 with
        | [] => Raise (JSONDecodeError "Unterminated string starting at")
        | e :: s2 =>
            if N.eqb e (ch "u") then
              match s2 with
              | h1 :: h2 :: h3 :: h4 :: ((_ :: _) as s6) =>
                  match hex4 h1 h2 h3 h4 with
                  | None => Raise (JSONDecodeError "Invalid \uXXXX escape")
                  | Some u =>
                      if is_high_surrogate u then
                        match s6 with
                        | b :: u' :: k1 :: k2 :: k3 :: k4 :: ((_ :: _) as s12) =>
                            if N.eqb b backslash && N.eqb u' (ch "u") then
                              match hex4 k1 k2 k3 k4 with
                              | None => Raise (JSONDecodeError "Invalid \uXXXX escape")
                              | Some u2 =>
                                  if is_low_surrogate u2
                                  then scanstring s12 (join_surrogates u u2 :: acc)
                                  else scanstring s6 (u :: acc)
                              end
                            else scanstring s6 (u :: acc)
                        | _ => scanstring s6 (u :: acc)
                        end
                      else scanstring s6 (u :: acc)
                  end
              | _ => Raise (JSONDecodeError "Invalid \uXXXX escape")
              end
            else
              match unescape e with
              | Some c' => scanstring s2 (c' :: acc)
              | None => Raise (JSONDecodeError "Invalid \escape")
              end
        end
      else if N.leb c 31 then Raise (JSONDecodeError "Invalid control character at")
      else scanstring s1 (c :: acc)
  end.

(** The longest run of digits at the head of [s], and what follows it. *)
Fixpoint span_digits (s : pystr) : pystr * pystr :=
  match s with
  | c :: s' =>
      if is_digit c then let (ds, r) := span_digits s' in (c :: ds, r) else ([], s)
  | [] => ([], [])
  end.

(** The integer digits of a number: one or more digits that do not start
    with [0], or a single [0]. *)
Definition match_integer (s : pystr) : option (pystr * pystr) :=
  match s with
  | c :: s' =>
      if N.leb 49 c && N.leb c 57 then
        let (ds, r) := span_digits s' in Some (c :: ds, r)
      else if N.eqb c 48 then Some ([c], s')
      else None
  | [] => None
  end.

(** The fraction: a point followed by a digit, then all the digits. *)
Definition match_fraction (s : pystr) : pystr * pystr :=
  match s with
  | p :: d :: r =>
      if N.eqb p (ch ".") && is_digit d then
        let (ds, r') := span_digits r in (p :: d :: ds, r')
      else ([], s)
  | _ => ([], s)
  end.

(** The exponent: [e] or [E], a sign if present, the digits; without a
    digit the scanner backtracks to before the [e]. *)
Definition match_exponent (s : pystr) : pystr * pystr :=
  match s with
  | e :: ((_ :: _) as r) =>
      if N.eqb e (ch "e") || N.eqb e (ch "E") then
        let (sign, r') :=
          match r with
          | g :: ((_ :: _) as r'') =>
              if N.eqb g (ch "-") || N.eqb g (ch "+") then ([g], r'') else ([], r)
          | _ => ([], r)
          end in
        let (ds, r'') := span_digits r' in
        match ds with
        | [] => ([], s)
        | _ :: _ => (e :: sign ++ ds, r'')
        end
      else ([], s)
  | _ => ([], s)
  end.

(** [_match_number_unicode] *)
Definition match_number (itp : interpreter) (s : pystr) : outcome (value * pystr) :=
  let (negative, s1) :=
    match s with
    | c :: s' => if N.eqb c (ch "-") then (true, s') else (false, s)
    | [] => (false, s)
    end in
  match match_integer s1 with
  | None => Raise (JSONDecodeError "Expecting value")
  | Some (digits, r0) =>
      let (frac, r1) := match_fraction r0 in
      let (exponent, r2) := match_exponent r1 in
      match frac, exponent with
      | [], [] =>
          match int_of_numstr itp negative digits with
          | Return z => Return (PyInt z, r2)
          | Raise e => Raise e
          end
      | _, _ =>
          let numstr := (if negative then [ch "-"] else []) ++ digits ++ frac ++ exponent in
          Return (PyFloat (float_of_literal itp numstr), r2)
      end
  end.

(** The loop of [_parse_array_unicode], entered before an element.  [n]
    bounds the iterations; the length of [s] is always enough. *)
Fixpoint array_loop (scan : pystr -> outcome (value * pystr))
    (n : nat) (s : pystr) (acc : list value) {struct n} : outcome (value * pystr) :=
  match n with
  | 0 => Raise (JSONDecodeError "Expecting value")
  | S n' =>
      match scan s with
      | Raise e => Raise e
      | Return (v, s1) =>
          match skip_whitespace s1 with
          | c :: s2 =>
              if N.eqb c (ch "]") then Return (PyList (rev (v :: acc)), s2)
              else if N.eqb c (ch ",") then
                array_loop scan n' (skip_whitespace s2) (v :: acc)
              else Raise (JSONDecodeError "Expecting ',' delimiter")
          | [] => Raise (JSONDecodeError "Expecting ',' delimiter")
          end
      end
  end.

(** [_parse_array_unicode], from the character after the bracket. *)
Definition parse_array (scan : pystr -> outcome (value * pystr)) (s : pystr)
  : outcome (value * pystr) :=
  match skip_whitespace s with
  | (c :: s') as s0 =>
      if N.eqb c (ch "]") then Return (PyList [], s')
      else array_loop scan (List.length s0) s0 []
  | [] => Raise (JSONDecodeError "Expecting value")
  end.

(** The loop of [_parse_object_unicode], entered before a key. *)
Fixpoint object_loop (scan : pystr -> outcome (value * pystr))
    (n : nat) (s : pystr) (acc : list (pystr * value)) {struct n}
  : outcome (value * pystr) :=
  match n with
  | 0 => Raise (JSONDecodeError "Expecting property name enclosed in double quotes")
  | S n' =>
      match s with
      | [] => Raise (JSONDecodeError "Expecting property name enclosed in double quotes")
      | q :: s1 =>
          if negb (N.eqb q dquote)
          then Raise (JSONDecodeError "Expecting property name enclosed in double quotes")
          else
            match scanstring s1 [] with
            | Raise e => Raise e
            | Return (key, s2) =>
                match skip_whitespace s2 with
                | [] => Raise (JSONDecodeError "Expecting ':' delimiter")
                | c :: s3 =>
                    if negb (N.eqb c (ch ":"))
                    then Raise (JSONDecodeError "Expecting ':' delimiter")
                    else
                      match scan (skip_whitespace s3) with
                      | Raise e => Raise e
                      | Return (val, s4) =>
                          let acc' := dict_set key val acc in
                          match skip_whitespace s4 with
                          | [] => Raise (JSONDecodeError "Expecting ',' delimiter")
                          | c' :: s5 =>
                              if N.eqb c' (ch "}") then Return (PyDict acc', s5)
                              else if N.eqb c' (ch ",") then
                                object_loop scan n' (skip_whitespace s5) acc'
                              else Raise (JSONDecodeError "Expecting ',' delimiter")
                          end
                      end
                end
            end
      end
  end.

(** [_parse_object_unicode], from the character after the brace. *)
Definition parse_object (scan : pystr -> outcome (value * pystr)) (s : pystr)
  : outcome (value * pystr) :=
  match skip_whitespace s with
  | (c :: s') as s0 =>
      if N.eqb c (ch "}") then Return (PyDict [], s')
      else object_loop scan (List.length s0) s0 []
  | [] => Raise (JSONDecodeError "Expecting property name enclosed in double quotes")
  end.

(** [scan_once_unicode]; [depth] is how many containers may still be
    entered. *)
Fixpoint scan_once (itp : interpreter) (depth : nat) (s : pystr) {struct depth}
  : outcome (value * pystr) :=
  match s with
  | [] => Raise (JSONDecodeError "Expecting value")
  | c :: s1 =>
      if N.eqb c dquote then
        match scanstring s1 [] with
        | Return (str, r) => Return (PyStr str, r)
        | Raise e => Raise e
        end
      else if N.eqb c (ch "{") then
        match depth with
        | 0 => Raise RecursionError
        | S depth' => parse_object (scan_once itp depth') s1
        end
      else if N.eqb c (ch "[") then
        match depth with
        | 0 => Raise RecursionError
        | S depth' => parse_array (scan_once itp depth') s1
        end
      else
        match strip_prefix (py "null") s with
        | Some r => Return (PyNone, r)
        | None =>
        match strip_prefix (py "true") s with
        | Some r => Return (PyBool true, r)
        | None =>
        match strip_prefix (py "false") s with
        | Some r => Return (PyBool false, r)
        | None =>
        match strip_prefix (py "NaN") s with
        | Some r => Return (PyFloat nan, r)
        | None =>
        match strip_prefix (py "Infinity") s with
        | Some r => Return (PyFloat infinity, r)
        | None =>
        match strip_prefix (py "-Infinity") s with
        | Some r => Return (PyFloat neg_infinity, r)
        | None => match_number itp s
        end end end end end end
  end.

(** [json.loads(s)] for a [str]: no byte order mark, one value between
    optional whitespace, nothing after it. *)
Definition loads (itp : interpreter) (s : pystr) : outcome value :=
  if startswith s [65279%N]
  then Raise (JSONDecodeError "Unexpected UTF-8 BOM (decode using utf-8-sig)")
  else
    match scan_once itp (recursion_limit itp) (skip_whitespace s) with
    | Raise e => Raise e
    | Return (obj, r) =>
        match skip_whitespace r with
        | [] => Return obj
        | _ :: _ => Raise (JSONDecodeError "Extra data")
        end
    end.

End Json.

(* ===================================================================== *)
(** * implementation/utils/config_manager.py *)
(* ===================================================================== *)

Module ConfigManager.
Import Py Json.

Definition CONFIG_FILE : pystr := py "active_config.json".

(** The module-level constant.  [load_active_config] hands out this very
    object; nothing in the module assigns to it or to its items. *)
Definition DEFAULT_CONFIG : value :=
  PyDict
    [ (py "chunk_size", PyInt 1000);
      (py "chunk_overlap", PyInt 200);
      (py "chunker_type", PyStr (py "semantic"));
      (py "embedding_model", PyStr (py "text-embedding-3-small"));
      (py "use_contextual_enrichment", PyBool false) ].

(** What the path [CONFIG_FILE] names in the working directory:
    nothing, as far as [os.path.exists] can tell; something that exists
    but that [open(CONFIG_FILE, 'r')] or the read refuses with an
    [OSError] or a [UnicodeDecodeError]; or a text file, given by the
    [str] a read in text mode returns.  What [json.dump] writes is ASCII,
    so a read in text mode returns it as written. *)
Inductive file : Type :=
| Absent
| Unreadable (cls msg : pystr)
| Text (content : pystr).

(** The file, and the [OSError] that [open(CONFIG_FILE, 'w')] raises when
    the path cannot be opened for writing. *)
Record filesystem : Type := mkFilesystem {
  config_file : file;
  open_for_writing_error : option (pystr * pystr)
}.

(** [os.path.exists(CONFIG_FILE)] *)
Definition os_path_exists (fs : filesystem) : bool :=
  match config_file fs with
  | Absent => false
  | Unreadable _ _ => true
  | Text _ => true
  end.

(** [with open(CONFIG_FILE, 'r') as f: ... f.read()] *)
Definition open_and_read (fs : filesystem) : outcome pystr :=
  match config_file fs with
  | Absent =>
      Raise (Exception (py "FileNotFoundError") (py "No such file or directory"))
  | Unreadable cls msg => Raise (Exception cls msg)
  | Text content => Return content
  end.

(** [with open(CONFIG_FILE, 'r') as f: return json.load(f)] *)
Definition json_load (itp : interpreter) (fs : filesystem) : outcome value :=
  match open_and_read fs with
  | Return content => loads itp content
  | Raise e => Raise e
  end.

(** [load_active_config] *)
Definition load_active_config (itp : interpreter) (fs : filesystem) : outcome value :=
  if negb (os_path_exists fs) then Return DEFAULT_CONFIG
  else
    match json_load itp fs with
    | Return config => Return config
    | Raise e => if is_Exception e then Return DEFAULT_CONFIG else Raise e
    end.

(** [save_active_config]: the file is truncated when it is opened, then
    receives the chunks of [json.dump] one by one, so it keeps what was
    written before an exception. *)
Definition save_active_config (itp : interpreter) (config : value) (fs : filesystem)
  : outcome unit * filesystem :=
  match open_for_writing_error fs with
  | Some (cls, msg) => (Raise (Exception cls msg), fs)
  | None =>
      let (written, stopped) := iterencode itp 0 config in
      let fs' := {| config_file := Text written; open_for_writing_error := None |} in
      match stopped with
      | None => (Return tt, fs')
      | Some e => (Raise e, fs')
      end
  end.

(** [type(o).__name__] *)
Definition type_name (o : value) : pystr :=
  match o with
  | PyNone => py "NoneType"
  | PyBool _ => py "bool"
  | PyInt _ => py "int"
  | PyFloat _ => py "float"
  | PyStr _ => py "str"
  | PyList _ => py "list"
  | PyDict _ => py "dict"
  end.

(** [get_active_embedding_model]; [config.get] exists on a [dict] only,
    and looking it up on anything else raises an [AttributeError]. *)
Definition get_active_embedding_model (itp : interpreter) (fs : filesystem)
  : outcome value :=
  match load_active_config itp fs with
  | Raise e => Raise e
  | Return (PyDict d) =>
      match dict_get (py "embedding_model") d with
      | Some model => Return model
      | None => Return (PyStr (py "text-embedding-3-small"))
      end
  | Return config =>
      Raise (Exception (py "AttributeError")
               (py "'" ++ type_name config ++ py "' object has no attribute 'get'"))
  end.

End ConfigManager.

(* ===================================================================== *)
(** * Properties of the harness *)
(* ===================================================================== *)

Module VerifyStrategiesFacts.
Import Py VerifyStrategies.
Local Open Scope py_scope.

(** ** The vocabulary of the specification *)

(** [text] begins with [prefix]; [text] has [sub] somewhere inside. *)
Definition starts_with (prefix text : pystr) : Prop :=
  exists rest, text = prefix ++ rest.

Definition has_substring (sub text : pystr) : Prop :=
  exists before after, text = before ++ sub ++ after.

(** A returned text that the harness reads as a failure. *)
Definition error_shaped (text : pystr) : Prop :=
  starts_with (py "Error") text \/
  starts_with (py "Search error") text \/
  has_substring (py "encountered an error") text.

(** The preview kept of a text: its first 200 characters and an ellipsis. *)
Definition preview (text : pystr) : pystr := firstn 200 text ++ py "...".

(** The classification rule for a call that returned, in the words of
    the specification. *)
Inductive classified : pyval -> TestResult -> Prop :=
| classified_unexpected_type cls r :
    status r = FAIL ->
    output r = preview (py "Unexpected return type: <class '" ++ cls ++ py "'>") ->
    classified (VOther cls) r
| classified_error_text text r :
    error_shaped text ->
    status r = FAIL ->
    classified (VStr text) r
| classified_pass text r :
    ~ error_shaped text ->
    status r = PASS ->
    output r = preview text ->
    List.length (output r) <= 203 ->
    classified (VStr text) r.

(** A strategy call the harness absorbs: it returns, or it raises an
    instance of [Exception]. *)
Definition completes (o : outcome pyval) : Prop :=
  match o with
  | Return _ => True
  | Raise e => is_Exception e = true
  end.

(** The ten calls of [run_all] as a table, in source order: the name of
    the test, the coroutine, its argument. *)
Definition registry (test_query : pystr) : list (pystr * strategy * pystr) :=
  [ (py "Baseline: search_knowledge_base", search_knowledge_base, test_query);
    (py "Strategy: search_with_multi_query", search_with_multi_query, test_query);
    (py "Strategy: search_with_reranking", search_with_reranking, test_query);
    (py "Strategy: search_with_self_reflection", search_with_self_reflection, test_query);
    (py "Strategy: search_with_hybrid_retrieval", search_with_hybrid_retrieval, test_query);
    (py "Edge Case: retrieve_full_document (missing)", retrieve_full_document,
     py "NON_EXISTENT_DOCUMENT_X123");
    (py "Strategy: answer_with_fact_verification", answer_with_fact_verification, test_query);
    (py "Strategy: answer_with_multi_hop", answer_with_multi_hop, test_query);
    (py "Strategy: answer_with_uncertainty", answer_with_uncertainty, test_query);
    (py "Input Validation: Empty Query", search_knowledge_base, []) ].

(** The name an entry gives its result, and the call it makes. *)
Definition entry_name (e : pystr * strategy * pystr) : pystr := fst (fst e).
Definition entry_call (e : pystr * strategy * pystr) : event := Call (snd (fst e)) (snd e).

(** One [self.results.append(await self.run_test(...))] per entry, then
    the statements that follow the last of them. *)
Fixpoint run_registered {A : Type} (w : world)
    (entries : list (pystr * strategy * pystr)) (rest : M A) : M A :=
  match entries with
  | [] => rest
  | (name, func, arg) :: entries' =>
      (r <- run_test w name func arg ;; results_append r) ;;
      run_registered w entries' rest
  end.

(** ** Effects and states of a run *)

(** The strategy calls among the effects of a run. *)
Fixpoint calls_of (t : list event) : list event :=
  match t with
  | [] => []
  | Call f a :: t' => Call f a :: calls_of t'
  | _ :: t' => calls_of t'
  end.

(** How many times [close_db] was awaited. *)
Fixpoint teardowns (t : list event) : nat :=
  match t with
  | [] => 0
  | CloseDb :: t' => S (teardowns t')
  | _ :: t' => teardowns t'
  end.

(** The tests that did not pass, as [print_report] counts them. *)
Fixpoint count_failed (rs : list TestResult) : nat :=
  match rs with
  | [] => 0
  | r :: rs' => (if pystr_eqb (status r) PASS then 0 else 1) + count_failed rs'
  end.

(** The state [s] after the effects [t]. *)
Definition after (s : runtime) (t : list event) : runtime :=
  {| results := results s; db_initialized := db_initialized s;
     calls := calls s; ticks := ticks s; trace := trace s ++ t |}.

(** The measured duration of a test started in state [s]. *)
Definition measured (w : world) (s : runtime) : float :=
  elapsed_ms (clock w (S (ticks s))) (clock w (ticks s)).

(** The state [run_test] leaves when the call completed or its exception
    was absorbed. *)
Definition tested (w : world) (s : runtime) (name : pystr) (func : strategy)
    (arg : pystr) (verdict : pystr) : runtime :=
  {| results := results s;
     db_initialized := db_initialized s;
     calls := S (calls s);
     ticks := S (S (ticks s));
     trace := trace s ++ [Stdout (MsgRunningTest name); Call func arg;
                          Stdout (MsgVerdict verdict (measured w s))] |}.

(** The state [run_test] leaves when the exception of the call escapes. *)
Definition interrupted (s : runtime) (name : pystr) (func : strategy) (arg : pystr)
  : runtime :=
  {| results := results s;
     db_initialized := db_initialized s;
     calls := S (calls s);
     ticks := S (ticks s);
     trace := trace s ++ [Stdout (MsgRunningTest name); Call func arg] |}.

(** ** Worlds to run the harness in *)

(** Both credentials set, the database at hand, a clock that stands still,
    and [answers n] as the result of the [n]-th strategy call. *)
Definition world_answering (answers : nat -> outcome pyval) : world :=
  {| import_error := None;
     getenv := fun _ => Some (py "set");
     initialize_db := None;
     close_db := None;
     strategy_call := fun n _ _ => answers n;
     clock := fun _ => 0%float |}.

(** The same without [DATABASE_URL]. *)
Definition world_without_database_url : world :=
  {| import_error := None;
     getenv := fun key =>
       if pystr_eqb key (py "DATABASE_URL") then None else Some (py "set");
     initialize_db := None;
     close_db := None;
     strategy_call := fun _ _ _ => Return (VStr (py "ok"));
     clock := fun _ => 0%float |}.

(** Every second call raises, the others answer. *)
Definition world_failing_every_second_call : world :=
  world_answering
    (fun n => if Nat.even n
              then Raise (Exception (py "RuntimeError") (py "model unavailable"))
              else Return (VStr (py "Found 3 documents"))).

(** The third call is interrupted from the keyboard. *)
Definition world_interrupted_in_third_call : world :=
  world_answering
    (fun n => if Nat.eqb n 2 then Raise KeyboardInterrupt
              else Return (VStr (py "Found 3 documents"))).

(** What [setup] leaves behind when it returns. *)
Definition set_up (s : runtime) : runtime :=
  {| results := results s;
     db_initialized := true;
     calls := calls s;
     ticks := ticks s;
     trace := trace s ++ [Stdout MsgCheckingEnvironment; Stdout MsgInitializingDatabase;
                          InitDb] |}.

(** How a run ends once the table is through: with the exception of
    [close_db], with [SystemExit(1)] from the report, or normally. *)
Definition ending (w : world) (rs : list TestResult) : outcome unit :=
  match close_db w with
  | Some e => Raise e
  | None => if Nat.ltb 0 (count_failed rs) then Raise (SystemExit 1) else Return tt
  end.

(** ** What a run records and prints *)

(** The result [run_test] records under [name] for the outcome of its
    call, when it records one. *)
Definition result_for (name : pystr) (duration : float) (o : outcome pyval) : TestResult :=
  match o with
  | Return v =>
      mkTestResult name (fst (classify v)) duration
        (slice_to 200 (str_val (snd (classify v))) ++ py "...") []
  | Raise e => mkTestResult name FAIL duration [] (str_exn e)
  end.

(** The results of a table of calls that starts at clock reading [tick]
    and strategy call [call], and what the calls print and do. *)
Fixpoint results_from (w : world) (tick call : nat)
    (entries : list (pystr * strategy * pystr)) : list TestResult :=
  match entries with
  | [] => []
  | (name, func, arg) :: entries' =>
      result_for name (elapsed_ms (clock w (S tick)) (clock w tick))
        (strategy_call w call func arg)
      :: results_from w (S (S tick)) (S call) entries'
  end.

Fixpoint events_from (w : world) (tick call : nat)
    (entries : list (pystr * strategy * pystr)) : list event :=
  match entries with
  | [] => []
  | (name, func, arg) :: entries' =>
      let r := result_for name (elapsed_ms (clock w (S tick)) (clock w tick))
                 (strategy_call w call func arg) in
      Stdout (MsgRunningTest name) :: Call func arg
      :: Stdout (MsgVerdict (status r) (duration_ms r))
      :: events_from w (S (S tick)) (S call) entries'
  end.

(** The row [print_report] prints for a result, and all it prints. *)
Definition report_row (r : TestResult) : event :=
  Stdout (MsgRow (name r) (status r) (duration_ms r) (display_output r)).

Definition report_events (rs : list TestResult) : list event :=
  Stdout MsgReportHeader
  :: map report_row rs
  ++ [ Stdout (MsgTotals (List.length rs) (List.length rs - count_failed rs)
                 (count_failed rs));
       Stdout (if Nat.ltb 0 (count_failed rs) then MsgSomeFailed else MsgAllOperational) ].

(** What a call that completed leaves in the list of results. *)
Inductive recorded (name : pystr) : outcome pyval -> TestResult -> Prop :=
| recorded_pass text d :
    ~ error_shaped text ->
    recorded name (Return (VStr text)) (mkTestResult name PASS d (preview text) [])
| recorded_error_text text d :
    error_shaped text ->
    recorded name (Return (VStr text)) (mkTestResult name FAIL d (preview text) [])
| recorded_unexpected_type cls d :
    recorded name (Return (VOther cls))
      (mkTestResult name FAIL d
         (preview (py "Unexpected return type: <class '" ++ cls ++ py "'>")) [])
| recorded_exception cls msg d :
    recorded name (Raise (Exception cls msg)) (mkTestResult name FAIL d [] msg).

(** A call whose test passes. *)
Definition passes (o : outcome pyval) : Prop :=
  exists text, o = Return (VStr text) /\ ~ error_shaped text.

(** What every recorded result looks like. *)
Definition well_formed (r : TestResult) : Prop :=
  (status r = PASS \/ status r = FAIL) /\
  (status r = PASS -> error r = []) /\
  (error r <> [] -> output r = []) /\
  List.length (output r) <= 203.

(** The state after setup and the tests of [entries], all completed. *)
Definition ran (w : world) (test_query : pystr)
    (entries : list (pystr * strategy * pystr)) : runtime :=
  {| results := results_from w 0 0 entries;
     db_initialized := true;
     calls := List.length entries;
     ticks := 2 * List.length entries;
     trace := [Stdout MsgCheckingEnvironment; Stdout MsgInitializingDatabase; InitDb;
               Stdout (MsgStartingTests test_query)]
              ++ events_from w 0 0 entries |}.

(** What [__main__] makes of an exception that leaves [run_all]: the exit
    status of the process and the last line it prints. *)
Definition exit_status_of (e : exn) : Z :=
  match e with
  | KeyboardInterrupt => 0
  | Exception _ _ => 0
  | SystemExit code => exit_status code
  | CancelledError => 1
  end.

Definition last_words (e : exn) : list event :=
  match e with
  | KeyboardInterrupt => [Stdout MsgInterrupted]
  | Exception _ _ => [Stdout (MsgCriticalFailure (str_exn e))]
  | _ => []
  end.

(** The report was printed. *)
Definition reported (t : list event) : Prop := In (Stdout MsgReportHeader) t.

(** Every call answers with the same text. *)
Definition world_passing : world :=
  world_answering (fun _ => Return (VStr (py "Found 3 documents"))).

(** The database cannot be opened. *)
Definition world_without_database : world :=
  {| import_error := None;
     getenv := fun _ => Some (py "set");
     initialize_db := Some (Exception (py "ConnectionRefusedError") (py "connection refused"));
     close_db := None;
     strategy_call := fun _ _ _ => Return (VStr (py "Found 3 documents"));
     clock := fun _ => 0%float |}.


(** Every call raises; [close_db] fails as well. *)
Definition world_failing_and_closing_badly : world :=
  {| import_error := None;
     getenv := fun _ => Some (py "set");
     initialize_db := None;
     close_db := Some (Exception (py "InterfaceError") (py "pool is closed"));
     strategy_call := fun _ _ _ => Raise (Exception (py "RuntimeError") (py "model unavailable"));
     clock := fun _ => 0%float |}.

(** ** [startswith] and [in] decide what they are named after *)

Lemma startswith_iff s prefix : startswith s prefix = true <-> starts_with prefix s.
Proof.
  revert s; induction prefix as [|p prefix IH]; intros s; simpl.
  - split; [intros _; exists s; reflexivity | reflexivity].
  - destruct s as [|c s].
    + split; [discriminate | intros [rest H]; discriminate].
    + rewrite andb_true_iff, N.eqb_eq, IH. split.
      * intros [-> [rest ->]]. exists rest. reflexivity.
      * intros [rest H]. injection H as -> ->. split; [reflexivity | exists rest; reflexivity].
Qed.

Lemma contains_iff sub s : contains sub s = true <-> has_substring sub s.
Proof.
  induction s as [|c s IH].
  - simpl. rewrite orb_false_r, startswith_iff. split.
    + intros [rest H]. exists [], rest. exact H.
    + intros [before [after H]]. destruct before; [|discriminate].
      exists after. exact H.
  - cbn [contains]. rewrite orb_true_iff, startswith_iff, IH. split.
    + intros [[rest H] | [before [after H]]].
      * exists [], rest. exact H.
      * exists (c :: before), after. rewrite H. reflexivity.
    + intros [before [after H]]. destruct before as [|b before].
      * left. exists after. exact H.
      * right. injection H as _ H. exists before, after. exact H.
Qed.

Lemma error_shaped_iff text :
  startswith text (py "Error") || startswith text (py "Search error")
    || contains (py "encountered an error") text = true
  <-> error_shaped text.
Proof.
  unfold error_shaped.
  rewrite !orb_true_iff, !startswith_iff, contains_iff. tauto.
Qed.

Lemma preview_length text : List.length (preview text) <= 203.
Proof.
  unfold preview. rewrite length_app.
  pose proof (firstn_le_length 200 text) as H.
  rewrite length_firstn. change (List.length (py "...")) with 3. lia.
Qed.

(** ** Effects *)

Lemma after_after s t u : after (after s t) u = after s (t ++ u).
Proof. unfold after. cbn [results db_initialized calls ticks trace]. rewrite app_assoc. reflexivity. Qed.

Lemma print_after m s : print m s = (Return tt, after s [Stdout m]).
Proof. reflexivity. Qed.

(** ** One test *)

Section OneTest.

Variable w : world.

Lemma run_test_returned name func arg s v :
  strategy_call w (calls s) func arg = Return v ->
  run_test w name func arg s =
    (Return (mkTestResult name (fst (classify v)) (measured w s)
               (slice_to 200 (str_val (snd (classify v))) ++ py "...") []),
     tested w s name func arg (fst (classify v))).
Proof.
  intros H.
  unfold run_test, bind, try_except_Exception, print, emit, time_time, await_strategy.
  cbn [results db_initialized calls ticks trace fst snd]. rewrite H.
  destruct (classify v) as [verdict result].
  unfold ret, tested, measured. cbn [results db_initialized calls ticks trace fst snd].
  rewrite <- !app_assoc. reflexivity.
Qed.

Lemma run_test_absorbed name func arg s cls msg :
  strategy_call w (calls s) func arg = Raise (Exception cls msg) ->
  run_test w name func arg s =
    (Return (mkTestResult name FAIL (measured w s) [] msg),
     tested w s name func arg FAIL).
Proof.
  intros H.
  unfold run_test, bind, try_except_Exception, print, emit, time_time, await_strategy.
  cbn [results db_initialized calls ticks trace fst snd]. rewrite H.
  unfold ret, tested, measured.
  cbn [is_Exception str_exn results db_initialized calls ticks trace fst snd].
  rewrite <- !app_assoc. reflexivity.
Qed.

Lemma run_test_escaped name func arg s e :
  strategy_call w (calls s) func arg = Raise e ->
  is_Exception e = false ->
  run_test w name func arg s = (Raise e, interrupted s name func arg).
Proof.
  intros H He.
  unfold run_test, bind, try_except_Exception, print, emit, time_time, await_strategy.
  cbn [results db_initialized calls ticks trace fst snd]. rewrite H, He.
  unfold interrupted. rewrite <- !app_assoc. reflexivity.
Qed.

End OneTest.

(** ** The classification rule *)

(** C3: a strategy call that returns is classified by the specification's
    rule: a value that is not a [str] gives FAIL with a message naming its
    type, an error-shaped text gives FAIL, any other text gives PASS with
    a preview of at most 203 characters as output. *)
Theorem run_test_classifies_returned_value
    (w : world) (name : pystr) (func : strategy) (arg : pystr) (s : runtime) (v : pyval) :
  strategy_call w (calls s) func arg = Return v ->
  exists r s',
    run_test w name func arg s = (Return r, s') /\
    VerifyStrategies.name r = name /\
    classified v r.
Proof.
  intros H. rewrite (run_test_returned w name func arg s H).
  eexists _, _. split; [reflexivity|]. split; [reflexivity|].
  destruct v as [text|cls]; cbn [classify].
  - destruct (startswith text (py "Error") || startswith text (py "Search error")
              || contains (py "encountered an error") text) eqn:E.
    + apply classified_error_text; [apply error_shaped_iff; exact E | reflexivity].
    + apply classified_pass; try reflexivity.
      * intros Hshape. apply error_shaped_iff in Hshape. congruence.
      * apply preview_length.
  - apply classified_unexpected_type; reflexivity.
Qed.

Lemma run_test_classifies_returned_value_witness :
  exists r s',
    run_test (world_answering (fun _ => Return (VStr (py "Error: database is empty"))))
      (py "Baseline: search_knowledge_base") search_knowledge_base
      (py "strategic overview") StrategyTester = (Return r, s') /\
    name r = py "Baseline: search_knowledge_base" /\
    classified (VStr (py "Error: database is empty")) r.
Proof.
  apply run_test_classifies_returned_value. reflexivity.
Defined.

(** C10: when the returned text is error-shaped, the FAIL result keeps
    the preview of that text in [output] and its [error] stays empty. *)
Theorem error_shaped_text_is_kept_as_output
    (w : world) (name : pystr) (func : strategy) (arg : pystr) (s : runtime) (text : pystr) :
  strategy_call w (calls s) func arg = Return (VStr text) ->
  error_shaped text ->
  exists r s',
    run_test w name func arg s = (Return r, s') /\
    status r = FAIL /\
    output r = preview text /\
    output r <> [] /\
    error r = [].
Proof.
  intros H Hshape. rewrite (run_test_returned w name func arg s H).
  eexists _, _. split; [reflexivity|].
  apply error_shaped_iff in Hshape. cbn [classify]. rewrite Hshape.
  cbn [fst snd status output error str_val].
  repeat split. unfold slice_to. intros Hnil.
  apply app_eq_nil in Hnil. destruct Hnil as [_ Hnil]. discriminate.
Qed.

Lemma error_shaped_text_is_kept_as_output_witness :
  exists r s',
    run_test (world_answering (fun _ => Return (VStr (py "Search error: timeout"))))
      (py "Strategy: search_with_reranking") search_with_reranking
      (py "strategic overview") StrategyTester = (Return r, s') /\
    status r = FAIL /\
    output r = preview (py "Search error: timeout") /\
    output r <> [] /\
    error r = [].
Proof.
  apply error_shaped_text_is_kept_as_output.
  - reflexivity.
  - right; left. exists (py ": timeout"). reflexivity.
Defined.

(** C5: when the strategy call raises an instance of [Exception], the
    test is recorded as FAIL with the text of the exception in [error]
    and an empty [output]. *)
Theorem raised_exception_is_recorded_as_error
    (w : world) (name : pystr) (func : strategy) (arg : pystr) (s : runtime)
    (cls msg : pystr) :
  strategy_call w (calls s) func arg = Raise (Exception cls msg) ->
  exists r s',
    run_test w name func arg s = (Return r, s') /\
    VerifyStrategies.name r = name /\
    status r = FAIL /\
    error r = msg /\
    output r = [].
Proof.
  intros H. rewrite (run_test_absorbed w name func arg s H).
  eexists _, _. repeat split.
Qed.

Lemma raised_exception_is_recorded_as_error_witness :
  exists r s',
    run_test
      (world_answering
         (fun _ => Raise (Exception (py "ConnectionError") (py "connection refused"))))
      (py "Strategy: answer_with_multi_hop") answer_with_multi_hop
      (py "strategic overview") StrategyTester = (Return r, s') /\
    name r = py "Strategy: answer_with_multi_hop" /\
    status r = FAIL /\
    error r = py "connection refused" /\
    output r = [].
Proof.
  apply raised_exception_is_recorded_as_error with (cls := py "ConnectionError").
  reflexivity.
Defined.

(** ** The whole run *)

Lemma calls_of_app t u : calls_of (t ++ u) = calls_of t ++ calls_of u.
Proof.
  induction t as [|e t IH]; [reflexivity|].
  destruct e; simpl; rewrite IH; reflexivity.
Qed.

Lemma teardowns_app t u : teardowns (t ++ u) = teardowns t + teardowns u.
Proof.
  induction t as [|e t IH]; [reflexivity|].
  destruct e; simpl; rewrite IH; reflexivity.
Qed.

Lemma teardowns_zero_not_In t : teardowns t = 0 -> ~ In CloseDb t.
Proof.
  induction t as [|e t IH]; simpl; [tauto|].
  destruct e; intros H [Hin|Hin]; try discriminate; apply IH; assumption.
Qed.

(** [print_report] only prints; it ends in [SystemExit(1)] exactly when
    some result is not PASS. *)
Lemma report_rows_prints rs : forall passed failed s,
  exists t,
    report_rows rs passed failed s =
      (Return (passed + (List.length rs - count_failed rs), failed + count_failed rs),
       after s t) /\
    calls_of t = [] /\ teardowns t = 0 /\ count_failed rs <= List.length rs.
Proof.
  induction rs as [|r rs IH]; intros passed failed s.
  - exists []. unfold after. cbn. rewrite app_nil_r, !Nat.add_0_r.
    destruct s; repeat split. lia.
  - cbn [report_rows count_failed List.length].
    destruct (pystr_eqb (status r) PASS);
      unfold bind; rewrite print_after;
      match goal with |- context [report_rows rs ?p ?f ?s1] =>
        destruct (IH p f s1) as (t & -> & Hc & Ht & Hle) end;
      rewrite after_after;
      exists (Stdout (MsgRow (name r) (status r) (duration_ms r) (display_output r)) :: t);
      cbn [app calls_of teardowns]; repeat split; try assumption; try lia;
      do 3 f_equal; lia.
Qed.

Lemma print_report_prints s :
  exists t,
    print_report s =
      (if Nat.ltb 0 (count_failed (results s)) then Raise (SystemExit 1) else Return tt,
       after s t) /\
    calls_of t = [] /\ teardowns t = 0.
Proof.
  unfold print_report, bind, get_results. rewrite print_after.
  match goal with |- context [report_rows ?rs ?p ?f ?s1] =>
    destruct (report_rows_prints rs p f s1) as (t & -> & Hc & Ht & _) end.
  rewrite !print_after, !after_after. cbn [Nat.add results after].
  destruct (Nat.ltb 0 (count_failed (results s)));
    rewrite !print_after, ?after_after; unfold raise;
    eexists; (split; [reflexivity|]); cbn [app];
    cbn [calls_of teardowns]; rewrite ?calls_of_app, ?teardowns_app, Hc, Ht;
    split; reflexivity.
Qed.

Section WholeRun.

Variable w : world.

(** [run_all] is its table of calls between [setup] and [teardown]. *)
Lemma run_all_by_registry test_query :
  run_all w test_query =
    (setup w ;;
     print (MsgStartingTests test_query) ;;
     run_registered w (registry test_query) (teardown w ;; print_report)).
Proof. reflexivity. Qed.

Lemma setup_returns s :
  fst (setup w s) = Return tt ->
  setup w s = (Return tt, set_up s) /\
  truthy (getenv w (py "DATABASE_URL")) = true /\
  truthy (getenv w (py "OPENAI_API_KEY")) = true /\
  initialize_db w = None.
Proof.
  unfold setup, await_initialize_db, set_db_initialized, try_except_Exception,
    print, raise, ret, bind, emit.
  cbn [results db_initialized calls ticks trace fst snd].
  destruct (truthy (getenv w (py "DATABASE_URL"))); cbn [negb fst]; [|discriminate].
  destruct (truthy (getenv w (py "OPENAI_API_KEY"))); cbn [negb fst]; [|discriminate].
  destruct (initialize_db w) as [e|].
  - cbn [results db_initialized calls ticks trace fst snd].
    destruct (is_Exception e); cbn [fst]; discriminate.
  - cbn [results db_initialized calls ticks trace fst snd]. intros _.
    unfold set_up. rewrite <- !app_assoc. repeat split; reflexivity.
Qed.

(** The table runs to its end when every call completes: each entry
    leaves one result under its own name, in order, and nothing touches
    the database. *)
Lemma run_registered_completes (A : Type) (rest : M A) entries : forall s,
  (forall i e, nth_error entries i = Some e ->
     completes (strategy_call w (calls s + i) (snd (fst e)) (snd e))) ->
  exists s',
    run_registered w entries rest s = rest s' /\
    map name (results s') = map name (results s) ++ map entry_name entries /\
    db_initialized s' = db_initialized s /\
    calls s' = calls s + List.length entries /\
    exists t, trace s' = trace s ++ t /\
              calls_of t = map entry_call entries /\
              teardowns t = 0.
Proof.
  induction entries as [|[[name func] arg] entries IH]; intros s H.
  - exists s. cbn [run_registered map List.length].
    rewrite Nat.add_0_r, !app_nil_r. repeat split.
    exists []. rewrite app_nil_r. repeat split.
  - assert (exists r s1,
               run_test w name func arg s = (Return r, s1) /\
               VerifyStrategies.name r = name /\
               s1 = tested w s name func arg (status r)) as (r & s1 & Hrun & Hname & ->).
    { specialize (H 0 (name, func, arg) eq_refl).
      rewrite Nat.add_0_r in H. cbn [fst snd] in H.
      destruct (strategy_call w (calls s) func arg) as [v|e] eqn:E.
      - eexists _, _. rewrite (run_test_returned w name func arg s E).
        repeat split.
      - destruct e; try discriminate.
        eexists _, _. rewrite (run_test_absorbed w name func arg s E).
        repeat split. }
    set (s2 := snd (results_append r (tested w s name func arg (status r)))).
    destruct (IH s2) as (s' & Hrest & Hnames & Hdb & Hcalls & t & Htrace & Hcallsof & Htd).
    { intros i e Hi. specialize (H (S i) e Hi).
      subst s2. cbn [results_append snd calls tested].
      replace (S (calls s) + i) with (calls s + S i) by lia. exact H. }
    exists s'. split.
    { cbn [run_registered]. unfold bind at 1 2. rewrite Hrun.
      cbn [results_append]. exact Hrest. }
    subst s2. cbn [results_append snd results db_initialized calls trace tested] in *.
    rewrite Hnames, Hdb, Hcalls, Htrace. cbn [map List.length entry_name fst].
    rewrite map_app. cbn [map]. rewrite Hname, <- !app_assoc. cbn [app].
    repeat split; try lia.
    eexists. split; [reflexivity|].
    cbn [calls_of teardowns]. rewrite Hcallsof, Htd. repeat split.
Qed.

(** After the table: [teardown] closes the database once, and the report
    adds nothing but what it prints. *)
Lemma teardown_then_report s :
  db_initialized s = true ->
  exists t,
    (teardown w ;; print_report) s = (ending w (results s), after s (CloseDb :: t)) /\
    calls_of t = [] /\ teardowns t = 0.
Proof.
  intros Hdb.
  unfold ending, teardown, get_db_initialized, await_close_db, bind at 1 2 3.
  rewrite Hdb.
  change (emit CloseDb s) with (Return tt, after s [CloseDb]).
  destruct (close_db w) as [e|].
  - exists []. repeat split.
  - unfold ret. destruct (print_report_prints (after s [CloseDb])) as (t & -> & Hc & Ht).
    rewrite after_after. exists t. repeat split; assumption.
Qed.

(** A run whose setup succeeds and whose ten calls all complete. *)
Lemma run_all_completes test_query :
  fst (setup w StrategyTester) = Return tt ->
  (forall i e, nth_error (registry test_query) i = Some e ->
     completes (strategy_call w i (snd (fst e)) (snd e))) ->
  exists s1 t,
    run_all w test_query StrategyTester
      = (ending w (results s1), after s1 (CloseDb :: t)) /\
    map name (results s1) = map entry_name (registry test_query) /\
    calls_of (trace s1) = map entry_call (registry test_query) /\
    teardowns (trace s1) = 0 /\
    calls_of t = [] /\ teardowns t = 0.
Proof.
  intros Hsetup Hcalls.
  destruct (setup_returns StrategyTester Hsetup) as (Hs & _).
  rewrite run_all_by_registry. unfold bind at 1 2. rewrite Hs, print_after.
  set (s0 := after (set_up StrategyTester) [Stdout (MsgStartingTests test_query)]).
  destruct (run_registered_completes (teardown w ;; print_report)
              (registry test_query) s0 Hcalls)
    as (s1 & -> & Hnames & Hdb & _ & t1 & Htrace & Hc1 & Ht1).
  destruct (teardown_then_report s1 Hdb) as (t & -> & Hc & Ht).
  exists s1, t. repeat split; try assumption.
  - rewrite Htrace, calls_of_app, Hc1. reflexivity.
  - rewrite Htrace, teardowns_app, Ht1. reflexivity.
Qed.

(** The table stops at the first call whose exception escapes
    [run_test]: the results of the calls before it stay, nothing closes
    the database, and the statements after the table are not reached. *)
Lemma run_registered_escapes (A : Type) (rest : M A) entries : forall s i entry e,
  nth_error entries i = Some entry ->
  (forall j earlier, j < i -> nth_error entries j = Some earlier ->
     completes (strategy_call w (calls s + j) (snd (fst earlier)) (snd earlier))) ->
  strategy_call w (calls s + i) (snd (fst entry)) (snd entry) = Raise e ->
  is_Exception e = false ->
  exists s',
    run_registered w entries rest s = (Raise e, s') /\
    List.length (results s') = List.length (results s) + i /\
    db_initialized s' = db_initialized s /\
    exists t, trace s' = trace s ++ t /\ teardowns t = 0.
Proof.
  induction entries as [|[[name func] arg] entries IH]; intros s i entry e Hi Hbefore Hcall He.
  - destruct i; discriminate.
  - destruct i as [|i].
    + injection Hi as <-. cbn [fst snd] in Hcall. rewrite Nat.add_0_r in Hcall.
      exists (interrupted s name func arg). split.
      { cbn [run_registered]. unfold bind at 1 2.
        rewrite (run_test_escaped w name func arg s Hcall He). reflexivity. }
      cbn [interrupted results db_initialized trace]. repeat split; try lia.
      eexists. split; reflexivity.
    + assert (exists r s1,
                 run_test w name func arg s = (Return r, s1) /\
                 s1 = tested w s name func arg (status r)) as (r & s1 & Hrun & ->).
      { pose proof (Hbefore 0 (name, func, arg) (Nat.lt_0_succ i) eq_refl) as H0.
        rewrite Nat.add_0_r in H0. cbn [fst snd] in H0.
        destruct (strategy_call w (calls s) func arg) as [v|e0] eqn:E.
        - eexists _, _. rewrite (run_test_returned w name func arg s E).
          split; reflexivity.
        - destruct e0; try discriminate.
          eexists _, _. rewrite (run_test_absorbed w name func arg s E).
          split; reflexivity. }
      set (s2 := snd (results_append r (tested w s name func arg (status r)))).
      destruct (IH s2 i entry e Hi) as (s' & Hrest & Hlen & Hdb & t & Htrace & Ht);
        try assumption.
      { intros j earlier Hj Hnth. subst s2. cbn [results_append snd calls tested].
        replace (S (calls s) + j) with (calls s + S j) by lia.
        apply Hbefore; [lia | exact Hnth]. }
      { subst s2. cbn [results_append snd calls tested].
        replace (S (calls s) + i) with (calls s + S i) by lia. exact Hcall. }
      exists s'. split.
      { cbn [run_registered]. unfold bind at 1 2. rewrite Hrun.
        cbn [results_append]. exact Hrest. }
      subst s2. cbn [results_append snd results db_initialized trace tested] in *.
      rewrite Hlen, Hdb, Htrace, length_app. cbn [List.length].
      repeat split; try lia.
      eexists. rewrite <- List.app_assoc. split; [reflexivity|].
      rewrite teardowns_app, Ht. reflexivity.
Qed.

(** Without a cleanup handler, an exception that escapes [run_test] ends
    [run_all] before [teardown]: the database stays open. *)
Lemma escaping_exception_skips_teardown test_query i entry e :
  fst (setup w StrategyTester) = Return tt ->
  nth_error (registry test_query) i = Some entry ->
  (forall j earlier, j < i -> nth_error (registry test_query) j = Some earlier ->
     completes (strategy_call w j (snd (fst earlier)) (snd earlier))) ->
  strategy_call w i (snd (fst entry)) (snd entry) = Raise e ->
  is_Exception e = false ->
  exists s',
    run_all w test_query StrategyTester = (Raise e, s') /\
    List.length (results s') = i /\
    db_initialized s' = true /\
    teardowns (trace s') = 0.
Proof.
  intros Hsetup Hi Hbefore Hcall He.
  destruct (setup_returns StrategyTester Hsetup) as (Hs & _).
  rewrite run_all_by_registry. unfold bind at 1 2. rewrite Hs, print_after.
  set (s0 := after (set_up StrategyTester) [Stdout (MsgStartingTests test_query)]).
  destruct (@run_registered_escapes unit (teardown w ;; print_report)
              (registry test_query) s0 i entry e Hi Hbefore Hcall He)
    as (s' & -> & Hlen & Hdb & t & Htrace & Ht).
  exists s'. repeat split; try assumption.
  rewrite Htrace, teardowns_app, Ht. reflexivity.
Qed.

End WholeRun.

(** C4: when setup succeeds and each of the ten calls returns or raises
    an [Exception], the run leaves exactly ten results, named after the
    ten entries of the table in their order, and the ten calls were made
    in that order. *)
Theorem run_all_records_ten_results_in_order (w : world) (test_query : pystr) :
  fst (setup w StrategyTester) = Return tt ->
  (forall i e, nth_error (registry test_query) i = Some e ->
     completes (strategy_call w i (snd (fst e)) (snd e))) ->
  exists o s',
    run_all w test_query StrategyTester = (o, s') /\
    map name (results s') = map entry_name (registry test_query) /\
    List.length (results s') = 10 /\
    calls_of (trace s') = map entry_call (registry test_query).
Proof.
  intros Hsetup Hcalls.
  destruct (run_all_completes w test_query Hsetup Hcalls)
    as (s1 & t & Hrun & Hnames & Hc1 & _ & Hc & _).
  eexists _, (after s1 (CloseDb :: t)). split; [exact Hrun|].
  cbn [after results trace]. repeat split.
  - exact Hnames.
  - rewrite <- (length_map name), Hnames, length_map. reflexivity.
  - rewrite calls_of_app. cbn [calls_of]. rewrite Hc1, Hc. apply app_nil_r.
Qed.

Lemma run_all_records_ten_results_in_order_witness :
  exists o s',
    run_all world_failing_every_second_call (py "strategic overview") StrategyTester
      = (o, s') /\
    map name (results s') = map entry_name (registry (py "strategic overview")) /\
    List.length (results s') = 10 /\
    calls_of (trace s') = map entry_call (registry (py "strategic overview")).
Proof.
  apply run_all_records_ten_results_in_order.
  - reflexivity.
  - intros i e _. simpl. destruct (Nat.even i); simpl; reflexivity.
Defined.

(** C2, as amended: when setup acquired the database and each of the ten
    calls returns or raises an [Exception], [close_db] is awaited exactly
    once, after the ten calls, and only the report follows it. *)
Theorem teardown_runs_once_after_the_ten_calls (w : world) (test_query : pystr) :
  fst (setup w StrategyTester) = Return tt ->
  (forall i e, nth_error (registry test_query) i = Some e ->
     completes (strategy_call w i (snd (fst e)) (snd e))) ->
  exists o s' before after_,
    run_all w test_query StrategyTester = (o, s') /\
    trace s' = before ++ CloseDb :: after_ /\
    calls_of before = map entry_call (registry test_query) /\
    calls_of after_ = [] /\
    teardowns (trace s') = 1.
Proof.
  intros Hsetup Hcalls.
  destruct (run_all_completes w test_query Hsetup Hcalls)
    as (s1 & t & Hrun & _ & Hc1 & Ht1 & Hc & Ht).
  eexists _, (after s1 (CloseDb :: t)), (trace s1), t.
  split; [exact Hrun|]. cbn [after trace]. repeat split; try assumption.
  rewrite teardowns_app. cbn [teardowns]. rewrite Ht1, Ht. reflexivity.
Qed.

Lemma teardown_runs_once_after_the_ten_calls_witness :
  exists o s' before after_,
    run_all world_failing_every_second_call (py "strategic overview") StrategyTester
      = (o, s') /\
    trace s' = before ++ CloseDb :: after_ /\
    calls_of before = map entry_call (registry (py "strategic overview")) /\
    calls_of after_ = [] /\
    teardowns (trace s') = 1.
Proof.
  apply teardown_runs_once_after_the_ten_calls.
  - reflexivity.
  - intros i e _. simpl. destruct (Nat.even i); simpl; reflexivity.
Defined.

(** C2, as stated, fails: the database was acquired, the third strategy
    call raises [KeyboardInterrupt], which [run_test] does not catch, and
    [run_all] ends without awaiting [close_db]. *)
Lemma teardown_skipped_when_a_call_is_interrupted :
  exists s',
    fst (setup world_interrupted_in_third_call StrategyTester) = Return tt /\
    run_all world_interrupted_in_third_call (py "strategic overview") StrategyTester
      = (Raise KeyboardInterrupt, s') /\
    db_initialized s' = true /\
    List.length (results s') = 2 /\
    ~ In CloseDb (trace s').
Proof.
  eexists. split; [reflexivity|]. split; [vm_compute; reflexivity|].
  split; [reflexivity|]. split; [reflexivity|].
  apply teardowns_zero_not_In. reflexivity.
Qed.

(** C6: when [DATABASE_URL] or [OPENAI_API_KEY] is unset or empty,
    [run_all] raises a [ValueError] out of [setup]: the database is not
    opened, no strategy is called and no result is recorded. *)
Theorem missing_credential_aborts_in_setup (w : world) (test_query : pystr) :
  truthy (getenv w (py "DATABASE_URL")) = false \/
  truthy (getenv w (py "OPENAI_API_KEY")) = false ->
  exists msg s',
    run_all w test_query StrategyTester = (Raise (Exception (py "ValueError") msg), s') /\
    (msg = py "DATABASE_URL is missing in .env" \/
     msg = py "OPENAI_API_KEY is missing in .env") /\
    results s' = [] /\
    calls s' = 0 /\
    trace s' = [Stdout MsgCheckingEnvironment].
Proof.
  intros H. rewrite run_all_by_registry.
  unfold bind at 1. unfold setup. unfold bind at 1. rewrite print_after.
  destruct (truthy (getenv w (py "DATABASE_URL"))) eqn:Edb; cbn [negb].
  - destruct H as [H|H]; [discriminate|]. rewrite H. cbn [negb].
    eexists _, _. split; [reflexivity|]. repeat split. right. reflexivity.
  - eexists _, _. split; [reflexivity|]. repeat split. left. reflexivity.
Qed.

Lemma missing_credential_aborts_in_setup_witness :
  exists msg s',
    run_all world_without_database_url (py "strategic overview") StrategyTester
      = (Raise (Exception (py "ValueError") msg), s') /\
    (msg = py "DATABASE_URL is missing in .env" \/
     msg = py "OPENAI_API_KEY is missing in .env") /\
    results s' = [] /\
    calls s' = 0 /\
    trace s' = [Stdout MsgCheckingEnvironment].
Proof.
  apply missing_credential_aborts_in_setup. left. reflexivity.
Defined.

(** ** The exit status of the process *)

(** The guarded import at the top of the script ends the process with
    status 1. *)
Lemma import_error_exits_with_status_one (w : world) (query e : pystr) :
  import_error w = Some e -> fst (script w query) = 1%Z.
Proof. intros H. unfold script. rewrite H. reflexivity. Qed.

(** So does a report that counts a failed test. *)
Lemma failed_test_exits_with_status_one (w : world) (query : pystr) :
  fst (setup w StrategyTester) = Return tt ->
  (forall i e, nth_error (registry query) i = Some e ->
     completes (strategy_call w i (snd (fst e)) (snd e))) ->
  close_db w = None ->
  0 < count_failed (results (snd (run_all w query StrategyTester))) ->
  fst (script w query) = 1%Z.
Proof.
  intros Hsetup Hcalls Hclose.
  destruct (run_all_completes w query Hsetup Hcalls) as (s1 & t & Hrun & _).
  unfold script, main. rewrite Hrun. cbn [snd after results].
  unfold ending. rewrite Hclose. intros Hfailed.
  apply Nat.ltb_lt in Hfailed. rewrite Hfailed.
  destruct (import_error w); reflexivity.
Qed.

(** A run in which every test passes ends with status 0. *)
Lemma all_passed_exits_with_status_zero (w : world) (query : pystr) :
  import_error w = None ->
  fst (setup w StrategyTester) = Return tt ->
  (forall i e, nth_error (registry query) i = Some e ->
     completes (strategy_call w i (snd (fst e)) (snd e))) ->
  close_db w = None ->
  count_failed (results (snd (run_all w query StrategyTester))) = 0 ->
  fst (script w query) = 0%Z.
Proof.
  intros Himport Hsetup Hcalls Hclose.
  destruct (run_all_completes w query Hsetup Hcalls) as (s1 & t & Hrun & _).
  unfold script, main. rewrite Himport, Hrun. cbn [snd after results].
  unfold ending. rewrite Hclose. intros ->. reflexivity.
Qed.

(** C1 fails on the code: an [Exception] that leaves [run_all] (a missing
    credential, a database that cannot be opened, any other unexpected
    error) is caught by the last handler of [__main__], which prints it and
    lets the script run off its end, so the process exits with status 0. *)
Theorem critical_failure_exits_with_status_zero
    (w : world) (query cls msg : pystr) (s' : runtime) :
  import_error w = None ->
  run_all w query StrategyTester = (Raise (Exception cls msg), s') ->
  script w query = (0%Z, after s' [Stdout (MsgCriticalFailure msg)]).
Proof.
  intros Himport Hrun. unfold script, main. rewrite Himport, Hrun. reflexivity.
Qed.

Lemma critical_failure_exits_with_status_zero_witness :
  script world_without_database_url (py "What are the strategic goals?") =
    (0%Z, after (after StrategyTester [Stdout MsgCheckingEnvironment])
            [Stdout (MsgCriticalFailure (py "DATABASE_URL is missing in .env"))]).
Proof.
  apply critical_failure_exits_with_status_zero with (cls := py "ValueError").
  - reflexivity.
  - reflexivity.
Defined.

(** ** The whole run, event by event *)

Lemma after_nil s : after s [] = s.
Proof. unfold after. rewrite List.app_nil_r. destruct s; reflexivity. Qed.

Lemma pystr_eqb_true a b : pystr_eqb a b = true <-> a = b.
Proof. unfold pystr_eqb. destruct (list_eq_dec N.eq_dec a b); split; congruence. Qed.

Lemma result_for_recorded name d o :
  completes o -> recorded name o (result_for name d o).
Proof.
  destruct o as [[text|cls]|e]; cbn [completes result_for classify].
  - intros _.
    destruct (startswith text (py "Error") || startswith text (py "Search error")
              || contains (py "encountered an error") text) eqn:E.
    + apply recorded_error_text, error_shaped_iff, E.
    + apply recorded_pass. intros Hshape. apply error_shaped_iff in Hshape. congruence.
  - intros _. apply recorded_unexpected_type.
  - destruct e; try discriminate. intros _. apply recorded_exception.
Qed.

Lemma recorded_well_formed name o r : recorded name o r -> well_formed r.
Proof.
  intros H. destruct H; unfold well_formed; cbn [status output error];
    repeat split; try (left; reflexivity); try (right; reflexivity);
    try reflexivity; try congruence; try apply preview_length; try discriminate;
    cbn; lia.
Qed.

Lemma results_from_nth w : forall entries tick call i name func arg,
  nth_error entries i = Some (name, func, arg) ->
  nth_error (results_from w tick call entries) i =
    Some (result_for name
            (elapsed_ms (clock w (S (tick + 2 * i))) (clock w (tick + 2 * i)))
            (strategy_call w (call + i) func arg)).
Proof.
  induction entries as [|[[n f] a] entries IH]; intros tick call i name func arg H.
  - destruct i; discriminate.
  - destruct i as [|i].
    + injection H as -> -> ->. cbn [results_from nth_error].
      rewrite !Nat.add_0_r. reflexivity.
    + cbn [results_from nth_error] in *. rewrite (IH _ _ _ _ _ _ H).
      do 3 f_equal; try (f_equal; lia); lia.
Qed.

Lemma results_from_length w : forall entries tick call,
  List.length (results_from w tick call entries) = List.length entries.
Proof.
  induction entries as [|[[n f] a] entries IH]; intros; cbn; [reflexivity|].
  rewrite IH. reflexivity.
Qed.

Lemma events_from_effects w : forall entries tick call,
  calls_of (events_from w tick call entries) = map entry_call entries /\
  teardowns (events_from w tick call entries) = 0 /\
  ~ reported (events_from w tick call entries).
Proof.
  unfold reported.
  induction entries as [|[[n f] a] entries IH]; intros tick call.
  - cbn. tauto.
  - destruct (IH (S (S tick)) (S call)) as (Hc & Ht & Hr).
    cbn [events_from calls_of teardowns map entry_call fst snd In].
    rewrite Hc, Ht. repeat split.
    intros [H|[H|[H|H]]]; try discriminate. tauto.
Qed.

Lemma count_failed_le rs : count_failed rs <= List.length rs.
Proof.
  induction rs as [|r rs IH]; cbn [count_failed List.length]; [lia|].
  destruct (pystr_eqb (status r) PASS); lia.
Qed.

Lemma count_failed_zero rs :
  count_failed rs = 0 <-> Forall (fun r => status r = PASS) rs.
Proof.
  induction rs as [|r rs IH]; cbn [count_failed].
  - split; [constructor|reflexivity].
  - destruct (pystr_eqb (status r) PASS) eqn:E.
    + apply pystr_eqb_true in E. cbn [Nat.add]. rewrite IH. split.
      * intros H. constructor; assumption.
      * intros H. inversion H. assumption.
    + split; [discriminate|]. intros H. inversion H as [|? ? Hr _]; subst.
      apply pystr_eqb_true in Hr. congruence.
Qed.



Lemma main_of_raise w query e s :
  run_all w query StrategyTester = (Raise e, s) ->
  main w query = (exit_status_of e, after s (last_words e)).
Proof.
  intros H. unfold main. rewrite H.
  destruct e; cbn [exit_status_of last_words]; rewrite ?after_nil; reflexivity.
Qed.

Section Exact.
Variable w : world.

Lemma run_registered_exact (A : Type) (rest : M A) entries : forall s,
  (forall i e, nth_error entries i = Some e ->
     completes (strategy_call w (calls s + i) (snd (fst e)) (snd e))) ->
  run_registered w entries rest s =
    rest {| results := results s ++ results_from w (ticks s) (calls s) entries;
            db_initialized := db_initialized s;
            calls := calls s + List.length entries;
            ticks := ticks s + 2 * List.length entries;
            trace := trace s ++ events_from w (ticks s) (calls s) entries |}.
Proof.
  induction entries as [|[[name func] arg] entries IH]; intros s H.
  - cbn [run_registered results_from events_from List.length].
    rewrite !List.app_nil_r, !Nat.add_0_r. destruct s; reflexivity.
  - assert (run_test w name func arg s =
              (Return (result_for name (measured w s) (strategy_call w (calls s) func arg)),
               tested w s name func arg
                 (status (result_for name (measured w s)
                            (strategy_call w (calls s) func arg))))) as Hrun.
    { specialize (H 0 (name, func, arg) eq_refl).
      rewrite Nat.add_0_r in H. cbn [fst snd] in H.
      destruct (strategy_call w (calls s) func arg) as [v|e] eqn:E.
      - rewrite (run_test_returned w name func arg s E). reflexivity.
      - destruct e; try discriminate.
        rewrite (run_test_absorbed w name func arg s E). reflexivity. }
    cbn [run_registered]. unfold bind at 1 2. rewrite Hrun. cbn [results_append].
    rewrite IH.
    + cbn [results db_initialized calls ticks trace tested results_from events_from
           List.length duration_ms result_for].
      f_equal. unfold measured.
      assert (forall o, duration_ms (result_for name
                 (elapsed_ms (clock w (S (ticks s))) (clock w (ticks s))) o)
               = elapsed_ms (clock w (S (ticks s))) (clock w (ticks s))) as Hd
        by (intros [?|?]; reflexivity).
      rewrite Hd, <- !List.app_assoc. cbn [app].
      f_equal; lia.
    + intros i e Hi. cbn [calls tested].
      replace (S (calls s) + i) with (calls s + S i) by lia. apply H. exact Hi.
Qed.

Lemma report_rows_exact rs : forall passed failed s,
  report_rows rs passed failed s =
    (Return (passed + (List.length rs - count_failed rs), failed + count_failed rs),
     after s (map report_row rs)).
Proof.
  induction rs as [|r rs IH]; intros passed failed s.
  - unfold after. cbn. rewrite List.app_nil_r, !Nat.add_0_r. destruct s; reflexivity.
  - destruct (report_rows_prints rs 0 0 s) as (_ & _ & _ & _ & Hle).
    cbn [report_rows count_failed List.length map].
    destruct (pystr_eqb (status r) PASS);
      unfold bind; rewrite print_after, IH, after_after;
      cbn [app]; do 3 f_equal; lia.
Qed.

Lemma print_report_exact s :
  print_report s =
    ((if Nat.ltb 0 (count_failed (results s)) then Raise (SystemExit 1) else Return tt),
     after s (report_events (results s))).
Proof.
  unfold print_report, bind, get_results. rewrite print_after, report_rows_exact.
  rewrite !print_after, !after_after. cbn [Nat.add results after].
  unfold report_events.
  destruct (Nat.ltb 0 (count_failed (results s)));
    rewrite !print_after, ?after_after; unfold raise; cbn [app];
    rewrite <- ?List.app_assoc; reflexivity.
Qed.

(** The whole of [run_all] when setup succeeds and every call completes. *)
Lemma run_all_exact test_query :
  fst (setup w StrategyTester) = Return tt ->
  (forall i e, nth_error (registry test_query) i = Some e ->
     completes (strategy_call w i (snd (fst e)) (snd e))) ->
  run_all w test_query StrategyTester =
    match close_db w with
    | Some e => (Raise e, after (ran w test_query (registry test_query)) [CloseDb])
    | None =>
        ((if Nat.ltb 0 (count_failed (results_from w 0 0 (registry test_query)))
          then Raise (SystemExit 1) else Return tt),
         after (ran w test_query (registry test_query))
           (CloseDb :: report_events (results_from w 0 0 (registry test_query))))
    end.
Proof.
  intros Hsetup Hcalls.
  destruct (setup_returns w StrategyTester Hsetup) as (Hs & _).
  rewrite run_all_by_registry. unfold bind at 1 2. rewrite Hs, print_after.
  rewrite run_registered_exact by exact Hcalls.
  cbn [after set_up StrategyTester results db_initialized calls ticks trace app
       registry List.length Nat.add Nat.mul].
  change (registry test_query) with (registry test_query).
  unfold teardown, get_db_initialized, await_close_db, bind at 1 2 3.
  cbn [db_initialized].
  match goal with |- context [emit CloseDb ?s] =>
    change (emit CloseDb s) with (Return tt, after s [CloseDb]);
    change s with (ran w test_query (registry test_query)) end.
  destruct (close_db w) as [e|]; [reflexivity|].
  unfold ret. rewrite print_report_exact, after_after. reflexivity.
Qed.

End Exact.

Section Runs.
Variable w : world.

(** [setup] when both credentials are set. *)
Lemma setup_with_credentials s :
  truthy (getenv w (py "DATABASE_URL")) = true ->
  truthy (getenv w (py "OPENAI_API_KEY")) = true ->
  setup w s =
    match initialize_db w with
    | None => (Return tt, set_up s)
    | Some e =>
        (Raise e,
         after s ([Stdout MsgCheckingEnvironment; Stdout MsgInitializingDatabase; InitDb]
                  ++ if is_Exception e then [Stdout (MsgDatabaseInitFailed (str_exn e))]
                     else []))
    end.
Proof.
  intros Hdb Hkey.
  unfold setup, await_initialize_db, set_db_initialized, try_except_Exception,
    print, raise, ret, bind, emit.
  rewrite Hdb, Hkey. cbn [negb results db_initialized calls ticks trace fst snd].
  destruct (initialize_db w) as [e|].
  - destruct e; cbn [is_Exception results db_initialized calls ticks trace];
      unfold after; cbn [results db_initialized calls ticks trace];
      rewrite <- ?List.app_assoc; reflexivity.
  - unfold set_up. rewrite <- !List.app_assoc. reflexivity.
Qed.


End Runs.

Lemma result_for_passes name d o :
  status (result_for name d o) = PASS <-> passes o.
Proof.
  unfold passes. destruct o as [[text|cls]|e]; cbn [result_for classify status fst].
  - destruct (startswith text (py "Error") || startswith text (py "Search error")
              || contains (py "encountered an error") text) eqn:E; cbn [fst].
    + split; [discriminate|]. intros (t & [= <-] & Hn).
      apply error_shaped_iff in E. contradiction.
    + split; [|reflexivity]. intros _. exists text. split; [reflexivity|].
      intros H. apply error_shaped_iff in H. congruence.
  - split; [discriminate|]. intros (t & H & _). discriminate.
  - split; [discriminate|]. intros (t & H & _). discriminate.
Qed.

Lemma results_from_all_pass w : forall entries tick call,
  (forall i e, nth_error entries i = Some e ->
     passes (strategy_call w (call + i) (snd (fst e)) (snd e))) ->
  Forall (fun r => status r = PASS) (results_from w tick call entries).
Proof.
  induction entries as [|[[n f] a] entries IH]; intros tick call H;
    cbn [results_from]; constructor.
  - apply result_for_passes. specialize (H 0 _ eq_refl).
    rewrite Nat.add_0_r in H. exact H.
  - apply IH. intros i e Hi. replace (S call + i) with (call + S i) by lia.
    apply H. exact Hi.
Qed.

Lemma count_failed_nth rs : forall i r,
  nth_error rs i = Some r -> status r <> PASS -> 0 < count_failed rs.
Proof.
  induction rs as [|r' rs IH]; intros [|i] r H Hr; try discriminate;
    cbn [nth_error count_failed] in *.
  - injection H as ->. destruct (pystr_eqb (status r) PASS) eqn:E; [|lia].
    apply pystr_eqb_true in E. contradiction.
  - specialize (IH i r H Hr). lia.
Qed.

Lemma app_before_last_lines (A : Type) (x : list A) a b y z :
  x ++ a :: b :: y ++ z = (x ++ a :: b :: y) ++ z.
Proof. rewrite <- List.app_assoc. reflexivity. Qed.

Section Invariant.
Variable w : world.

Lemma setup_keeps_results s : results (snd (setup w s)) = results s.
Proof.
  unfold setup, await_initialize_db, set_db_initialized, try_except_Exception,
    print, raise, ret, bind, emit.
  cbn [results db_initialized calls ticks trace fst snd].
  destruct (truthy (getenv w (py "DATABASE_URL"))); cbn [negb]; [|reflexivity].
  destruct (truthy (getenv w (py "OPENAI_API_KEY"))); cbn [negb]; [|reflexivity].
  destruct (initialize_db w) as [[]|]; reflexivity.
Qed.

Lemma teardown_then_report_keeps_results s :
  results (snd ((teardown w ;; print_report) s)) = results s.
Proof.
  unfold teardown, get_db_initialized, await_close_db, bind at 1 2.
  destruct (db_initialized s).
  - unfold bind at 1.
    change (emit CloseDb s) with (Return tt, after s [CloseDb]).
    destruct (close_db w) as [e|]; [reflexivity|].
    unfold ret. rewrite print_report_exact. reflexivity.
  - unfold ret. rewrite print_report_exact. reflexivity.
Qed.

Lemma run_test_well_formed name func arg s :
  exists o s',
    run_test w name func arg s = (o, s') /\
    results s' = results s /\
    match o with Return r => well_formed r | Raise _ => True end.
Proof.
  destruct (strategy_call w (calls s) func arg) as [v|e] eqn:E.
  - eexists _, _. split; [apply (run_test_returned w name func arg s E)|].
    split; [reflexivity|].
    apply (@recorded_well_formed name (Return v)).
    apply (@result_for_recorded name (measured w s) (Return v)). exact I.
  - destruct (is_Exception e) eqn:He.
    + destruct e as [cls msg| | |]; try discriminate.
      eexists _, _. split; [apply (run_test_absorbed w name func arg s E)|].
      split; [reflexivity|].
      apply (@recorded_well_formed name (Raise (Exception cls msg))).
      apply recorded_exception.
    + eexists _, _. split; [apply (run_test_escaped w name func arg s E He)|].
      split; [reflexivity|exact I].
Qed.

Lemma run_registered_well_formed (A : Type) (rest : M A) entries : forall s,
  Forall well_formed (results s) ->
  (forall s', Forall well_formed (results s') ->
     Forall well_formed (results (snd (rest s')))) ->
  Forall well_formed (results (snd (run_registered w entries rest s))).
Proof.
  induction entries as [|[[name func] arg] entries IH]; intros s Hs Hrest.
  - apply Hrest, Hs.
  - cbn [run_registered]. unfold bind at 1 2.
    destruct (run_test_well_formed name func arg s) as (o & s' & -> & Hres & Ho).
    destruct o as [r|e].
    + cbn [results_append]. apply IH; [|exact Hrest].
      cbn [results]. rewrite Hres. apply Forall_app. split; [exact Hs|].
      constructor; [exact Ho|constructor].
    + cbn [snd]. rewrite Hres. exact Hs.
Qed.

End Invariant.

(** ** Results, exit status and report of a run *)

(** In a run that completes, [close_db] is awaited before anything of the
    report is printed, and the report is the last thing printed. *)
Lemma report_is_printed_after_teardown (w : world) (test_query : pystr) :
  fst (setup w StrategyTester) = Return tt ->
  (forall i e, nth_error (registry test_query) i = Some e ->
     completes (strategy_call w i (snd (fst e)) (snd e))) ->
  close_db w = None ->
  exists before,
    trace (snd (run_all w test_query StrategyTester)) =
      before ++ CloseDb
      :: report_events (results (snd (run_all w test_query StrategyTester))) /\
    teardowns before = 0 /\
    ~ reported before.
Proof.
  intros Hsetup Hcalls Hclose.
  rewrite (run_all_exact w test_query Hsetup Hcalls), Hclose.
  destruct (events_from_effects w (registry test_query) 0 0) as (_ & Ht & Hr).
  cbn [snd after ran results trace]. eexists. split; [reflexivity|].
  split.
  - rewrite teardowns_app, Ht. reflexivity.
  - unfold reported in *. rewrite in_app_iff. cbn [In].
    intros [H|H]; [intuition discriminate|contradiction].
Qed.

(** X1: in a run whose calls all complete, the [i]-th result comes from
    the [i]-th call alone: it carries the name of the [i]-th entry, the
    status, output and error that the outcome of that call gives, and the
    time between the two clock readings around that call. *)
Theorem each_result_follows_from_its_own_call
    (w : world) (test_query : pystr) (i : nat) (name : pystr) (func : strategy)
    (arg : pystr) :
  fst (setup w StrategyTester) = Return tt ->
  (forall j e, nth_error (registry test_query) j = Some e ->
     completes (strategy_call w j (snd (fst e)) (snd e))) ->
  nth_error (registry test_query) i = Some (name, func, arg) ->
  exists r,
    nth_error (results (snd (run_all w test_query StrategyTester))) i = Some r /\
    recorded name (strategy_call w i func arg) r /\
    duration_ms r = elapsed_ms (clock w (2 * i + 1)) (clock w (2 * i)).
Proof.
  intros Hsetup Hcalls Hi.
  rewrite (run_all_exact w test_query Hsetup Hcalls).
  eexists. split.
  - destruct (close_db w); cbn [snd after results ran];
      apply (results_from_nth w _ 0 0 _ Hi).
  - cbn [Nat.add]. split.
    + apply result_for_recorded. apply (Hcalls i _ Hi).
    + replace (2 * i + 1) with (S (2 * i)) by lia.
      destruct (strategy_call w i func arg); reflexivity.
Qed.

Lemma each_result_follows_from_its_own_call_witness :
  exists r,
    nth_error (results (snd (run_all world_failing_every_second_call
                               (py "strategic overview") StrategyTester))) 1 = Some r /\
    recorded (py "Strategy: search_with_multi_query")
      (Return (VStr (py "Found 3 documents"))) r /\
    duration_ms r = elapsed_ms 0%float 0%float.
Proof.
  apply (@each_result_follows_from_its_own_call world_failing_every_second_call
           (py "strategic overview") 1 (py "Strategy: search_with_multi_query")
           search_with_multi_query (py "strategic overview")).
  - reflexivity.
  - intros j e _. simpl. destruct (Nat.even j); simpl; reflexivity.
  - reflexivity.
Defined.

(** X2: every result a run records, however the run ends, has status
    PASS or FAIL and never SKIP, an empty [error] when it passed, an
    [output] of at most 203 characters, and never both an [output] and an
    [error]. *)
Theorem every_recorded_result_is_well_formed (w : world) (test_query : pystr) :
  Forall well_formed (results (snd (run_all w test_query StrategyTester))).
Proof.
  rewrite run_all_by_registry. unfold bind at 1.
  pose proof (setup_keeps_results w StrategyTester) as Hkeep.
  destruct (setup w StrategyTester) as [[[]|e] s0]; cbn [snd] in Hkeep.
  - unfold bind at 1. rewrite print_after.
    apply run_registered_well_formed.
    + cbn [after results]. rewrite Hkeep. constructor.
    + intros s' Hs'. rewrite teardown_then_report_keeps_results. exact Hs'.
  - cbn [snd]. rewrite Hkeep. constructor.
Qed.

(** X3: when both credentials are set and [initialize_db] raises an
    [Exception], [setup] prints the failure and raises it again out of
    [run_all]: the tester stays uninitialized, no strategy is called and
    no result is recorded. *)
Theorem failed_database_initialization_aborts_the_run
    (w : world) (test_query cls msg : pystr) :
  truthy (getenv w (py "DATABASE_URL")) = true ->
  truthy (getenv w (py "OPENAI_API_KEY")) = true ->
  initialize_db w = Some (Exception cls msg) ->
  exists s',
    run_all w test_query StrategyTester = (Raise (Exception cls msg), s') /\
    trace s' = [Stdout MsgCheckingEnvironment; Stdout MsgInitializingDatabase; InitDb;
                Stdout (MsgDatabaseInitFailed msg)] /\
    db_initialized s' = false /\
    results s' = [] /\
    calls s' = 0.
Proof.
  intros Hdb Hkey Hinit. rewrite run_all_by_registry. unfold bind at 1.
  rewrite (setup_with_credentials w StrategyTester Hdb Hkey), Hinit.
  eexists. split; [reflexivity|]. repeat split.
Qed.

Lemma failed_database_initialization_aborts_the_run_witness :
  exists s',
    run_all world_without_database (py "strategic overview") StrategyTester
      = (Raise (Exception (py "ConnectionRefusedError") (py "connection refused")), s') /\
    trace s' = [Stdout MsgCheckingEnvironment; Stdout MsgInitializingDatabase; InitDb;
                Stdout (MsgDatabaseInitFailed (py "connection refused"))] /\
    db_initialized s' = false /\
    results s' = [] /\
    calls s' = 0.
Proof.
  apply failed_database_initialization_aborts_the_run; reflexivity.
Defined.



(** A code of 256 is reported as success, a code of -1 as 255, and so is
    a code that no C [long] holds. *)
Example exit_status_keeps_eight_bits :
  exit_status 256 = 0%Z /\ exit_status (-1) = 255%Z /\ exit_status (2 ^ 64 + 7) = 255%Z.
Proof. repeat split. Qed.



(** X5: when [close_db] raises an [Exception] after the ten tests, the
    report is never printed and the process exits with status 0 after the
    critical-failure message, whatever the ten results are. *)
Theorem failing_close_db_suppresses_the_report
    (w : world) (query cls msg : pystr) :
  import_error w = None ->
  fst (setup w StrategyTester) = Return tt ->
  (forall i e, nth_error (registry query) i = Some e ->
     completes (strategy_call w i (snd (fst e)) (snd e))) ->
  close_db w = Some (Exception cls msg) ->
  exists s' t,
    script w query = (0%Z, s') /\
    List.length (results s') = 10 /\
    trace s' = t ++ [CloseDb; Stdout (MsgCriticalFailure msg)] /\
    teardowns t = 0 /\
    ~ reported (trace s').
Proof.
  intros Himport Hsetup Hcalls Hclose.
  pose proof (run_all_exact w query Hsetup Hcalls) as Hrun. rewrite Hclose in Hrun.
  destruct (events_from_effects w (registry query) 0 0) as (Hc & Ht & Hr).
  unfold script. rewrite Himport, (main_of_raise w query Hrun).
  eexists _, _. split; [reflexivity|].
  cbn [after ran results trace last_words str_exn].
  split; [apply (results_from_length w (registry query) 0 0)|].
  split; [rewrite <- List.app_assoc; reflexivity|].
  split; [rewrite teardowns_app, Ht; reflexivity|].
  unfold reported in *. rewrite !in_app_iff. cbn [In].
  intros [[[H|H]|H]|H]; try contradiction; cbn [In] in H; intuition discriminate.
Qed.

Lemma failing_close_db_suppresses_the_report_witness :
  exists s' t,
    script world_failing_and_closing_badly (py "strategic overview") = (0%Z, s') /\
    List.length (results s') = 10 /\
    trace s' = t ++ [CloseDb; Stdout (MsgCriticalFailure (py "pool is closed"))] /\
    teardowns t = 0 /\
    ~ reported (trace s').
Proof.
  apply (@failing_close_db_suppresses_the_report world_failing_and_closing_badly
           (py "strategic overview") (py "InterfaceError") (py "pool is closed")).
  - reflexivity.
  - reflexivity.
  - intros i e _. reflexivity.
  - reflexivity.
Defined.

(** X6: when setup and teardown succeed and each of the ten calls
    returns a text that is not error-shaped, every result is PASS, the
    report ends with the totals 10, 10, 0 and the all-operational line,
    and the process exits with status 0. *)
Theorem passing_run_reports_ten_of_ten (w : world) (query : pystr) :
  import_error w = None ->
  fst (setup w StrategyTester) = Return tt ->
  close_db w = None ->
  (forall i e, nth_error (registry query) i = Some e ->
     passes (strategy_call w i (snd (fst e)) (snd e))) ->
  exists s' t,
    script w query = (0%Z, s') /\
    trace s' = t ++ [Stdout (MsgTotals 10 10 0); Stdout MsgAllOperational] /\
    Forall (fun r => status r = PASS) (results s').
Proof.
  intros Himport Hsetup Hclose Hpass.
  assert (forall i e, nth_error (registry query) i = Some e ->
            completes (strategy_call w i (snd (fst e)) (snd e))) as Hcalls.
  { intros i e Hi. destruct (Hpass i e Hi) as (text & -> & _). exact I. }
  pose proof (run_all_exact w query Hsetup Hcalls) as Hrun. rewrite Hclose in Hrun.
  pose proof (results_from_all_pass w (registry query) 0 0 Hpass) as Hall.
  pose proof (proj2 (count_failed_zero _) Hall) as Hzero.
  pose proof (results_from_length w (registry query) 0 0) as Hlen.
  unfold script, main. rewrite Himport, Hrun, Hzero. cbn [Nat.ltb Nat.leb].
  eexists _, _. split; [reflexivity|].
  cbn [after ran results trace]. split; [|exact Hall].
  unfold report_events. rewrite Hzero, Hlen. cbn [Nat.ltb Nat.leb registry List.length Nat.sub].
  apply app_before_last_lines.
Qed.

Lemma passing_run_reports_ten_of_ten_witness :
  exists s' t,
    script world_passing (py "strategic overview") = (0%Z, s') /\
    trace s' = t ++ [Stdout (MsgTotals 10 10 0); Stdout MsgAllOperational] /\
    Forall (fun r => status r = PASS) (results s').
Proof.
  apply passing_run_reports_ten_of_ten.
  - reflexivity.
  - reflexivity.
  - reflexivity.
  - intros i e _. exists (py "Found 3 documents"). split; [reflexivity|].
    intros H. apply error_shaped_iff in H. discriminate.
Defined.

(** X7: when setup and teardown succeed and every call completes, one
    call that does not pass (it raises an [Exception], returns an
    error-shaped text or returns something that is not a [str]) is enough
    for the report to end with the some-failed line and for the process
    to exit with status 1; the totals still add up to ten. *)
Theorem one_failing_call_fails_the_run
    (w : world) (query : pystr) (i : nat) (name : pystr) (func : strategy) (arg : pystr) :
  import_error w = None ->
  fst (setup w StrategyTester) = Return tt ->
  close_db w = None ->
  (forall j e, nth_error (registry query) j = Some e ->
     completes (strategy_call w j (snd (fst e)) (snd e))) ->
  nth_error (registry query) i = Some (name, func, arg) ->
  ~ passes (strategy_call w i func arg) ->
  exists s' t passed failed,
    script w query = (1%Z, s') /\
    trace s' = t ++ [Stdout (MsgTotals 10 passed failed); Stdout MsgSomeFailed] /\
    0 < failed /\
    passed + failed = 10.
Proof.
  intros Himport Hsetup Hclose Hcalls Hi Hfail.
  pose proof (run_all_exact w query Hsetup Hcalls) as Hrun. rewrite Hclose in Hrun.
  pose proof (results_from_length w (registry query) 0 0) as Hlen.
  pose proof (count_failed_le (results_from w 0 0 (registry query))) as Hle.
  assert (0 < count_failed (results_from w 0 0 (registry query))) as Hpos.
  { eapply count_failed_nth; [apply (results_from_nth w _ 0 0 _ Hi)|].
    intros H. apply result_for_passes in H. exact (Hfail H). }
  pose proof Hpos as Hltb. apply Nat.ltb_lt in Hltb.
  unfold script, main. rewrite Himport, Hrun, Hltb.
  eexists _, _, _, _. split; [reflexivity|].
  cbn [after ran results trace]. unfold report_events. rewrite Hltb, Hlen.
  change (List.length (registry query)) with 10 in *.
  split; [apply app_before_last_lines|].
  split; [exact Hpos|]. rewrite Hlen in Hle. lia.
Qed.

Lemma one_failing_call_fails_the_run_witness :
  exists s' t passed failed,
    script world_failing_every_second_call (py "strategic overview") = (1%Z, s') /\
    trace s' = t ++ [Stdout (MsgTotals 10 passed failed); Stdout MsgSomeFailed] /\
    0 < failed /\
    passed + failed = 10.
Proof.
  apply (@one_failing_call_fails_the_run world_failing_every_second_call
           (py "strategic overview") 0 (py "Baseline: search_knowledge_base")
           search_knowledge_base (py "strategic overview")).
  - reflexivity.
  - reflexivity.
  - reflexivity.
  - intros j e _. simpl. destruct (Nat.even j); simpl; reflexivity.
  - reflexivity.
  - intros (text & H & _). discriminate.
Defined.

(** X8: [print_report] prints the header, one row per result in the
    order of the list, the totals and a closing line.  Passed and failed
    add up to the number of results, failed counts the results whose
    status is not PASS (a SKIP counts as failed), and [SystemExit(1)] is
    raised exactly when failed is not zero.  The tester is left as it
    was. *)
Theorem print_report_counts_every_result (s : runtime) :
  exists passed failed,
    print_report s =
      ((if Nat.ltb 0 failed then Raise (SystemExit 1) else Return tt),
       after s (Stdout MsgReportHeader
                :: map report_row (results s)
                ++ [Stdout (MsgTotals (List.length (results s)) passed failed);
                    Stdout (if Nat.ltb 0 failed then MsgSomeFailed
                            else MsgAllOperational)])) /\
    passed + failed = List.length (results s) /\
    failed = List.length (filter (fun r => negb (pystr_eqb (status r) PASS)) (results s)) /\
    (failed = 0 <-> Forall (fun r => status r = PASS) (results s)).
Proof.
  exists (List.length (results s) - count_failed (results s)), (count_failed (results s)).
  split; [apply print_report_exact|].
  pose proof (count_failed_le (results s)) as Hle.
  split; [lia|]. split; [|apply count_failed_zero].
  clear Hle. induction (results s) as [|r rs IH]; [reflexivity|].
  cbn [count_failed filter]. destruct (pystr_eqb (status r) PASS); cbn [negb List.length];
    rewrite IH; reflexivity.
Qed.

(** X9: the last column of a row holds at most 30 characters.  It shows
    [output] with its newlines replaced when [output] is not empty, and
    [error] as it is (newlines included) otherwise; a text of more than
    30 characters is cut to its first 27 and an ellipsis. *)
Theorem display_output_fits_its_column (r : TestResult) :
  List.length (display_output r) <= 30 /\
  (output r <> [] -> ~ In 10%N (display_output r)) /\
  (output r = [] -> List.length (error r) <= 30 -> display_output r = error r) /\
  (output r = [] -> 30 < List.length (error r) ->
   display_output r = firstn 27 (error r) ++ py "...").
Proof.
  assert (forall s, ~ In 10%N (replace_char 10%N 32%N s)) as Hnl.
  { induction s as [|c s IH]; [intros []|]. cbn [replace_char map In].
    unfold replace_char in *. cbn [map In].
    destruct (N.eqb c 10) eqn:E; intros [H|H]; try contradiction; try discriminate.
    subst c. discriminate. }
  unfold display_output.
  set (shown := match output r with _ :: _ => replace_char 10%N 32%N (output r)
                | [] => error r end).
  assert (List.length (if Nat.ltb 30 (List.length shown)
                       then slice_to 27 shown ++ py "..." else shown) <= 30) as Hlen.
  { destruct (Nat.ltb 30 (List.length shown)) eqn:E.
    - apply Nat.ltb_lt in E. unfold slice_to. rewrite length_app, length_firstn.
      change (List.length (py "...")) with 3. lia.
    - apply Nat.ltb_ge in E. exact E. }
  split; [exact Hlen|]. split; [|split].
  - intros Hout. assert (~ In 10%N shown) as Hs.
    { unfold shown. destruct (output r); [congruence|apply Hnl]. }
    destruct (Nat.ltb 30 (List.length shown)); [|exact Hs].
    rewrite in_app_iff. intros [H|H].
    + apply Hs. unfold slice_to in H.
      rewrite <- (firstn_skipn 27 shown). apply in_or_app. left. exact H.
    + cbn in H. intuition discriminate.
  - intros Hout Hle. unfold shown. rewrite Hout.
    apply Nat.ltb_ge in Hle. rewrite Hle. reflexivity.
  - intros Hout Hlt. unfold shown. rewrite Hout.
    apply Nat.ltb_lt in Hlt. rewrite Hlt. reflexivity.
Qed.

End VerifyStrategiesFacts.

(* ===================================================================== *)
(** * Properties of the JSON encoder and decoder *)
(* ===================================================================== *)

Module JsonFacts.
Import Py Json.

(** ** Texts, flat objects, and what the proofs measure *)

(** A Unicode scalar value: a code point that is not a surrogate. *)
Definition scalar_value (c : codepoint) : Prop :=
  ((c < 55296) \/ (57343 < c))%N /\ (c < 1114112)%N.

(** A text: a [str] of scalar values, which is what decoding UTF-8 gives. *)
Definition text (s : pystr) : Prop := Forall scalar_value s.

(** [P] holds of every number below [n]. *)
Definition all_below (P : N -> bool) (n : N) : bool :=
  snd (N.iter n (fun st => (N.succ (fst st), snd st && P (fst st))) (0%N, true)).

(** The four hexadecimal digits written for [n] are read as [n]. *)
Definition reads_back (n : N) : bool :=
  match u_escape n with
  | [_; _; a; b; c; d] =>
      match hex4 a b c d with
      | Some m => N.eqb m n
      | None => false
      end
  | _ => false
  end.

(** The two surrogates [escape_char] writes for the character
    [65536 + n]. *)
Definition high_half (n : N) : N := N.lor 55296 (N.land (N.shiftr n 10) 1023).
Definition low_half (n : N) : N := N.lor 56320 (N.land n 1023).

(** A surrogate built from ten bits is in its range and gives the ten
    bits back. *)
Definition high_half_ok (h : N) : bool :=
  let s := N.lor 55296 h in
  is_high_surrogate s && N.eqb (N.land s 1023) h.

Definition low_half_ok (l : N) : bool :=
  let s := N.lor 56320 l in
  is_low_surrogate s && N.eqb (N.land s 1023) l.

(** What may follow a value inside an indented object: a comma or the
    newline before the closing brace. *)
Definition terminated (rest : pystr) : Prop :=
  exists c r, rest = c :: r /\ (c = 44 \/ c = 10)%N.

(** Decimal digits without a superfluous leading zero. *)
Definition numeral (digits : pystr) : Prop :=
  digits = [48%N] \/
  exists d ds, digits = d :: ds /\ (49 <= d <= 57)%N /\ forallb is_digit ds = true.

(** The values of the recognized keys: [None], [bool], [int], and [str]
    when it is a text. *)
Inductive plain : value -> Prop :=
| plain_none : plain PyNone
| plain_bool b : plain (PyBool b)
| plain_int z : plain (PyInt z)
| plain_str s : text s -> plain (PyStr s).

(** A [dict] whose keys are texts and whose values are plain. *)
Definition flat (d : list (pystr * value)) : Prop :=
  Forall (fun kv => text (fst kv) /\ plain (snd kv)) d.

(** The members of a flat object as [_iterencode_dict] yields them. *)
Fixpoint items_text (itp : interpreter) (level : nat) (first : bool)
    (d : list (pystr * value)) : chunks :=
  match d with
  | [] => and_then (yield (newline_indent level)) (yield [ch "}"])
  | (key, v) :: d' =>
      and_then (if first then yield [] else yield (ch "," :: newline_indent (S level)))
     (and_then (yield (encode_basestring_ascii key))
     (and_then (yield (py ": "))
     (and_then
        match encode_scalar itp v with
        | Some r => yield_outcome [] r
        | None => yield []
        end
        (items_text itp level false d'))))
  end.

(** Whatever [o] raises is an instance of [Exception]. *)
Definition raises_Exception_only (A : Type) (o : outcome A) : Prop :=
  forall e, o = Raise e -> is_Exception e = true.

(* Closes [raises_Exception_only] of a value and of a raised exception
   that is given. *)
Ltac raised :=
  intros ? ?; try discriminate;
  match goal with
  | H : Raise _ = Raise _ |- _ => injection H as <-; reflexivity
  end.

(* Splits on the condition or the scrutinee at the head of the outcome. *)
Ltac split_match :=
  match goal with
  | |- raises_Exception_only (if ?b then _ else _) => destruct b
  | |- raises_Exception_only (match ?x with _ => _ end) => destruct x
  end.

(** A scanner that returns has read at least one character. *)
Definition consumes (A : Type) (scan : pystr -> outcome (A * pystr)) : Prop :=
  forall s a r, scan s = Return (a, r) -> List.length r < List.length s.

(** ** Nested values and the text written for them *)

(** The elements of a list as [_iterencode_list] yields them, and the
    members of a [dict] as [_iterencode_dict] does. *)
Fixpoint elements_text (itp : interpreter) (level : nat) (buf : pystr) (l : list value)
  : chunks :=
  match l with
  | [] => and_then (yield (newline_indent level)) (yield [ch "]"])
  | v :: l' =>
      and_then
        match encode_scalar itp v with
        | Some r => yield_outcome buf r
        | None => and_then (yield buf) (iterencode itp (S level) v)
        end
        (elements_text itp level (ch "," :: newline_indent (S level)) l')
  end.

Fixpoint members_text (itp : interpreter) (level : nat) (first : bool)
    (d : list (pystr * value)) : chunks :=
  match d with
  | [] => and_then (yield (newline_indent level)) (yield [ch "}"])
  | (key, v) :: d' =>
      and_then (if first then yield [] else yield (ch "," :: newline_indent (S level)))
     (and_then (yield (encode_basestring_ascii key))
     (and_then (yield (py ": "))
     (and_then
        match encode_scalar itp v with
        | Some r => yield_outcome [] r
        | None => iterencode itp (S level) v
        end
        (members_text itp level false d'))))
  end.

(** A value that the file keeps as it is, with at most [depth] containers
    inside one another: [None], [bool], [int], texts, lists of such
    values, and [dict]s of such values under distinct text keys. *)
Inductive storable : nat -> value -> Prop :=
| storable_none depth : storable depth PyNone
| storable_bool depth b : storable depth (PyBool b)
| storable_int depth z : storable depth (PyInt z)
| storable_str depth s : text s -> storable depth (PyStr s)
| storable_list depth l :
    Forall (storable depth) l -> storable (S depth) (PyList l)
| storable_dict depth d :
    NoDup (map fst d) ->
    Forall (fun kv => text (fst kv) /\ storable depth (snd kv)) d ->
    storable (S depth) (PyDict d).

(** What the decoder reads back from the text of [v] written at [level],
    whatever follows it. *)
Definition read_back (itp : interpreter) (v : value) : Prop :=
  forall level depth written tail,
    storable depth v ->
    iterencode itp level v = (written, None) ->
    (plain v -> terminated tail) ->
    scan_once itp depth (written ++ tail) = Return (v, tail).

(** The first character of what was written for a value opens it: it is
    no whitespace and closes no list. *)
Definition opens (c : codepoint) : Prop :=
  is_whitespace c = false /\ N.eqb c (ch "]") = false.

(** A [str] of ASCII characters. *)
Definition ascii_only (s : pystr) : Prop := Forall (fun c => (c < 128)%N) s.

(** ** Checking a predicate on every number below a bound *)

Lemma all_below_spec P n : all_below P n = true -> forall k, (k < n)%N -> P k = true.
Proof.
  unfold all_below.
  assert (forall m, fst (N.iter m (fun st => (N.succ (fst st), snd st && P (fst st)))
                           (0%N, true)) = m) as Hfst.
  { intros m. induction m using N.peano_ind; [reflexivity|].
    rewrite N.iter_succ. cbn [fst]. rewrite IHm. reflexivity. }
  induction n using N.peano_ind; intros H k Hk; [lia|].
  rewrite N.iter_succ in H. cbn [snd] in H. rewrite Hfst in H.
  apply andb_true_iff in H. destruct H as [H1 H2].
  destruct (N.eq_dec k n) as [->|Hne]; [exact H2|].
  apply IHn; [exact H1 | lia].
Qed.

(** ** Escapes *)

Lemma u_escape_reads_back n :
  (n < 65536)%N ->
  exists a b c d,
    u_escape n = [backslash; ch "u"; a; b; c; d] /\ hex4 a b c d = Some n.
Proof.
  intros Hn.
  assert (reads_back n = true) as H.
  { apply (@all_below_spec reads_back 65536); [vm_compute; reflexivity | exact Hn]. }
  unfold reads_back in H. unfold u_escape in *.
  match goal with |- context [[backslash; ch "u"; ?a; ?b; ?c; ?d]] =>
    exists a, b, c, d; split; [reflexivity|];
    destruct (hex4 a b c d) as [m|]; [|discriminate];
    apply N.eqb_eq in H; congruence end.
Qed.

Lemma land_1023_below n : (N.land n 1023 < 1024)%N.
Proof.
  change 1023%N with (N.ones 10). rewrite N.land_ones.
  apply N.mod_lt. discriminate.
Qed.

Lemma halves_join n :
  (n < 1048576)%N ->
  N.lor (N.shiftl (N.land (N.shiftr n 10) 1023) 10) (N.land n 1023) = n.
Proof.
  intros Hn. apply N.bits_inj. intros i.
  rewrite N.lor_spec, !N.land_spec.
  change 1023%N with (N.ones 10).
  destruct (N.ltb_spec i 10) as [Hi|Hi].
  - rewrite N.shiftl_spec_low by exact Hi.
    rewrite N.ones_spec_low by exact Hi. rewrite andb_true_r. reflexivity.
  - rewrite N.shiftl_spec_high' by exact Hi.
    rewrite N.land_spec, N.shiftr_spec'.
    replace (i - 10 + 10)%N with i by lia.
    rewrite (N.ones_spec_high 10 i) by exact Hi. rewrite andb_false_r, orb_false_r.
    destruct (N.ltb_spec (i - 10) 10) as [Hj|Hj].
    + rewrite N.ones_spec_low by exact Hj. apply andb_true_r.
    + rewrite N.ones_spec_high by exact Hj. rewrite andb_false_r.
      symmetry. destruct (N.eq_dec n 0) as [->|Hn0]; [apply N.bits_0|].
      apply N.bits_above_log2.
      apply N.log2_lt_pow2; [lia|].
      apply N.lt_le_trans with (2 ^ 20)%N; [exact Hn|].
      apply N.pow_le_mono_r; lia.
Qed.

Lemma surrogate_pair_reads_back c :
  (65536 <= c < 1114112)%N ->
  let n := (c - 65536)%N in
  is_high_surrogate (high_half n) = true /\
  is_low_surrogate (low_half n) = true /\
  join_surrogates (high_half n) (low_half n) = c.
Proof.
  intros Hc n.
  assert (n < 1048576)%N as Hn by (unfold n; lia).
  pose proof (land_1023_below (N.shiftr n 10)) as Hh.
  pose proof (land_1023_below n) as Hl.
  assert (high_half_ok (N.land (N.shiftr n 10) 1023) = true) as H1.
  { apply (@all_below_spec high_half_ok 1024); [vm_compute; reflexivity | exact Hh]. }
  assert (low_half_ok (N.land n 1023) = true) as H2.
  { apply (@all_below_spec low_half_ok 1024); [vm_compute; reflexivity | exact Hl]. }
  unfold high_half_ok in H1. unfold low_half_ok in H2. cbv zeta in H1, H2.
  apply andb_true_iff in H1, H2. destruct H1 as [H1 H1']. destruct H2 as [H2 H2'].
  apply N.eqb_eq in H1', H2'.
  unfold high_half, low_half. repeat split; try assumption.
  unfold join_surrogates. rewrite H1', H2', halves_join by exact Hn.
  unfold n. lia.
Qed.

Lemma scanstring_u_escape n rest acc :
  (n < 65536)%N ->
  is_high_surrogate n = false ->
  rest <> [] ->
  scanstring (u_escape n ++ rest) acc = scanstring rest (n :: acc).
Proof.
  intros Hn Hhigh Hrest.
  destruct (u_escape_reads_back Hn) as (a & b & c & d & -> & Hhex).
  destruct rest as [|r rest]; [congruence|].
  cbn [app scanstring]. 
  change (N.eqb backslash dquote) with false.
  change (N.eqb backslash backslash) with true.
  change (N.eqb (ch "u") (ch "u")) with true. cbv iota.
  rewrite Hhex, Hhigh. reflexivity.
Qed.

Lemma scanstring_surrogate_pair c rest acc :
  (65536 <= c < 1114112)%N ->
  rest <> [] ->
  scanstring (u_escape (high_half (c - 65536)) ++ u_escape (low_half (c - 65536)) ++ rest) acc
  = scanstring rest (c :: acc).
Proof.
  intros Hc Hrest.
  destruct (surrogate_pair_reads_back Hc) as (Hhi & Hlo & Hjoin).
  set (hi := high_half (c - 65536)) in *. set (lo := low_half (c - 65536)) in *.
  assert (hi < 65536)%N as Hhi'.
  { unfold is_high_surrogate in Hhi. apply andb_true_iff in Hhi.
    destruct Hhi as [_ Hhi]. apply N.leb_le in Hhi. lia. }
  assert (lo < 65536)%N as Hlo'.
  { unfold is_low_surrogate in Hlo. apply andb_true_iff in Hlo.
    destruct Hlo as [_ Hlo]. apply N.leb_le in Hlo. lia. }
  destruct (u_escape_reads_back Hhi') as (a & b & c' & d & -> & Hhex).
  destruct (u_escape_reads_back Hlo') as (a2 & b2 & c2 & d2 & -> & Hhex2).
  destruct rest as [|r rest]; [congruence|].
  cbn [app scanstring].
  change (N.eqb backslash dquote) with false.
  change (N.eqb backslash backslash) with true.
  change (N.eqb (ch "u") (ch "u")) with true. cbv iota.
  rewrite Hhex, Hhi. cbn [andb]. rewrite Hhex2, Hlo, Hjoin. reflexivity.
Qed.

Lemma scanstring_escape_char c rest acc :
  scalar_value c ->
  rest <> [] ->
  scanstring (escape_char c ++ rest) acc = scanstring rest (c :: acc).
Proof.
  intros [Hns Hmax] Hrest. unfold escape_char.
  destruct (N.eqb_spec c backslash) as [->|H1]; [reflexivity|].
  destruct (N.eqb_spec c dquote) as [->|H2]; [reflexivity|].
  destruct (N.eqb_spec c 8) as [->|H3]; [reflexivity|].
  destruct (N.eqb_spec c 12) as [->|H4]; [reflexivity|].
  destruct (N.eqb_spec c 10) as [->|H5]; [reflexivity|].
  destruct (N.eqb_spec c 13) as [->|H6]; [reflexivity|].
  destruct (N.eqb_spec c 9) as [->|H7]; [reflexivity|].
  destruct (N.leb_spec 32 c) as [Hlo|Hlo]; cbn [andb].
  - destruct (N.leb_spec c 126) as [Hhi|Hhi].
    + cbn [app scanstring].
      destruct (N.eqb_spec c dquote); [contradiction|].
      destruct (N.eqb_spec c backslash); [contradiction|].
      destruct (N.leb_spec c 31); [lia|]. reflexivity.
    + destruct (N.ltb_spec c 65536) as [Hbmp|Hbmp].
      * apply scanstring_u_escape; [exact Hbmp | | exact Hrest].
        unfold is_high_surrogate. apply andb_false_iff.
        destruct Hns; [left; apply N.leb_gt | right; apply N.leb_gt]; lia.
      * cbv zeta. rewrite <- List.app_assoc.
        apply scanstring_surrogate_pair; [lia | exact Hrest].
  - destruct (N.ltb_spec c 65536) as [Hbmp|Hbmp]; [|lia].
    apply scanstring_u_escape; [exact Hbmp | | exact Hrest].
    unfold is_high_surrogate. apply andb_false_iff. left. apply N.leb_gt. lia.
Qed.

(** Reading an encoded text gives the text back and stops after the
    closing quote. *)
Lemma scanstring_encoded s : forall rest acc,
  text s ->
  scanstring (flat_map escape_char s ++ dquote :: rest) acc = Return (rev acc ++ s, rest).
Proof.
  induction s as [|c s IH]; intros rest acc Hs.
  - cbn [flat_map app scanstring]. change (N.eqb dquote dquote) with true.
    cbv iota. rewrite List.app_nil_r. reflexivity.
  - inversion Hs as [|c' s' Hc Hs']; subst.
    cbn [flat_map]. rewrite <- List.app_assoc.
    rewrite scanstring_escape_char; [|exact Hc|].
    + rewrite IH by exact Hs'. cbn [rev]. rewrite <- List.app_assoc. reflexivity.
    + destruct (flat_map escape_char s); discriminate.
Qed.

Lemma scan_once_string itp depth s rest :
  text s ->
  scan_once itp depth (encode_basestring_ascii s ++ rest) = Return (PyStr s, rest).
Proof.
  intros Hs. unfold encode_basestring_ascii.
  cbn [app]. rewrite <- List.app_assoc. cbn [app].
  destruct depth; cbn [scan_once]; change (N.eqb dquote dquote) with true; cbv iota;
    rewrite scanstring_encoded by exact Hs; reflexivity.
Qed.

(** ** Integers *)

Lemma digits_of_uint_digits u : forallb is_digit (digits_of_uint u) = true.
Proof. induction u; cbn [digits_of_uint forallb]; try rewrite IHu; reflexivity. Qed.

Lemma uint_of_digits_of_uint u : uint_of_digits (digits_of_uint u) = u.
Proof. induction u; cbn; try rewrite IHu; reflexivity. Qed.

Lemma span_digits_app ds c r :
  forallb is_digit ds = true ->
  is_digit c = false ->
  span_digits (ds ++ c :: r) = (ds, c :: r).
Proof.
  intros Hds Hc. induction ds as [|d ds IH].
  - cbn [app span_digits]. rewrite Hc. reflexivity.
  - cbn [forallb] in Hds. apply andb_true_iff in Hds. destruct Hds as [Hd Hds].
    cbn [app span_digits]. rewrite Hd, IH by exact Hds. reflexivity.
Qed.

Lemma unorm_numeral u : numeral (digits_of_uint (Decimal.unorm u)).
Proof.
  induction u; try (right; eexists _, _; cbn [Decimal.unorm Decimal.nzhead digits_of_uint];
                    split; [reflexivity|]; split; [lia | apply digits_of_uint_digits]).
  - left. reflexivity.
  - rewrite DecimalFacts.unorm_D0. exact IHu.
Qed.

Lemma to_uint_numeral n : numeral (digits_of_uint (N.to_uint n)).
Proof.
  rewrite <- (DecimalN.Unsigned.of_to n) at 1.
  rewrite DecimalN.Unsigned.to_of. apply unorm_numeral.
Qed.

(** The number scanner on a numeral followed by a terminator. *)
Lemma match_number_numeral itp (negative : bool) (digits rest : pystr) :
  numeral digits ->
  terminated rest ->
  match_number itp ((if negative then [ch "-"] else []) ++ digits ++ rest) =
    match int_of_numstr itp negative digits with
    | Return z => Return (PyInt z, rest)
    | Raise e => Raise e
    end.
Proof.
  intros Hnum (c & r & -> & Hc).
  assert (is_digit c = false /\ N.eqb c (ch ".") = false /\
          N.eqb c (ch "e") = false /\ N.eqb c (ch "E") = false) as (Hc1 & Hc2 & Hc3 & Hc4).
  { destruct Hc as [-> | ->]; repeat split; reflexivity. }
  assert (match_fraction (c :: r) = ([], c :: r)) as Hfrac.
  { unfold match_fraction. destruct r; rewrite ?Hc2; reflexivity. }
  assert (match_exponent (c :: r) = ([], c :: r)) as Hexp.
  { unfold match_exponent. destruct r; rewrite ?Hc3, ?Hc4; reflexivity. }
  assert (match_integer (digits ++ c :: r) = Some (digits, c :: r)) as Hint.
  { unfold match_integer. destruct Hnum as [-> | (d & ds & -> & Hd & Hds)].
    - reflexivity.
    - cbn [app].
      replace (N.leb 49 d && N.leb d 57) with true
        by (symmetry; apply andb_true_iff; split; apply N.leb_le; lia).
      rewrite (@span_digits_app ds c r Hds Hc1). reflexivity. }
  unfold match_number.
  assert (exists d ds, digits = d :: ds /\ N.eqb d (ch "-") = false) as (d & ds & Hdigits & Hminus).
  { destruct Hnum as [-> | (d & ds & -> & Hd & Hds)].
    - eexists _, _. split; reflexivity.
    - exists d, ds. split; [reflexivity|]. apply N.eqb_neq. change (ch "-") with 45%N. lia. }
  destruct negative; cbn [app].
  - change (N.eqb (ch "-") (ch "-")) with true. cbv iota.
    rewrite Hint, Hfrac, Hexp. reflexivity.
  - rewrite Hdigits. cbn [app]. rewrite Hminus. rewrite <- Hdigits.
    change (d :: ds ++ c :: r) with ((d :: ds) ++ c :: r). rewrite <- Hdigits.
    rewrite Hint, Hfrac, Hexp. reflexivity.
Qed.

(** [scan_once] hands a numeral to the number scanner. *)
Lemma scan_once_numeral itp depth (negative : bool) (digits rest : pystr) :
  numeral digits ->
  scan_once itp depth ((if negative then [ch "-"] else []) ++ digits ++ rest) =
    match_number itp ((if negative then [ch "-"] else []) ++ digits ++ rest).
Proof.
  intros Hnum.
  assert (exists d ds, digits = d :: ds /\ (48 <= d <= 57)%N) as (d & ds & -> & Hd).
  { destruct Hnum as [-> | (d & ds & -> & Hd & Hds)].
    - eexists _, _. split; [reflexivity | lia].
    - exists d, ds. split; [reflexivity | lia]. }
  assert (forall k, (k < 48 \/ 57 < k)%N -> N.eqb d k = false) as Hne.
  { intros k Hk. apply N.eqb_neq. lia. }
  destruct negative; destruct depth; cbn [app scan_once strip_prefix py map list_ascii_of_string].
  all: change (N_of_ascii "n") with 110%N; change (N_of_ascii "t") with 116%N;
       change (N_of_ascii "f") with 102%N; change (N_of_ascii "N") with 78%N;
       change (N_of_ascii "I") with 73%N; change (N_of_ascii "-") with 45%N;
       change (ch "{") with 123%N; change (ch "[") with 91%N;
       change dquote with 34%N; change (ch "-") with 45%N.
  all: try (change (N.eqb 45 34) with false; change (N.eqb 45 123) with false;
            change (N.eqb 45 91) with false; change (N.eqb 45 110) with false;
            change (N.eqb 45 116) with false; change (N.eqb 45 102) with false;
            change (N.eqb 45 78) with false; change (N.eqb 45 73) with false;
            change (N.eqb 45 45) with true; cbv iota).
  all: rewrite ?(Hne 34%N), ?(Hne 123%N), ?(Hne 91%N), ?(Hne 110%N), ?(Hne 116%N),
         ?(Hne 102%N), ?(Hne 78%N), ?(Hne 73%N), ?(Hne 45%N) by lia.
  all: reflexivity.
Qed.

(** An integer that [json.dump] wrote is read back as itself. *)
Lemma scan_once_int itp depth z t rest :
  intstr itp z = Return t ->
  terminated rest ->
  scan_once itp depth (t ++ rest) = Return (PyInt z, rest).
Proof.
  unfold intstr. intros H Hrest.
  destruct (exceeds_limit itp (List.length (digits_of_uint (N.to_uint (Z.abs_N z)))))
    eqn:Hlimit; [discriminate|].
  injection H as <-. rewrite <- List.app_assoc.
  pose proof (to_uint_numeral (Z.abs_N z)) as Hnum.
  change [45%N] with [ch "-"].
  rewrite (scan_once_numeral itp depth (Z.ltb z 0) rest Hnum).
  rewrite (match_number_numeral itp (Z.ltb z 0) Hnum Hrest).
  unfold int_of_numstr. rewrite Hlimit, uint_of_digits_of_uint, DecimalN.Unsigned.of_to.
  do 3 f_equal. destruct (Z.ltb_spec z 0); lia.
Qed.

(** ** Flat objects *)

Lemma items_text_nil itp level first :
  items_text itp level first [] = (newline_indent level ++ [ch "}"], None).
Proof. reflexivity. Qed.

Lemma plain_encode_scalar itp v : plain v -> exists r, encode_scalar itp v = Some r.
Proof. intros [| [] | |]; eexists; reflexivity. Qed.

Lemma iterencode_flat itp level p d :
  flat (p :: d) ->
  iterencode itp level (PyDict (p :: d)) =
    and_then (yield [ch "{"])
      (and_then (yield (newline_indent (S level))) (items_text itp level true (p :: d))).
Proof.
  intros H. cbn [iterencode]. do 2 f_equal.
  match goal with |- context [?F false d] =>
    assert (forall l first, flat l -> F first l = items_text itp level first l) as Hitems
  end.
  { induction l as [|[k v] l IH]; intros first Hl; [reflexivity|].
    inversion Hl as [|kv l' [_ Hv] Hl']; subst. cbn [snd] in Hv.
    destruct (plain_encode_scalar itp Hv) as [r Hr].
    cbn [items_text]. rewrite Hr. do 4 f_equal. apply IH. exact Hl'. }
  destruct p as [k v]. inversion H as [|kv l' [_ Hv] Hd]; subst. cbn [snd] in Hv.
  destruct (plain_encode_scalar itp Hv) as [r Hr].
  cbn [items_text]. rewrite Hr. do 4 f_equal. apply Hitems. exact Hd.
Qed.

Lemma and_then_yield s b : and_then (yield s) b = (s ++ fst b, snd b).
Proof. reflexivity. Qed.

(** When no chunk raised, the text of the members is the concatenation
    of their parts. *)
Lemma items_text_cons itp level first k v d text_ :
  items_text itp level first ((k, v) :: d) = (text_, None) ->
  plain v ->
  exists vt rest_text,
    encode_scalar itp v = Some (Return vt) /\
    items_text itp level false d = (rest_text, None) /\
    text_ = (if first then [] else ch "," :: newline_indent (S level)) ++
            encode_basestring_ascii k ++ py ": " ++ vt ++ rest_text.
Proof.
  intros H Hv. destruct (plain_encode_scalar itp Hv) as [r Hr].
  cbn [items_text] in H. rewrite Hr in H.
  destruct (items_text itp level false d) as [rest_text stopped] eqn:Hrest.
  destruct r as [vt|e].
  - exists vt, rest_text.
    destruct first; cbn in H; injection H as <- ->;
      (split; [exact Hr|]); split; reflexivity.
  - destruct first; cbn in H; discriminate.
Qed.

Lemma skip_whitespace_newline_indent level rest :
  skip_whitespace (newline_indent level ++ rest) = skip_whitespace rest.
Proof.
  unfold newline_indent. cbn [app skip_whitespace].
  change (is_whitespace 10%N) with true. cbv iota.
  induction (2 * level) as [|n IH]; [reflexivity|].
  cbn [repeat app skip_whitespace]. change (is_whitespace 32%N) with true. exact IH.
Qed.

Lemma skip_whitespace_key k rest :
  skip_whitespace (encode_basestring_ascii k ++ rest) = encode_basestring_ascii k ++ rest.
Proof. reflexivity. Qed.

Lemma numeral_head digits :
  numeral digits -> exists d ds, digits = d :: ds /\ is_whitespace d = false.
Proof.
  intros [-> | (d & ds & -> & Hd & _)].
  - eexists _, _. split; reflexivity.
  - exists d, ds. split; [reflexivity|].
    unfold is_whitespace.
    repeat (apply orb_false_iff; split); apply N.eqb_neq; lia.
Qed.

Lemma skip_whitespace_plain itp v vt rest :
  plain v ->
  encode_scalar itp v = Some (Return vt) ->
  skip_whitespace (vt ++ rest) = vt ++ rest.
Proof.
  intros Hv H. destruct Hv as [| [] | z | s Hs]; cbn [encode_scalar] in H;
    try (injection H as <-; reflexivity).
  unfold intstr in H.
  destruct (exceeds_limit itp _); [discriminate|]. injection H as <-.
  destruct (numeral_head (to_uint_numeral (Z.abs_N z))) as (d & ds & -> & Hd).
  destruct (Z.ltb z 0); cbn [app skip_whitespace]; [reflexivity|].
  rewrite Hd. reflexivity.
Qed.

(** A plain value that [json.dump] wrote is read back as itself. *)
Lemma scan_once_plain itp depth v vt rest :
  plain v ->
  encode_scalar itp v = Some (Return vt) ->
  terminated rest ->
  scan_once itp depth (vt ++ rest) = Return (v, rest).
Proof.
  intros Hv H Hrest. destruct Hv as [| [] | z | s Hs]; cbn [encode_scalar] in H.
  - injection H as <-. destruct depth; reflexivity.
  - injection H as <-. destruct depth; reflexivity.
  - injection H as <-. destruct depth; reflexivity.
  - injection H as H. apply scan_once_int; assumption.
  - injection H as <-. apply scan_once_string. exact Hs.
Qed.

Lemma pystr_eqb_eq a b : pystr_eqb a b = true <-> a = b.
Proof.
  unfold pystr_eqb. destruct (list_eq_dec N.eq_dec a b); split; congruence.
Qed.

Lemma dict_set_fresh k v d :
  ~ In k (map fst d) -> dict_set k v d = d ++ [(k, v)].
Proof.
  induction d as [|[k' v'] d IH]; intros H; [reflexivity|].
  cbn [dict_set map fst In] in *.
  destruct (pystr_eqb k' k) eqn:E.
  - apply pystr_eqb_eq in E. tauto.
  - rewrite IH by tauto. reflexivity.
Qed.

Lemma items_text_terminated itp level d text_ tail :
  items_text itp level false d = (text_, None) ->
  flat d ->
  terminated (text_ ++ tail).
Proof.
  intros H Hd. destruct d as [|[k v] d].
  - rewrite items_text_nil in H. apply pair_equal_spec in H. destruct H as [<- _].
    eexists _, _. split; [reflexivity|]. right. reflexivity.
  - inversion Hd as [|kv d' [_ Hv] Hd']; subst.
    destruct (@items_text_cons itp level _ _ _ _ _ H Hv) as (vt & rest_text & _ & _ & ->).
    eexists _, _. split; [reflexivity|]. left. reflexivity.
Qed.

(** The loop of the decoder over the members the encoder wrote. *)
Lemma object_loop_items itp depth level d : forall acc n text_ tail,
  items_text itp level true d = (text_, None) ->
  d <> [] ->
  flat d ->
  NoDup (map fst (acc ++ d)) ->
  List.length d <= n ->
  object_loop (scan_once itp depth) n (text_ ++ tail) acc = Return (PyDict (acc ++ d), tail).
Proof.
  induction d as [|[k v] d IH]; intros acc n text_ tail Htext Hne Hflat Hdup Hn;
    [congruence|].
  inversion Hflat as [|kv d' [Hk Hv] Hd]; subst. cbn [fst snd] in Hk, Hv.
  destruct (@items_text_cons itp level _ _ _ _ _ Htext Hv) as (vt & rest_text & Hvt & Hrest & ->).
  destruct n as [|n]; [cbn in Hn; lia|].
  assert (~ In k (map fst acc)) as Hfresh.
  { rewrite map_app in Hdup. cbn [map fst] in Hdup.
    apply NoDup_remove_2 in Hdup. intros Hin. apply Hdup.
    apply in_or_app. left. exact Hin. }
  cbn [app]. unfold encode_basestring_ascii at 1.
  rewrite <- !List.app_assoc. cbn [app object_loop].
  change (negb (N.eqb dquote dquote)) with false. cbv iota.
  rewrite <- List.app_assoc. cbn [app].
  rewrite (@scanstring_encoded k _ _ Hk). cbn [rev app py map list_ascii_of_string skip_whitespace].
  change (is_whitespace (N_of_ascii ":")) with false. cbv iota.
  change (negb (N.eqb (N_of_ascii ":") (ch ":"))) with false. cbv iota.
  cbn [skip_whitespace]. change (is_whitespace (N_of_ascii " ")) with true. cbv iota.
  rewrite (@skip_whitespace_plain itp v vt _ Hv Hvt).
  rewrite (@scan_once_plain itp depth v vt _ Hv Hvt
             (@items_text_terminated itp level d rest_text tail Hrest Hd)).
  rewrite (@dict_set_fresh k v acc Hfresh).
  destruct d as [|[k2 v2] d].
  - rewrite items_text_nil in Hrest. apply pair_equal_spec in Hrest.
    destruct Hrest as [<- _].
    rewrite <- List.app_assoc, skip_whitespace_newline_indent.
    cbn [app skip_whitespace]. change (is_whitespace (ch "}")) with false. cbv iota.
    change (N.eqb (ch "}") (ch "}")) with true. cbv iota. reflexivity.
  - inversion Hd as [|kv d' [Hk2 Hv2] Hd2]; subst.
    destruct (@items_text_cons itp level _ _ _ _ _ Hrest Hv2) as (vt2 & rest2 & Hvt2 & Hrest2 & ->).
    cbn [app skip_whitespace]. change (is_whitespace (ch ",")) with false. cbv iota.
    change (N.eqb (ch ",") (ch "}")) with false. cbv iota.
    change (N.eqb (ch ",") (ch ",")) with true. cbv iota.
    rewrite <- List.app_assoc, skip_whitespace_newline_indent.
    rewrite <- !List.app_assoc.
    assert (items_text itp level true ((k2, v2) :: d) =
              (encode_basestring_ascii k2 ++ py ": " ++ vt2 ++ rest2, None)) as Htrue.
    { cbn [items_text]. rewrite Hvt2, Hrest2. reflexivity. }
    rewrite skip_whitespace_key.
    replace (encode_basestring_ascii k2 ++ py ": " ++ vt2 ++ rest2 ++ tail)
      with ((encode_basestring_ascii k2 ++ py ": " ++ vt2 ++ rest2) ++ tail)
      by (rewrite <- !List.app_assoc; reflexivity).
    rewrite (IH (acc ++ [(k, v)]) n _ tail Htrue); try assumption.
    + rewrite <- List.app_assoc. reflexivity.
    + discriminate.
    + rewrite <- List.app_assoc. exact Hdup.
    + cbn [List.length] in Hn |- *. lia.
Qed.

Lemma items_text_length itp level d : forall first text_,
  items_text itp level first d = (text_, None) ->
  flat d ->
  List.length d <= List.length text_.
Proof.
  induction d as [|[k v] d IH]; intros first text_ H Hd; [cbn; lia|].
  inversion Hd as [|kv d' [_ Hv] Hd']; subst. cbn [snd] in Hv.
  destruct (@items_text_cons itp level _ _ _ _ _ H Hv) as (vt & rest_text & _ & Hrest & ->).
  specialize (IH _ _ Hrest Hd').
  unfold encode_basestring_ascii. rewrite !length_app. cbn [List.length]. lia.
Qed.

(** What [json.dump] wrote for a flat [dict] is read back by [json.loads]
    as that [dict]. *)
Lemma loads_dumped_flat_dict itp d written :
  flat d ->
  NoDup (map fst d) ->
  1 <= recursion_limit itp ->
  iterencode itp 0 (PyDict d) = (written, None) ->
  loads itp written = Return (PyDict d).
Proof.
  intros Hflat Hdup Hdepth Hwritten. unfold loads.
  destruct (recursion_limit itp) as [|depth]; [lia|].
  destruct d as [|p d].
  - cbn in Hwritten. injection Hwritten as <-. reflexivity.
  - rewrite (iterencode_flat itp 0 Hflat), !and_then_yield in Hwritten.
    destruct (items_text itp 0 true (p :: d)) as [members stopped] eqn:Hmembers.
    cbn [fst snd] in Hwritten. apply pair_equal_spec in Hwritten.
    destruct Hwritten as [<- ->].
    destruct p as [k v].
    inversion Hflat as [|kv d' [_ Hv] _]; subst. cbn [snd] in Hv.
    destruct (@items_text_cons itp 0 _ _ _ _ _ Hmembers Hv)
      as (vt & rest_text & _ & _ & Hshape).
    cbn [app startswith skip_whitespace].
    change (N.eqb (ch "{") 65279) with false. cbn [andb].
    change (is_whitespace (ch "{")) with false. cbv iota.
    cbn [scan_once]. change (N.eqb (ch "{") dquote) with false.
    change (N.eqb (ch "{") (ch "{")) with true. cbv iota.
    unfold parse_object. rewrite skip_whitespace_newline_indent.
    pose proof (@items_text_length itp 0 _ _ _ Hmembers Hflat) as Hlen.
    pose proof (@object_loop_items itp depth 0 ((k, v) :: d) [] (List.length members)
                  members [] Hmembers) as Hloop.
    rewrite List.app_nil_r in Hloop.
    rewrite Hshape in *. cbn [app] in *. unfold encode_basestring_ascii in *.
    cbn [app skip_whitespace] in *. change (is_whitespace dquote) with false. cbv iota.
    change (N.eqb dquote (ch "}")) with false. cbv iota.
    rewrite Hloop; [reflexivity | discriminate | exact Hflat | exact Hdup | exact Hlen].
Qed.

(** ** The decoder raises instances of [Exception] only *)

Lemma raises_Exception_only_Raise (A B : Type) (e : exn) :
  raises_Exception_only (@Raise A e) -> raises_Exception_only (@Raise B e).
Proof. intros H e' He'. injection He' as <-. exact (H e eq_refl). Qed.

Lemma scanstring_raises n : forall s acc,
  List.length s <= n -> raises_Exception_only (scanstring s acc).
Proof.
  induction n as [|n IH]; intros s acc Hn.
  - destruct s; [|cbn in Hn; lia]. cbn. raised.
  - destruct s as [|c s]; [cbn; raised|].
    cbn [scanstring].
    repeat first
      [ apply IH; cbn [List.length] in *; lia
      | raised
      | split_match ].
Qed.

Lemma int_of_numstr_raises itp negative digits :
  raises_Exception_only (int_of_numstr itp negative digits).
Proof. unfold int_of_numstr. destruct (exceeds_limit itp _); raised. Qed.

Lemma match_number_raises itp s : raises_Exception_only (match_number itp s).
Proof.
  unfold match_number.
  destruct s as [|c s']; [|destruct (N.eqb c (ch "-"))].
  all: match goal with |- context [match_integer ?x] => destruct (match_integer x) as [[digits r0]|] end.
  all: try raised.
  all: destruct (match_fraction r0) as [frac r1]; destruct (match_exponent r1) as [exponent r2].
  all: destruct frac; destruct exponent; try raised.
  all: match goal with |- context [int_of_numstr ?i ?n ?d] =>
         pose proof (@int_of_numstr_raises i n d) as H;
         destruct (int_of_numstr i n d) as [z|e];
         [raised | exact (@raises_Exception_only_Raise _ _ _ H)] end.
Qed.

Section Loops.

Variable scan : pystr -> outcome (value * pystr).
Hypothesis scan_raises : forall s, raises_Exception_only (scan s).

Lemma array_loop_raises n : forall s acc, raises_Exception_only (array_loop scan n s acc).
Proof.
  induction n as [|n IH]; intros s acc; cbn [array_loop]; [raised|].
  pose proof (@scan_raises s) as Hs. destruct (scan s) as [[v s1]|e].
  - repeat first [ apply IH | raised | split_match ].
  - intros e' He'. apply Hs. exact He'.
Qed.

Lemma object_loop_raises n : forall s acc, raises_Exception_only (object_loop scan n s acc).
Proof.
  induction n as [|n IH]; intros s acc; cbn [object_loop]; [raised|].
  destruct s as [|q s1]; [raised|].
  destruct (negb (N.eqb q dquote)); [raised|].
  pose proof (@scanstring_raises (List.length s1) s1 [] (le_n _)) as Hkey.
  destruct (scanstring s1 []) as [[key s2]|e];
    [|exact (@raises_Exception_only_Raise _ _ _ Hkey)].
  destruct (skip_whitespace s2) as [|c s3]; [raised|].
  destruct (negb (N.eqb c (ch ":"))); [raised|].
  pose proof (@scan_raises (skip_whitespace s3)) as Hval.
  destruct (scan (skip_whitespace s3)) as [[val s4]|e]; [|exact Hval].
  repeat first [ apply IH | raised | split_match ].
Qed.

End Loops.

Lemma scan_once_raises itp depth : forall s, raises_Exception_only (scan_once itp depth s).
Proof.
  induction depth as [|depth IH]; intros s; destruct s as [|c s1]; cbn [scan_once];
    try raised.
  all: destruct (N.eqb c dquote);
    [ pose proof (@scanstring_raises (List.length s1) s1 [] (le_n _)) as Hs;
      destruct (scanstring s1 []) as [[str r]|e];
      [raised | exact (@raises_Exception_only_Raise _ _ _ Hs)] |].
  all: destruct (N.eqb c (ch "{")).
  all: try raised.
  all: try (unfold parse_object;
            repeat first [ apply object_loop_raises; exact IH | raised | split_match ]).
  all: destruct (N.eqb c (ch "[")).
  all: try raised.
  all: try (unfold parse_array;
            repeat first [ apply array_loop_raises; exact IH | raised | split_match ]).
  all: repeat first [ apply match_number_raises | raised | split_match ].
Qed.

Lemma loads_raises itp s : raises_Exception_only (loads itp s).
Proof.
  unfold loads. destruct (startswith s [65279%N]); [raised|].
  pose proof (@scan_once_raises itp (recursion_limit itp) (skip_whitespace s)) as H.
  destruct (scan_once itp (recursion_limit itp) (skip_whitespace s)) as [[obj r]|e];
    [|exact (@raises_Exception_only_Raise _ _ _ H)].
  destruct (skip_whitespace r); raised.
Qed.

(** ** The bound on the loops of the decoder never binds *)

Lemma skip_whitespace_length s : List.length (skip_whitespace s) <= List.length s.
Proof.
  induction s as [|c s IH]; [reflexivity|].
  cbn [skip_whitespace]. destruct (is_whitespace c); cbn [List.length]; lia.
Qed.

Lemma span_digits_length s : List.length (snd (span_digits s)) <= List.length s.
Proof.
  induction s as [|c s IH]; [reflexivity|].
  cbn [span_digits]. destruct (is_digit c); [|reflexivity].
  destruct (span_digits s) as [ds r]. cbn [snd List.length] in *. lia.
Qed.

Lemma strip_prefix_length prefix : forall s r,
  strip_prefix prefix s = Some r -> List.length r + List.length prefix = List.length s.
Proof.
  induction prefix as [|p prefix IH]; intros s r H.
  - cbn in H. injection H as <-. cbn. lia.
  - destruct s as [|c s]; [discriminate|]. cbn [strip_prefix] in H.
    destruct (N.eqb c p); [|discriminate]. apply IH in H. cbn [List.length]. lia.
Qed.

Lemma scanstring_consumes n : forall s acc str r,
  List.length s <= n ->
  scanstring s acc = Return (str, r) -> List.length r < List.length s.
Proof.
  induction n as [|n IH]; intros s acc str r Hn H.
  - destruct s; [discriminate | cbn in Hn; lia].
  - destruct s as [|c s]; [discriminate|].
    cbn [scanstring] in H.
    repeat match type of H with
    | Raise _ = Return _ => discriminate H
    | Return _ = Return _ => injection H as <- <-; cbn [List.length]; lia
    | scanstring ?s' _ = _ =>
        apply IH in H; cbn [List.length] in *; lia
    | (if ?b then _ else _) = _ => destruct b
    | match ?x with _ => _ end = _ => destruct x
    end.
Qed.

Lemma match_integer_consumes s digits r :
  match_integer s = Some (digits, r) -> List.length r < List.length s.
Proof.
  unfold match_integer. destruct s as [|c s]; [discriminate|].
  destruct (N.leb 49 c && N.leb c 57).
  - pose proof (span_digits_length s) as H. destruct (span_digits s) as [ds r'].
    intros E. injection E as <- <-. cbn [snd List.length] in *. lia.
  - destruct (N.eqb c 48); [|discriminate].
    intros E. injection E as <- <-. cbn [List.length]. lia.
Qed.

Lemma match_fraction_length s : List.length (snd (match_fraction s)) <= List.length s.
Proof.
  unfold match_fraction. destruct s as [|p [|d r]]; try reflexivity.
  destruct (N.eqb p (ch ".") && is_digit d); [|reflexivity].
  pose proof (span_digits_length r) as H. destruct (span_digits r) as [ds r'].
  cbn [snd List.length] in *. lia.
Qed.

Lemma match_exponent_length s : List.length (snd (match_exponent s)) <= List.length s.
Proof.
  unfold match_exponent. destruct s as [|e [|g r]]; try reflexivity.
  destruct (N.eqb e (ch "e") || N.eqb e (ch "E")); [|reflexivity].
  destruct r as [|h r]; [|destruct (N.eqb g (ch "-") || N.eqb g (ch "+"))].
  all: match goal with |- context [span_digits ?x] =>
         pose proof (span_digits_length x) as H; destruct (span_digits x) as [ds r']
       end.
  all: destruct ds; cbn [snd List.length] in *; lia.
Qed.

Lemma match_number_consumes itp : consumes (match_number itp).
Proof.
  intros s v r. unfold match_number.
  assert (forall s1, List.length s1 <= List.length s ->
    match match_integer s1 with
    | Some (digits, r0) =>
        let (frac, r1) := match_fraction r0 in
        let (exponent, r2) := match_exponent r1 in
        List.length r2 < List.length s
    | None => True
    end) as Hlen.
  { intros s1 Hs1. destruct (match_integer s1) as [[digits r0]|] eqn:E; [|exact I].
    apply match_integer_consumes in E.
    pose proof (match_fraction_length r0) as Hf.
    destruct (match_fraction r0) as [frac r1].
    pose proof (match_exponent_length r1) as He.
    destruct (match_exponent r1) as [exponent r2]. cbn [snd] in *. lia. }
  destruct s as [|c s']; [discriminate|].
  destruct (N.eqb c (ch "-")).
  all: match goal with |- context [match_integer ?x] =>
         specialize (Hlen x); destruct (match_integer x) as [[digits r0]|] end.
  all: try discriminate.
  all: destruct (match_fraction r0) as [frac r1]; destruct (match_exponent r1) as [exponent r2].
  all: assert (List.length r2 < List.length (c :: s')) as Hr2
         by (apply Hlen; cbn [List.length]; lia).
  all: destruct frac; destruct exponent;
       try (destruct (int_of_numstr itp _ digits)); try discriminate;
       intros E; injection E as _ <-; exact Hr2.
Qed.

Section LoopBounds.

Variable scan : pystr -> outcome (value * pystr).
Hypothesis scan_consumes : consumes scan.
Hypothesis scan_empty : scan [] = Raise (JSONDecodeError "Expecting value").

Lemma array_loop_consumes n : forall s acc v r,
  array_loop scan n s acc = Return (v, r) -> List.length r < List.length s.
Proof.
  induction n as [|n IH]; intros s acc v r H; [discriminate|].
  cbn [array_loop] in H.
  destruct (scan s) as [[v1 s1]|e] eqn:E; [|discriminate].
  apply scan_consumes in E.
  pose proof (skip_whitespace_length s1) as Hs1.
  destruct (skip_whitespace s1) as [|c s2]; [discriminate|].
  destruct (N.eqb c (ch "]")).
  - injection H as _ <-. cbn [List.length] in *. lia.
  - destruct (N.eqb c (ch ",")); [|discriminate].
    apply IH in H. pose proof (skip_whitespace_length s2). cbn [List.length] in *. lia.
Qed.

Lemma array_loop_bound n : forall m s acc,
  List.length s <= n -> List.length s <= m ->
  array_loop scan n s acc = array_loop scan m s acc.
Proof.
  induction n as [|n IH]; intros m s acc Hn Hm.
  - destruct s; [|cbn in Hn; lia].
    destruct m; [reflexivity|]. cbn [array_loop]. rewrite scan_empty. reflexivity.
  - destruct m as [|m].
    + destruct s; [|cbn in Hm; lia]. cbn [array_loop]. rewrite scan_empty. reflexivity.
    + cbn [array_loop].
      destruct (scan s) as [[v1 s1]|e] eqn:E; [|reflexivity].
      apply scan_consumes in E.
      pose proof (skip_whitespace_length s1) as Hs1.
      destruct (skip_whitespace s1) as [|c s2]; [reflexivity|].
      destruct (N.eqb c (ch "]")); [reflexivity|].
      destruct (N.eqb c (ch ",")); [|reflexivity].
      pose proof (skip_whitespace_length s2).
      apply IH; cbn [List.length] in *; lia.
Qed.

Lemma object_loop_consumes n : forall s acc v r,
  object_loop scan n s acc = Return (v, r) -> List.length r < List.length s.
Proof.
  induction n as [|n IH]; intros s acc v r H; [discriminate|].
  cbn [object_loop] in H.
  destruct s as [|q s1]; [discriminate|].
  destruct (negb (N.eqb q dquote)); [discriminate|].
  destruct (scanstring s1 []) as [[key s2]|e] eqn:Ekey; [|discriminate].
  apply (@scanstring_consumes (List.length s1)) in Ekey; [|reflexivity].
  pose proof (skip_whitespace_length s2) as Hs2.
  destruct (skip_whitespace s2) as [|c s3]; [discriminate|].
  destruct (negb (N.eqb c (ch ":"))); [discriminate|].
  pose proof (skip_whitespace_length s3) as Hs3.
  destruct (scan (skip_whitespace s3)) as [[val s4]|e] eqn:Eval; [|discriminate].
  apply scan_consumes in Eval.
  pose proof (skip_whitespace_length s4) as Hs4.
  destruct (skip_whitespace s4) as [|c' s5]; [discriminate|].
  destruct (N.eqb c' (ch "}")).
  - injection H as _ <-. cbn [List.length] in *. lia.
  - destruct (N.eqb c' (ch ",")); [|discriminate].
    apply IH in H. pose proof (skip_whitespace_length s5). cbn [List.length] in *. lia.
Qed.

Lemma object_loop_bound n : forall m s acc,
  List.length s <= n -> List.length s <= m ->
  object_loop scan n s acc = object_loop scan m s acc.
Proof.
  induction n as [|n IH]; intros m s acc Hn Hm.
  - destruct s; [|cbn in Hn; lia]. destruct m; reflexivity.
  - destruct m as [|m].
    + destruct s; [|cbn in Hm; lia]. reflexivity.
    + cbn [object_loop].
      destruct s as [|q s1]; [reflexivity|].
      destruct (negb (N.eqb q dquote)); [reflexivity|].
      destruct (scanstring s1 []) as [[key s2]|e] eqn:Ekey; [|reflexivity].
      apply (@scanstring_consumes (List.length s1)) in Ekey; [|reflexivity].
      pose proof (skip_whitespace_length s2) as Hs2.
      destruct (skip_whitespace s2) as [|c s3]; [reflexivity|].
      destruct (negb (N.eqb c (ch ":"))); [reflexivity|].
      pose proof (skip_whitespace_length s3) as Hs3.
      destruct (scan (skip_whitespace s3)) as [[val s4]|e] eqn:Eval; [|reflexivity].
      apply scan_consumes in Eval.
      pose proof (skip_whitespace_length s4) as Hs4.
      destruct (skip_whitespace s4) as [|c' s5]; [reflexivity|].
      destruct (N.eqb c' (ch "}")); [reflexivity|].
      destruct (N.eqb c' (ch ",")); [|reflexivity].
      pose proof (skip_whitespace_length s5).
      apply IH; cbn [List.length] in *; lia.
Qed.

End LoopBounds.

Lemma scan_once_empty itp depth :
  scan_once itp depth [] = Raise (JSONDecodeError "Expecting value").
Proof. destruct depth; reflexivity. Qed.

Lemma scan_once_consumes itp depth : consumes (scan_once itp depth).
Proof.
  induction depth as [|depth IH]; intros s v r H;
    (destruct s as [|c s1]; [rewrite scan_once_empty in H; discriminate|]);
    cbn [scan_once] in H.
  all: destruct (N.eqb c dquote);
    [ destruct (scanstring s1 []) as [[str r']|e] eqn:E; [|discriminate];
      apply (@scanstring_consumes (List.length s1)) in E; [|reflexivity];
      injection H as _ <-; cbn [List.length]; lia |].
  all: destruct (N.eqb c (ch "{")).
  all: try discriminate.
  all: try (unfold parse_object in H;
            pose proof (skip_whitespace_length s1) as Hs1;
            destruct (skip_whitespace s1) as [|c' s'] eqn:Es; [discriminate|];
            destruct (N.eqb c' (ch "}"));
            [ injection H as _ <-
            | apply (object_loop_consumes IH) in H ];
            cbn [List.length] in *; lia).
  all: destruct (N.eqb c (ch "[")).
  all: try discriminate.
  all: try (unfold parse_array in H;
            pose proof (skip_whitespace_length s1) as Hs1;
            destruct (skip_whitespace s1) as [|c' s'] eqn:Es; [discriminate|];
            destruct (N.eqb c' (ch "]"));
            [ injection H as _ <-
            | apply (array_loop_consumes IH) in H ];
            cbn [List.length] in *; lia).
  all: repeat match type of H with
       | match strip_prefix ?p ?x with _ => _ end = _ =>
           let E := fresh "E" in
           destruct (strip_prefix p x) as [r'|] eqn:E;
           [ apply strip_prefix_length in E; injection H as _ <-;
             cbn [List.length py map list_ascii_of_string] in E; cbn [List.length]; lia |]
       end.
  all: apply match_number_consumes in H; exact H.
Qed.

(** However large the bound, the loops behave as with the length of what
    is left to read: the bound is never what stops them. *)
Lemma array_loop_bound_irrelevant itp depth n s acc :
  List.length s <= n ->
  array_loop (scan_once itp depth) n s acc =
  array_loop (scan_once itp depth) (List.length s) s acc.
Proof.
  intros Hn. apply array_loop_bound;
    [apply scan_once_consumes | apply scan_once_empty | exact Hn | reflexivity].
Qed.

Lemma object_loop_bound_irrelevant itp depth n s acc :
  List.length s <= n ->
  object_loop (scan_once itp depth) n s acc =
  object_loop (scan_once itp depth) (List.length s) s acc.
Proof.
  intros Hn. apply object_loop_bound;
    [apply scan_once_consumes | exact Hn | reflexivity].
Qed.

(** ** A dump that was cut short *)

(** The members of a flat object, up to the value that cannot be written. *)
Lemma items_text_stopped itp level first k v d text_ e :
  items_text itp level first ((k, v) :: d) = (text_, Some e) ->
  plain v ->
  (encode_scalar itp v = Some (Raise e) /\
   text_ = (if first then [] else ch "," :: newline_indent (S level)) ++
           encode_basestring_ascii k ++ py ": ") \/
  (exists vt rest_text,
     encode_scalar itp v = Some (Return vt) /\
     items_text itp level false d = (rest_text, Some e) /\
     text_ = (if first then [] else ch "," :: newline_indent (S level)) ++
             encode_basestring_ascii k ++ py ": " ++ vt ++ rest_text).
Proof.
  intros H Hv. destruct (plain_encode_scalar itp Hv) as (r & Hr).
  cbn [items_text] in H. rewrite Hr in H.
  destruct r as [vt|ev].
  - right. destruct (items_text itp level false d) as [rest_text stopped] eqn:Hrest.
    exists vt, rest_text.
    destruct first; cbn in H; injection H as <- ->;
      (split; [exact Hr|]); split; reflexivity.
  - left. destruct first; cbn in H; injection H as <- <-;
      rewrite ?List.app_nil_r; (split; [exact Hr|]); reflexivity.
Qed.

(** What a stopped [json.dump] wrote of a flat object is not read as an
    object. *)
Lemma object_loop_cut_short itp depth level d : forall acc n text_ e,
  items_text itp level true d = (text_, Some e) ->
  flat d ->
  exists e', object_loop (scan_once itp depth) n text_ acc = Raise e'.
Proof.
  induction d as [|[k v] d IH]; intros acc n text_ e Htext Hflat.
  - rewrite items_text_nil in Htext. discriminate.
  - destruct n as [|n]; [eexists; reflexivity|].
    inversion Hflat as [|kv d' [Hk Hv] Hd]; subst. cbn [fst snd] in Hk, Hv.
    destruct (@items_text_stopped _ _ _ _ _ _ _ _ Htext Hv)
      as [(Hr & ->)|(vt & rest_text & Hvt & Hrest & ->)].
    + unfold encode_basestring_ascii at 1. cbn [app].
      rewrite <- !List.app_assoc. cbn [app object_loop].
      change (negb (N.eqb dquote dquote)) with false. cbv iota.
      rewrite (@scanstring_encoded k _ _ Hk).
      cbn [rev app py map list_ascii_of_string skip_whitespace].
      change (is_whitespace (N_of_ascii ":")) with false. cbv iota.
      change (negb (N.eqb (N_of_ascii ":") (ch ":"))) with false. cbv iota.
      cbn [skip_whitespace]. change (is_whitespace (N_of_ascii " ")) with true. cbv iota.
      cbn [skip_whitespace]. rewrite scan_once_empty. eexists; reflexivity.
    + destruct d as [|[k2 v2] d].
      { rewrite items_text_nil in Hrest. discriminate. }
      inversion Hd as [|kv d' [Hk2 Hv2] Hd2]; subst. cbn [fst snd] in Hk2, Hv2.
      assert (exists text2,
                items_text itp level true ((k2, v2) :: d) = (text2, Some e) /\
                rest_text = ch "," :: newline_indent (S level) ++ text2) as (text2 & Htrue & ->).
      { destruct (@items_text_stopped _ _ _ _ _ _ _ _ Hrest Hv2)
          as [(Hr2 & ->)|(vt2 & rest2 & Hvt2 & Hrest2 & ->)].
        - eexists. split; [|reflexivity].
          cbn [items_text]. rewrite Hr2. reflexivity.
        - eexists. split; [|reflexivity].
          cbn [items_text]. rewrite Hvt2, Hrest2. reflexivity. }
      unfold encode_basestring_ascii at 1. cbn [app].
      rewrite <- !List.app_assoc. cbn [app object_loop].
      change (negb (N.eqb dquote dquote)) with false. cbv iota.
      rewrite (@scanstring_encoded k _ _ Hk).
      cbn [rev app py map list_ascii_of_string skip_whitespace].
      change (is_whitespace (N_of_ascii ":")) with false. cbv iota.
      change (negb (N.eqb (N_of_ascii ":") (ch ":"))) with false. cbv iota.
      cbn [skip_whitespace]. change (is_whitespace (N_of_ascii " ")) with true. cbv iota.
      rewrite (@skip_whitespace_plain itp v vt _ Hv Hvt).
      rewrite (@scan_once_plain itp depth v vt _ Hv Hvt)
        by (eexists _, _; split; [reflexivity|left; reflexivity]).
      cbn [skip_whitespace]. change (is_whitespace (ch ",")) with false. cbv iota.
      change (N.eqb (ch ",") (ch "}")) with false. cbv iota.
      change (N.eqb (ch ",") (ch ",")) with true. cbv iota.
      rewrite skip_whitespace_newline_indent.
      assert (skip_whitespace text2 = text2) as ->.
      { destruct (@items_text_stopped _ _ _ _ _ _ _ _ Htrue Hv2)
          as [(_ & ->)|(vt2 & rest2 & _ & _ & ->)]; cbn [app];
          apply skip_whitespace_key. }
      apply (IH _ n text2 e Htrue Hd).
Qed.

Lemma loads_of_stopped_dump itp d written e :
  flat d ->
  iterencode itp 0 (PyDict d) = (written, Some e) ->
  exists e', loads itp written = Raise e' /\ is_Exception e' = true.
Proof.
  intros Hflat Hwritten.
  assert (exists e', loads itp written = Raise e') as (e' & He').
  { unfold loads.
    destruct d as [|p d]; [discriminate|].
    rewrite (iterencode_flat itp 0 Hflat), !and_then_yield in Hwritten.
    destruct (items_text itp 0 true (p :: d)) as [members stopped] eqn:Hmembers.
    cbn [fst snd] in Hwritten. apply pair_equal_spec in Hwritten.
    destruct Hwritten as [<- ->].
    destruct (recursion_limit itp) as [|depth].
    { cbn [app startswith skip_whitespace].
      change (N.eqb (ch "{") 65279) with false. cbn [andb].
      change (is_whitespace (ch "{")) with false. cbv iota.
      cbn [scan_once]. eexists. reflexivity. }
    destruct p as [k v].
    inversion Hflat as [|kv d' [_ Hv] _]; subst. cbn [snd] in Hv.
    cbn [app startswith skip_whitespace].
    change (N.eqb (ch "{") 65279) with false. cbn [andb].
    change (is_whitespace (ch "{")) with false. cbv iota.
    cbn [scan_once]. change (N.eqb (ch "{") dquote) with false.
    change (N.eqb (ch "{") (ch "{")) with true. cbv iota.
    unfold parse_object. rewrite skip_whitespace_newline_indent.
    destruct (@object_loop_cut_short itp depth 0 ((k, v) :: d) [] (List.length members)
                members e Hmembers Hflat) as (e' & Hloop).
    assert (exists rest, members = dquote :: rest) as (rest & Hshape).
    { destruct (@items_text_stopped _ _ _ _ _ _ _ _ Hmembers Hv)
        as [(_ & ->)|(vt & rest_text & _ & _ & ->)]; eexists; reflexivity. }
    rewrite Hshape in *. cbn [skip_whitespace].
    change (is_whitespace dquote) with false. cbv iota.
    change (N.eqb dquote (ch "}")) with false. cbv iota.
    rewrite Hloop. eexists. reflexivity. }
  exists e'. split; [exact He'|]. exact (@loads_raises itp written e' He').
Qed.

(** ** Lists, nested objects, and the characters of the file *)

Lemma iterencode_list itp level v l :
  iterencode itp level (PyList (v :: l)) =
    elements_text itp level (ch "[" :: newline_indent (S level)) (v :: l).
Proof.
  cbn [iterencode elements_text]. f_equal.
  match goal with |- ?F _ l = _ =>
    assert (forall l buf, F buf l = elements_text itp level buf l) as Hitems
  end.
  { induction l0 as [|v0 l0 IH]; intros buf; [reflexivity|].
    cbn [elements_text]. f_equal. apply IH. }
  apply Hitems.
Qed.

Lemma iterencode_dict itp level p d :
  iterencode itp level (PyDict (p :: d)) =
    and_then (yield [ch "{"])
      (and_then (yield (newline_indent (S level))) (members_text itp level true (p :: d))).
Proof.
  cbn [iterencode]. do 2 f_equal.
  match goal with |- context [?F false d] =>
    assert (forall l first, F first l = members_text itp level first l) as Hitems
  end.
  { induction l as [|[k v] l IH]; intros first; [reflexivity|].
    cbn [members_text]. do 4 f_equal. apply IH. }
  destruct p as [k v]. cbn [members_text]. do 4 f_equal. apply Hitems.
Qed.


(** Induction on a value and on the values it holds. *)
Lemma value_nested_ind (P : value -> Prop) :
  P PyNone ->
  (forall b, P (PyBool b)) ->
  (forall z, P (PyInt z)) ->
  (forall f, P (PyFloat f)) ->
  (forall s, P (PyStr s)) ->
  (forall l, Forall P l -> P (PyList l)) ->
  (forall d, Forall (fun kv => P (snd kv)) d -> P (PyDict d)) ->
  forall v, P v.
Proof.
  intros HNone HBool HInt HFloat HStr HList HDict.
  fix IH 1. intros [ |b|z|f|s|l|d].
  - exact HNone.
  - apply HBool.
  - apply HInt.
  - apply HFloat.
  - apply HStr.
  - apply HList. induction l as [|v l IHl]; constructor; [apply IH|exact IHl].
  - apply HDict. induction d as [|[k v] d IHd]; constructor; [apply IH|exact IHd].
Qed.

Lemma ascii_only_app a b : ascii_only a -> ascii_only b -> ascii_only (a ++ b).
Proof. intros Ha Hb. apply Forall_app. split; assumption. Qed.

Lemma ascii_only_checked s : forallb (fun c => N.ltb c 128) s = true -> ascii_only s.
Proof.
  intros H. apply Forall_forall. intros c Hc.
  apply N.ltb_lt. exact (proj1 (forallb_forall _ s) H c Hc).
Qed.

Lemma ascii_only_newline_indent level : ascii_only (newline_indent level).
Proof.
  unfold newline_indent. constructor; [lia|].
  induction (2 * level) as [|n IH]; constructor; [lia|exact IH].
Qed.

Lemma ascii_only_u_escape n : ascii_only (u_escape n).
Proof.
  assert (forall m, (hex_digit (m mod 16) < 128)%N) as H.
  { intros m. unfold hex_digit. pose proof (N.mod_upper_bound m 16 ltac:(lia)).
    destruct (N.ltb (m mod 16) 10); lia. }
  unfold u_escape. repeat constructor; try apply H; reflexivity.
Qed.

Lemma ascii_only_escape_char c : ascii_only (escape_char c).
Proof.
  unfold escape_char.
  repeat match goal with
         | |- context [if N.eqb c ?x then _ else _] =>
             destruct (N.eqb c x); [apply ascii_only_checked; reflexivity|]
         end.
  destruct (N.leb 32 c && N.leb c 126) eqn:E.
  - apply andb_true_iff in E. destruct E as [_ E]. apply N.leb_le in E.
    repeat constructor. lia.
  - destruct (N.ltb c 65536); [apply ascii_only_u_escape|].
    apply ascii_only_app; apply ascii_only_u_escape.
Qed.

Lemma ascii_only_encode_basestring_ascii s : ascii_only (encode_basestring_ascii s).
Proof.
  unfold encode_basestring_ascii. constructor; [reflexivity|].
  apply ascii_only_app; [|apply ascii_only_checked; reflexivity].
  induction s as [|c s IH]; [constructor|].
  cbn [flat_map]. apply ascii_only_app; [apply ascii_only_escape_char|exact IH].
Qed.

Lemma ascii_only_digits ds : forallb is_digit ds = true -> ascii_only ds.
Proof.
  induction ds as [|d ds IH]; intros H; [constructor|].
  cbn [forallb] in H. apply andb_true_iff in H. destruct H as [Hd Hds].
  constructor; [|apply IH, Hds].
  unfold is_digit in Hd. apply andb_true_iff in Hd. destruct Hd as [_ Hd].
  apply N.leb_le in Hd. lia.
Qed.

Section AsciiOutput.
Variable itp : interpreter.
Hypothesis float_repr_ascii : forall f, ascii_only (float_repr itp f).

Lemma ascii_only_encode_scalar v r :
  encode_scalar itp v = Some r ->
  ascii_only (fst (yield_outcome [] r)).
Proof.
  destruct v as [ |[]|z|f|s|l|d]; intros [= <-]; cbn [yield_outcome fst app];
    try (apply ascii_only_checked; reflexivity).
  - unfold intstr. destruct (exceeds_limit itp _); cbn [yield_outcome fst app];
      [constructor|].
    apply ascii_only_app.
    + destruct (Z.ltb z 0); apply ascii_only_checked; reflexivity.
    + apply ascii_only_digits, digits_of_uint_digits.
  - unfold floatstr.
    destruct (negb (PrimFloat.eqb f f)); [apply ascii_only_checked; reflexivity|].
    destruct (PrimFloat.eqb f infinity); [apply ascii_only_checked; reflexivity|].
    destruct (PrimFloat.eqb f neg_infinity); [apply ascii_only_checked; reflexivity|].
    apply float_repr_ascii.
  - apply ascii_only_encode_basestring_ascii.
Qed.

Lemma ascii_only_and_then a b :
  ascii_only (fst a) -> ascii_only (fst b) -> ascii_only (fst (and_then a b)).
Proof.
  destruct a as [s [e|]]; cbn [and_then fst]; intros Ha Hb; [exact Ha|].
  apply ascii_only_app; assumption.
Qed.

Lemma ascii_only_yield_outcome buf r :
  ascii_only buf -> ascii_only (fst (yield_outcome [] r)) ->
  ascii_only (fst (yield_outcome buf r)).
Proof.
  destruct r as [t|e]; cbn [yield_outcome fst app]; intros Hb Ht; [|constructor].
  apply ascii_only_app; assumption.
Qed.

(** Whatever [json.dump] writes, to the end or up to an exception, is
    ASCII. *)
Lemma ascii_only_iterencode v : forall level, ascii_only (fst (iterencode itp level v)).
Proof.
  induction v as [ |b|z|f|s|l IHl|d IHd] using value_nested_ind; intros level;
    try (cbn [iterencode];
         match goal with
         | |- context [encode_scalar itp ?v] =>
             destruct (encode_scalar itp v) as [r|] eqn:E;
               [apply (ascii_only_encode_scalar _ E) | constructor]
         end).
  - destruct l as [|v0 l0]; [apply ascii_only_checked; reflexivity|].
    rewrite iterencode_list.
    assert (ascii_only (ch "[" :: newline_indent (S level))) as Hbuf
      by (constructor; [reflexivity|apply ascii_only_newline_indent]).
    assert (ascii_only (ch "," :: newline_indent (S level))) as Hsep
      by (constructor; [reflexivity|apply ascii_only_newline_indent]).
    revert Hbuf. generalize (ch "[" :: newline_indent (S level)) as buf.
    revert IHl. generalize (v0 :: l0) as l. clear v0 l0.
    induction l as [|v l IH]; intros IHl buf Hbuf; cbn [elements_text].
    + apply ascii_only_and_then; [apply ascii_only_newline_indent|].
      apply ascii_only_checked; reflexivity.
    + inversion IHl as [|? ? Hv Hl]; subst.
      apply ascii_only_and_then; [|apply IH; assumption].
      destruct (encode_scalar itp v) as [r|] eqn:E.
      * apply ascii_only_yield_outcome; [exact Hbuf|apply (ascii_only_encode_scalar _ E)].
      * apply ascii_only_and_then; [exact Hbuf|apply Hv].
  - destruct d as [|p0 d0]; [apply ascii_only_checked; reflexivity|].
    rewrite iterencode_dict.
    apply ascii_only_and_then; [apply ascii_only_checked; reflexivity|].
    apply ascii_only_and_then; [apply ascii_only_newline_indent|].
    assert (ascii_only (ch "," :: newline_indent (S level))) as Hsep
      by (constructor; [reflexivity|apply ascii_only_newline_indent]).
    generalize true as first.
    revert IHd. generalize (p0 :: d0) as d. clear p0 d0.
    induction d as [|[k v] d IH]; intros IHd first; cbn [members_text].
    + apply ascii_only_and_then; [apply ascii_only_newline_indent|].
      apply ascii_only_checked; reflexivity.
    + inversion IHd as [|? ? Hv Hd]; subst. cbn [snd] in Hv.
      apply ascii_only_and_then; [destruct first; [constructor|exact Hsep]|].
      apply ascii_only_and_then; [apply ascii_only_encode_basestring_ascii|].
      apply ascii_only_and_then; [apply ascii_only_checked; reflexivity|].
      apply ascii_only_and_then; [|apply IH; assumption].
      destruct (encode_scalar itp v) as [r|] eqn:E.
      * apply (ascii_only_encode_scalar _ E).
      * apply Hv.
Qed.

End AsciiOutput.

Lemma iterencode_scalar itp level v r :
  encode_scalar itp v = Some r -> iterencode itp level v = yield_outcome [] r.
Proof.
  destruct v as [ |[]|z|f|s|l|d]; cbn [encode_scalar];
    try discriminate; intros [= <-]; reflexivity.
Qed.

Lemma elements_text_cons itp level buf v l written :
  elements_text itp level buf (v :: l) = (written, None) ->
  exists vt rest_text,
    iterencode itp (S level) v = (vt, None) /\
    elements_text itp level (ch "," :: newline_indent (S level)) l = (rest_text, None) /\
    written = buf ++ vt ++ rest_text.
Proof.
  cbn [elements_text]. intros H.
  destruct (elements_text itp level (ch "," :: newline_indent (S level)) l)
    as [rest_text stopped].
  destruct (encode_scalar itp v) as [r|] eqn:E.
  - rewrite (@iterencode_scalar itp (S level) v r E).
    destruct r as [vt|e]; cbn [and_then yield_outcome fst snd] in H; [|discriminate].
    injection H as <- ->. exists vt, rest_text.
    rewrite <- List.app_assoc. repeat split.
  - destruct (iterencode itp (S level) v) as [vt [e|]];
      cbn [and_then yield fst snd] in H; [discriminate|].
    injection H as <- ->. exists vt, rest_text.
    rewrite <- List.app_assoc. repeat split.
Qed.

Lemma members_text_cons itp level first k v d written :
  members_text itp level first ((k, v) :: d) = (written, None) ->
  exists vt rest_text,
    iterencode itp (S level) v = (vt, None) /\
    members_text itp level false d = (rest_text, None) /\
    written = (if first then [] else ch "," :: newline_indent (S level)) ++
              encode_basestring_ascii k ++ py ": " ++ vt ++ rest_text.
Proof.
  cbn [members_text]. intros H.
  destruct (members_text itp level false d) as [rest_text stopped].
  assert (match encode_scalar itp v with
          | Some r => yield_outcome [] r
          | None => iterencode itp (S level) v
          end = iterencode itp (S level) v) as Hsame.
  { destruct (encode_scalar itp v) as [r|] eqn:E; [|reflexivity].
    symmetry. exact (@iterencode_scalar itp (S level) v r E). }
  rewrite Hsame in H.
  destruct (iterencode itp (S level) v) as [vt [e|]].
  - destruct first; cbn in H; discriminate.
  - exists vt, rest_text.
    destruct first; cbn in H; injection H as <- ->; repeat split.
Qed.

Lemma iterencode_opens itp level depth v written :
  storable depth v ->
  iterencode itp level v = (written, None) ->
  exists c r, written = c :: r /\ opens c.
Proof.
  intros Hv H. destruct Hv as [depth|depth []|depth z|depth s Hs|depth l Hl|depth d Hdup Hd].
  - injection H as <-. eexists _, _. split; [reflexivity|]. split; reflexivity.
  - injection H as <-. eexists _, _. split; [reflexivity|]. split; reflexivity.
  - injection H as <-. eexists _, _. split; [reflexivity|]. split; reflexivity.
  - cbn [iterencode encode_scalar] in H. unfold intstr in H.
    destruct (exceeds_limit itp _); [discriminate|]. injection H as <-.
    destruct (Z.ltb z 0).
    + eexists _, _. split; [reflexivity|]. split; reflexivity.
    + destruct (to_uint_numeral (Z.abs_N z)) as [->|(c & r & -> & Hc & _)].
      * eexists _, _. split; [reflexivity|]. split; reflexivity.
      * exists c, r. split; [reflexivity|].
        unfold opens, is_whitespace. cbn [ch N_of_ascii].
        repeat match goal with
               | |- context [N.eqb c ?x] =>
                   let E := fresh in
                   destruct (N.eqb_spec c x) as [E|E]; [exfalso; revert E Hc; clear; cbn; lia|]
               end.
        split; reflexivity.
  - injection H as <-. eexists _, _. split; [reflexivity|]. split; reflexivity.
  - destruct l as [|v l].
    + injection H as <-. eexists _, _. split; [reflexivity|]. split; reflexivity.
    + rewrite iterencode_list in H.
      destruct (@elements_text_cons _ _ _ _ _ _ H) as (vt & rest_text & _ & _ & ->).
      eexists _, _. split; [reflexivity|]. split; reflexivity.
  - destruct d as [|p d].
    + injection H as <-. eexists _, _. split; [reflexivity|]. split; reflexivity.
    + rewrite iterencode_dict, !and_then_yield in H. injection H as <- _.
      eexists _, _. split; [reflexivity|]. split; reflexivity.
Qed.

Lemma skip_whitespace_opens c r : opens c -> skip_whitespace (c :: r) = c :: r.
Proof. intros [H _]. cbn [skip_whitespace]. rewrite H. reflexivity. Qed.

Lemma elements_text_terminated itp level l rest_text tail :
  elements_text itp level (ch "," :: newline_indent (S level)) l = (rest_text, None) ->
  terminated (rest_text ++ tail).
Proof.
  intros H. destruct l as [|v l].
  - cbn [elements_text] in H. rewrite !and_then_yield in H. injection H as <-.
    eexists _, _. split; [reflexivity|]. right. reflexivity.
  - destruct (@elements_text_cons _ _ _ _ _ _ H) as (vt & rest2 & _ & _ & ->).
    eexists _, _. split; [reflexivity|]. left. reflexivity.
Qed.

Lemma members_text_terminated itp level d rest_text tail :
  members_text itp level false d = (rest_text, None) ->
  terminated (rest_text ++ tail).
Proof.
  intros H. destruct d as [|[k v] d].
  - cbn [members_text] in H. rewrite !and_then_yield in H. injection H as <-.
    eexists _, _. split; [reflexivity|]. right. reflexivity.
  - destruct (@members_text_cons _ _ _ _ _ _ _ H) as (vt & rest2 & _ & _ & ->).
    eexists _, _. split; [reflexivity|]. left. reflexivity.
Qed.

(** The elements of a list, read by the loop of the array parser. *)
Lemma array_loop_elements itp level depth l : forall acc n written tail,
  Forall (read_back itp) l ->
  Forall (storable depth) l ->
  l <> [] ->
  elements_text itp level [] l = (written, None) ->
  List.length (written ++ tail) <= n ->
  array_loop (scan_once itp depth) n (written ++ tail) acc =
    Return (PyList (rev acc ++ l), tail).
Proof.
  induction l as [|v l IH]; intros acc n written tail Hread Hstore Hne Hwritten Hn;
    [congruence|].
  inversion Hread as [|? ? Hv Hl]; subst. inversion Hstore as [|? ? Sv Sl]; subst.
  destruct (@elements_text_cons _ _ _ _ _ _ Hwritten) as (vt & rest_text & Hvt & Hrest & ->).
  destruct (@iterencode_opens itp (S level) depth v vt Sv Hvt) as (c & r & Hshape & Hc).
  destruct n as [|n]; [rewrite Hshape in Hn; cbn in Hn; lia|].
  cbn [app array_loop]. rewrite <- List.app_assoc.
  rewrite (Hv (S level) depth vt (rest_text ++ tail) Sv Hvt)
    by (intros _; exact (@elements_text_terminated itp level _ rest_text tail Hrest)).
  destruct l as [|v2 l].
  - cbn [elements_text] in Hrest. rewrite !and_then_yield in Hrest.
    apply pair_equal_spec in Hrest. destruct Hrest as [<- _]. cbn [yield fst].
    rewrite <- List.app_assoc, skip_whitespace_newline_indent.
    cbn [app skip_whitespace]. change (is_whitespace (ch "]")) with false. cbv iota.
    change (N.eqb (ch "]") (ch "]")) with true. cbv iota. reflexivity.
  - destruct (@elements_text_cons _ _ _ _ _ _ Hrest) as (vt2 & rest2 & Hvt2 & Hrest2 & ->).
    inversion Sl as [|? ? Sv2 _]; subst.
    destruct (@iterencode_opens itp (S level) depth v2 vt2 Sv2 Hvt2) as (c2 & r2 & Hshape2 & Hc2).
    cbn [app skip_whitespace]. change (is_whitespace (ch ",")) with false. cbv iota.
    change (N.eqb (ch ",") (ch "]")) with false. cbv iota.
    change (N.eqb (ch ",") (ch ",")) with true. cbv iota.
    rewrite <- List.app_assoc, skip_whitespace_newline_indent.
    assert (elements_text itp level [] (v2 :: l) = (vt2 ++ rest2, None)) as Hnext.
    { cbn [elements_text] in Hrest |- *.
      destruct (encode_scalar itp v2) as [r0|] eqn:E.
      - rewrite (@iterencode_scalar itp (S level) v2 r0 E) in Hvt2.
        destruct r0 as [t0|e0]; [|discriminate]. injection Hvt2 as ->.
        cbn [yield_outcome app]. rewrite Hrest2. reflexivity.
      - rewrite Hvt2, Hrest2. reflexivity. }
    assert (skip_whitespace ((vt2 ++ rest2) ++ tail) = (vt2 ++ rest2) ++ tail) as Hskip.
    { rewrite Hshape2. cbn [app]. apply skip_whitespace_opens, Hc2. }
    rewrite Hskip.
    rewrite (IH (v :: acc) n (vt2 ++ rest2) tail Hl Sl ltac:(discriminate) Hnext).
    + cbn [rev]. rewrite <- List.app_assoc. reflexivity.
    + cbn [app] in Hn.
      repeat (progress (rewrite ?length_app, ?length_cons in Hn)).
      rewrite !length_app. lia.
Qed.

Lemma elements_text_first itp level buf v l written :
  elements_text itp level buf (v :: l) = (written, None) ->
  exists t, written = buf ++ t /\ elements_text itp level [] (v :: l) = (t, None).
Proof.
  intros H.
  destruct (@elements_text_cons _ _ _ _ _ _ H) as (vt & rest_text & Hvt & Hrest & ->).
  exists (vt ++ rest_text). split; [reflexivity|].
  cbn [elements_text].
  destruct (encode_scalar itp v) as [r0|] eqn:E.
  - rewrite (@iterencode_scalar itp (S level) v r0 E) in Hvt.
    destruct r0 as [t0|e0]; [|discriminate]. injection Hvt as ->.
    cbn [yield_outcome app]. rewrite Hrest. reflexivity.
  - rewrite Hvt, Hrest. reflexivity.
Qed.

(** The members of a [dict], read by the loop of the object parser. *)
Lemma object_loop_members itp level depth d : forall acc n written tail,
  Forall (fun kv => read_back itp (snd kv)) d ->
  Forall (fun kv => text (fst kv) /\ storable depth (snd kv)) d ->
  d <> [] ->
  members_text itp level true d = (written, None) ->
  NoDup (map fst (acc ++ d)) ->
  List.length (written ++ tail) <= n ->
  object_loop (scan_once itp depth) n (written ++ tail) acc =
    Return (PyDict (acc ++ d), tail).
Proof.
  induction d as [|[k v] d IH];
    intros acc n written tail Hread Hstore Hne Hwritten Hdup Hn; [congruence|].
  inversion Hread as [|? ? Hv Hl]; subst. cbn [snd] in Hv.
  inversion Hstore as [|? ? [Hk Sv] Sl]; subst. cbn [fst snd] in Hk, Sv.
  destruct (@members_text_cons _ _ _ _ _ _ _ Hwritten)
    as (vt & rest_text & Hvt & Hrest & ->).
  destruct (@iterencode_opens itp (S level) depth v vt Sv Hvt) as (c & r & Hshape & Hc).
  destruct n as [|n]; [cbn in Hn; lia|].
  assert (~ In k (map fst acc)) as Hfresh.
  { rewrite map_app in Hdup. cbn [map fst] in Hdup.
    apply NoDup_remove_2 in Hdup. intros Hin. apply Hdup.
    apply in_or_app. left. exact Hin. }
  cbn [app]. unfold encode_basestring_ascii at 1.
  rewrite <- !List.app_assoc. cbn [app object_loop].
  change (negb (N.eqb dquote dquote)) with false. cbv iota.
  rewrite <- List.app_assoc. cbn [app].
  rewrite (@scanstring_encoded k _ _ Hk).
  cbn [rev app py map list_ascii_of_string skip_whitespace].
  change (is_whitespace (N_of_ascii ":")) with false. cbv iota.
  change (negb (N.eqb (N_of_ascii ":") (ch ":"))) with false. cbv iota.
  cbn [skip_whitespace]. change (is_whitespace (N_of_ascii " ")) with true. cbv iota.
  assert (skip_whitespace (vt ++ rest_text ++ tail) = vt ++ rest_text ++ tail) as ->.
  { rewrite Hshape. cbn [app]. apply skip_whitespace_opens, Hc. }
  rewrite (Hv (S level) depth vt (rest_text ++ tail) Sv Hvt)
    by (intros _; exact (@members_text_terminated itp level _ rest_text tail Hrest)).
  rewrite (@dict_set_fresh k v acc Hfresh).
  destruct d as [|[k2 v2] d].
  - cbn [members_text] in Hrest. rewrite !and_then_yield in Hrest.
    apply pair_equal_spec in Hrest. destruct Hrest as [<- _]. cbn [yield fst].
    rewrite <- List.app_assoc, skip_whitespace_newline_indent.
    cbn [app skip_whitespace]. change (is_whitespace (ch "}")) with false. cbv iota.
    change (N.eqb (ch "}") (ch "}")) with true. cbv iota. reflexivity.
  - destruct (@members_text_cons _ _ _ _ _ _ _ Hrest) as (vt2 & rest2 & Hvt2 & Hrest2 & ->).
    cbn [app skip_whitespace]. change (is_whitespace (ch ",")) with false. cbv iota.
    change (N.eqb (ch ",") (ch "}")) with false. cbv iota.
    change (N.eqb (ch ",") (ch ",")) with true. cbv iota.
    rewrite <- List.app_assoc, skip_whitespace_newline_indent.
    rewrite <- !List.app_assoc.
    assert (members_text itp level true ((k2, v2) :: d) =
              (encode_basestring_ascii k2 ++ py ": " ++ vt2 ++ rest2, None)) as Htrue.
    { cbn [members_text] in Hrest |- *.
      destruct (encode_scalar itp v2) as [r0|] eqn:E.
      - rewrite (@iterencode_scalar itp (S level) v2 r0 E) in Hvt2.
        destruct r0 as [t0|e0]; [|discriminate]. injection Hvt2 as ->.
        rewrite Hrest2. reflexivity.
      - rewrite Hvt2, Hrest2. reflexivity. }
    rewrite skip_whitespace_key.
    replace (encode_basestring_ascii k2 ++ py ": " ++ vt2 ++ rest2 ++ tail)
      with ((encode_basestring_ascii k2 ++ py ": " ++ vt2 ++ rest2) ++ tail)
      by (rewrite <- !List.app_assoc; reflexivity).
    rewrite (IH (acc ++ [(k, v)]) n _ tail Hl Sl ltac:(discriminate) Htrue).
    + rewrite <- List.app_assoc. reflexivity.
    + rewrite <- List.app_assoc. exact Hdup.
    + cbn [app] in Hn. unfold encode_basestring_ascii in Hn. cbn [app] in Hn.
      repeat (progress (rewrite ?length_app, ?length_cons in Hn)).
      rewrite !length_app. unfold encode_basestring_ascii. cbn [List.length].
      rewrite !length_app. cbn [List.length] in *. lia.
Qed.

Lemma iterencode_plain itp level v written :
  plain v ->
  iterencode itp level v = (written, None) ->
  encode_scalar itp v = Some (Return written).
Proof.
  intros Hv H. destruct (plain_encode_scalar itp Hv) as [r Hr].
  rewrite (@iterencode_scalar itp level v r Hr) in H.
  destruct r as [t|e]; cbn [yield_outcome app] in H; [|discriminate].
  injection H as <-. exact Hr.
Qed.

(** Every storable value that [json.dump] wrote is read back as itself. *)
Lemma read_back_storable itp v : read_back itp v.
Proof.
  induction v as [ |b|z|f|s|l IHl|d IHd] using value_nested_ind;
    intros level depth written tail Hstore Hwritten Htail.
  - apply (@scan_once_plain itp depth PyNone written tail (plain_none));
      [apply (@iterencode_plain itp level _ _ plain_none Hwritten)
      |apply Htail; constructor].
  - apply (@scan_once_plain itp depth (PyBool b) written tail (plain_bool b));
      [apply (@iterencode_plain itp level _ _ (plain_bool b) Hwritten)
      |apply Htail; constructor].
  - apply (@scan_once_plain itp depth (PyInt z) written tail (plain_int z));
      [apply (@iterencode_plain itp level _ _ (plain_int z) Hwritten)
      |apply Htail; constructor].
  - inversion Hstore.
  - inversion Hstore as [| | |? ? Hs| |]; subst.
    apply (@scan_once_plain itp depth (PyStr s) written tail (plain_str Hs));
      [apply (@iterencode_plain itp level _ _ (plain_str Hs) Hwritten)
      |apply Htail; constructor; exact Hs].
  - inversion Hstore as [| | | |depth' ? Hl|]; subst.
    destruct l as [|v l].
    + cbn [iterencode yield] in Hwritten. apply pair_equal_spec in Hwritten.
      destruct Hwritten as [<- _]. reflexivity.
    + rewrite iterencode_list in Hwritten.
      assert (storable depth' v) as Sv by (inversion Hl; assumption).
      destruct (@elements_text_first _ _ _ _ _ _ Hwritten) as (t & -> & Ht).
      destruct (@elements_text_cons _ _ _ _ _ _ Ht) as (vt & rest_text & Hvt & _ & Hshape).
      destruct (@iterencode_opens itp (S level) depth' v vt Sv Hvt) as (c & r & -> & Hc).
      cbn [app scan_once].
      change (N.eqb (ch "[") dquote) with false.
      change (N.eqb (ch "[") (ch "{")) with false.
      change (N.eqb (ch "[") (ch "[")) with true. cbv iota.
      unfold parse_array. rewrite <- List.app_assoc, skip_whitespace_newline_indent.
      pose proof (@array_loop_elements itp level depth' (v :: l) [] 
                    (List.length (t ++ tail)) t tail IHl Hl ltac:(discriminate) Ht
                    (Nat.le_refl _)) as Hloop.
      rewrite Hshape in Hloop |- *. cbn [app] in Hloop |- *.
      rewrite (skip_whitespace_opens _ Hc).
      destruct Hc as [_ Hc]. rewrite Hc. exact Hloop.
  - inversion Hstore as [| | | | |depth' ? Hdup Hd]; subst.
    destruct d as [|[k v] d].
    + cbn [iterencode yield] in Hwritten. apply pair_equal_spec in Hwritten.
      destruct Hwritten as [<- _]. reflexivity.
    + rewrite iterencode_dict, !and_then_yield in Hwritten.
      destruct (members_text itp level true ((k, v) :: d)) as [t stopped] eqn:Ht.
      cbn [fst snd] in Hwritten. apply pair_equal_spec in Hwritten.
      destruct Hwritten as [<- ->].
      destruct (@members_text_cons _ _ _ _ _ _ _ Ht) as (vt & rest_text & _ & _ & Hshape).
      cbn [app scan_once].
      change (N.eqb (ch "{") dquote) with false.
      change (N.eqb (ch "{") (ch "{")) with true. cbv iota.
      unfold parse_object. rewrite <- List.app_assoc, skip_whitespace_newline_indent.
      pose proof (@object_loop_members itp level depth' ((k, v) :: d) []
                    (List.length (t ++ tail)) t tail IHd Hd ltac:(discriminate) Ht Hdup
                    (Nat.le_refl _)) as Hloop.
      rewrite Hshape in Hloop |- *. unfold encode_basestring_ascii in Hloop |- *.
      cbn [app skip_whitespace] in Hloop |- *.
      change (is_whitespace dquote) with false. cbv iota.
      change (N.eqb dquote (ch "}")) with false. cbv iota.
      exact Hloop.
Qed.

Lemma loads_dumped_storable itp d written :
  storable (recursion_limit itp) (PyDict d) ->
  iterencode itp 0 (PyDict d) = (written, None) ->
  loads itp written = Return (PyDict d).
Proof.
  intros Hstore Hwritten.
  pose proof (@read_back_storable itp (PyDict d) 0 (recursion_limit itp) written []
                Hstore Hwritten) as Hscan.
  rewrite List.app_nil_r in Hscan.
  assert (exists r, written = ch "{" :: r) as (r & Hshape).
  { destruct d as [|p d].
    - cbn [iterencode yield] in Hwritten. injection Hwritten as <-. eexists. reflexivity.
    - rewrite iterencode_dict, !and_then_yield in Hwritten.
      apply pair_equal_spec in Hwritten. destruct Hwritten as [<- _].
      eexists. reflexivity. }
  unfold loads. rewrite Hshape in *. cbn [startswith skip_whitespace].
  change (N.eqb (ch "{") 65279) with false. cbn [andb].
  change (is_whitespace (ch "{")) with false. cbv iota.
  rewrite Hscan; [reflexivity|]. intros Hplain. inversion Hplain.
Qed.

End JsonFacts.

(* ===================================================================== *)
(** * Properties of the configuration store *)
(* ===================================================================== *)

Module ConfigManagerFacts.
Import Py Json ConfigManager JsonFacts.

(** ** The vocabulary of the specification *)

(** The keys of [DEFAULT_CONFIG]. *)
Definition recognized_keys : list pystr :=
  [ py "chunk_size"; py "chunk_overlap"; py "chunker_type";
    py "embedding_model"; py "use_contextual_enrichment" ].

(** Every recognized key is present. *)
Definition has_every_recognized_key (config : value) : Prop :=
  match config with
  | PyDict d => Forall (fun key => dict_get key d <> None) recognized_keys
  | _ => False
  end.

(** The scalar values a configuration holds: [None], [bool], [int] and
    [str]. *)
Definition scalar (v : value) : Prop :=
  match v with
  | PyNone | PyBool _ | PyInt _ | PyStr _ => True
  | PyFloat _ | PyList _ | PyDict _ => False
  end.

(** A configuration mapping with the five recognized keys at their
    types: distinct keys, scalar values, and an [int], an [int], a [str],
    a [str] and a [bool] under the recognized keys. *)
Record valid_config (d : list (pystr * value)) : Prop := {
  distinct_keys : NoDup (map fst d);
  scalar_items : Forall (fun kv => scalar (snd kv)) d;
  chunk_size_int : exists n, dict_get (py "chunk_size") d = Some (PyInt n);
  chunk_overlap_int : exists n, dict_get (py "chunk_overlap") d = Some (PyInt n);
  chunker_type_str : exists s, dict_get (py "chunker_type") d = Some (PyStr s);
  embedding_model_str : exists s, dict_get (py "embedding_model") d = Some (PyStr s);
  use_contextual_enrichment_bool :
    exists b, dict_get (py "use_contextual_enrichment") d = Some (PyBool b)
}.

(** Every key and every [str] among the values is a text: no surrogate
    code point occurs in the mapping. *)
Definition surrogate_free (d : list (pystr * value)) : Prop :=
  Forall (fun kv => text (fst kv) /\ forall s, snd kv = PyStr s -> text s) d.

(** The backing file is absent, unreadable, or not valid JSON. *)
Inductive unusable (itp : interpreter) (fs : filesystem) : Prop :=
| unusable_absent :
    config_file fs = Absent -> unusable itp fs
| unusable_unreadable cls msg :
    config_file fs = Unreadable cls msg -> unusable itp fs
| unusable_invalid content e :
    config_file fs = Text content -> loads itp content = Raise e -> unusable itp fs.

(** ** Examples *)

(** The limits of a stock CPython.  The examples hold no [float]; the two
    conversions are placeholders. *)
Definition example_interpreter : interpreter :=
  {| recursion_limit := 1000;
     int_max_str_digits := 4300;
     float_of_literal := fun _ => nan;
     float_repr := fun _ => py "nan" |}.

(** An ASCII literal between double quotes. *)
Definition quoted (s : string) : pystr := dquote :: py s ++ [dquote].

(** A directory without the file, where it may be created. *)
Definition empty_directory : filesystem :=
  {| config_file := Absent; open_for_writing_error := None |}.

(** A file someone truncated by hand. *)
Definition truncated_file : filesystem :=
  {| config_file := Text (py "{" ++ quoted "chunk_size" ++ py ": 10");
     open_for_writing_error := None |}.

(** A file that sets one key only. *)
Definition partial_file : filesystem :=
  {| config_file := Text (py "{" ++ quoted "chunk_size" ++ py ": 512}");
     open_for_writing_error := None |}.

(** A configuration with a negative number, an accented letter, a
    character outside the basic plane, a quote and a newline. *)
Definition tuned_config : list (pystr * value) :=
  [ (py "chunk_size", PyInt 512);
    (py "chunk_overlap", PyInt (-64));
    (py "chunker_type", PyStr (py "s" ++ [233%N] ++ py "mantique " ++ [128640%N]));
    (py "embedding_model", PyStr (py "text-" ++ [dquote; 10%N] ++ py "embedding\3"));
    (py "use_contextual_enrichment", PyBool true) ].

(** A file that holds a JSON array, and one that sets the model to [null]. *)
Definition array_file : filesystem :=
  {| config_file := Text (py "[]"); open_for_writing_error := None |}.

Definition null_model_file : filesystem :=
  {| config_file := Text (py "{" ++ quoted "embedding_model" ++ py ": null}");
     open_for_writing_error := None |}.

(** A configuration whose model name holds the two halves of a surrogate
    pair as two characters, and the same with the one character the pair
    stands for. *)
Definition paired_config : list (pystr * value) :=
  [ (py "chunk_size", PyInt 1000);
    (py "chunk_overlap", PyInt 200);
    (py "chunker_type", PyStr (py "semantic"));
    (py "embedding_model", PyStr [55357%N; 56832%N]);
    (py "use_contextual_enrichment", PyBool false) ].

Definition joined_config : list (pystr * value) :=
  [ (py "chunk_size", PyInt 1000);
    (py "chunk_overlap", PyInt 200);
    (py "chunker_type", PyStr (py "semantic"));
    (py "embedding_model", PyStr [128512%N]);
    (py "use_contextual_enrichment", PyBool false) ].

(** A configuration without a recognized key, with a list and mappings
    as values. *)
Definition nested_config : list (pystr * value) :=
  [ (py "models", PyList [PyStr (py "text-embedding-3-small");
                          PyStr (py "mod" ++ [232%N] ++ py "le-" ++ [128640%N])]);
    (py "chunking", PyDict [ (py "size", PyInt 512);
                             (py "overlap", PyNone);
                             (py "separators", PyList []) ]);
    (py "filters", PyDict []) ].

(** A configuration whose chunk size has 4301 digits. *)
Definition oversized_config : list (pystr * value) :=
  [ (py "embedding_model", PyStr (py "text-embedding-3-large"));
    (py "chunk_size", PyInt (10 ^ 4300)) ].

(** The file after an editor appended [tail] to it. *)
Definition appended (fs : filesystem) (tail : pystr) : filesystem :=
  {| config_file :=
       match config_file fs with
       | Text content => Text (content ++ tail)
       | other => other
       end;
     open_for_writing_error := open_for_writing_error fs |}.

(** A [str] of spaces, tabs, newlines and carriage returns. *)
Definition blank (s : pystr) : Prop := Forall (fun c => is_whitespace c = true) s.

(* Decides [text] of a given [str] by computation. *)
Ltac is_text :=
  repeat (apply Forall_cons;
          [split; [first [left; reflexivity | right; reflexivity] | reflexivity] |]);
  apply Forall_nil.

(** ** Loading *)

(** C7: [load_active_config] always returns, and when the file is absent,
    unreadable or not valid JSON, what it returns is [DEFAULT_CONFIG]. *)
Theorem load_active_config_falls_back_to_default (itp : interpreter) (fs : filesystem) :
  (exists config, load_active_config itp fs = Return config) /\
  (unusable itp fs -> load_active_config itp fs = Return DEFAULT_CONFIG).
Proof.
  unfold load_active_config, json_load, os_path_exists, open_and_read.
  destruct (config_file fs) as [|cls msg|content] eqn:Efile; cbn [negb is_Exception].
  - split; [eexists; reflexivity|]. reflexivity.
  - split; [eexists; reflexivity|]. reflexivity.
  - pose proof (@loads_raises itp content) as Hraises.
    destruct (loads itp content) as [config|e] eqn:Eloads.
    + split; [eexists; reflexivity|].
      intros [H|cls msg H|content' e H Hloads]; rewrite Efile in H; try discriminate.
      injection H as <-. congruence.
    + rewrite (Hraises e eq_refl). split; [eexists; reflexivity|]. reflexivity.
Qed.

Lemma load_active_config_falls_back_to_default_witness :
  load_active_config example_interpreter truncated_file = Return DEFAULT_CONFIG.
Proof.
  apply (proj2 (load_active_config_falls_back_to_default example_interpreter truncated_file)).
  eapply unusable_invalid; reflexivity.
Defined.

(** C9: a file that holds valid JSON is returned as parsed, whatever it
    holds; defaults are not merged in, and a file that sets one key gives
    a mapping without the other recognized keys. *)
Theorem load_active_config_returns_the_file_as_parsed :
  (forall itp fs content config,
     config_file fs = Text content ->
     loads itp content = Return config ->
     load_active_config itp fs = Return config) /\
  load_active_config example_interpreter partial_file
    = Return (PyDict [(py "chunk_size", PyInt 512)]) /\
  ~ has_every_recognized_key (PyDict [(py "chunk_size", PyInt 512)]).
Proof.
  split; [|split].
  - intros itp fs content config Hfile Hloads.
    unfold load_active_config, json_load, os_path_exists, open_and_read.
    rewrite Hfile. cbn [negb]. rewrite Hloads. reflexivity.
  - vm_compute. reflexivity.
  - intros H. cbn [has_every_recognized_key recognized_keys] in H.
    inversion H as [|k ks _ Hrest]; subst.
    inversion Hrest as [|k ks Hoverlap _]; subst.
    apply Hoverlap. reflexivity.
Qed.

(** ** Saving, then loading *)

Lemma surrogate_free_flat d :
  Forall (fun kv => scalar (snd kv)) d -> surrogate_free d -> flat d.
Proof.
  intros Hscalar Hfree. induction Hscalar as [|[k v] d Hv _ IH]; [constructor|].
  inversion Hfree as [|kv d' [Hk Hs] Hd]; subst. cbn [fst snd] in *.
  constructor; [|apply IH, Hd]. split; [exact Hk|].
  destruct v; try contradiction; constructor. apply Hs. reflexivity.
Qed.

(** C8, as amended: for a valid configuration in which no surrogate code
    point occurs, when [save_active_config] returns, [load_active_config]
    on the file it wrote returns the mapping that was saved. *)
Theorem save_then_load_returns_the_saved_config
    (itp : interpreter) (config : list (pystr * value)) (fs fs' : filesystem) :
  valid_config config ->
  surrogate_free config ->
  1 <= recursion_limit itp ->
  save_active_config itp (PyDict config) fs = (Return tt, fs') ->
  load_active_config itp fs' = Return (PyDict config).
Proof.
  intros Hvalid Hfree Hdepth Hsave. unfold save_active_config in Hsave.
  destruct (open_for_writing_error fs) as [[cls msg]|]; [discriminate|].
  destruct (iterencode itp 0 (PyDict config)) as [written stopped] eqn:Hwritten.
  destruct stopped as [e|]; [discriminate|]. injection Hsave as <-.
  unfold load_active_config, json_load, os_path_exists, open_and_read.
  cbn [config_file negb].
  rewrite (@loads_dumped_flat_dict itp config written
             (surrogate_free_flat (scalar_items Hvalid) Hfree)
             (distinct_keys Hvalid) Hdepth Hwritten).
  reflexivity.
Qed.

Lemma tuned_config_valid : valid_config tuned_config.
Proof.
  constructor.
  - repeat (apply NoDup_cons; [cbn; intuition discriminate |]). apply NoDup_nil.
  - repeat (apply Forall_cons; [exact I |]). apply Forall_nil.
  - eexists. reflexivity.
  - eexists. reflexivity.
  - eexists. reflexivity.
  - eexists. reflexivity.
  - eexists. reflexivity.
Qed.

Lemma tuned_config_surrogate_free : surrogate_free tuned_config.
Proof.
  repeat (apply Forall_cons;
          [split; [cbn; is_text | intros s; cbn [snd]; intros H;
                                  try discriminate; injection H as <-; cbn; is_text] |]).
  apply Forall_nil.
Qed.

Lemma save_then_load_returns_the_saved_config_witness :
  load_active_config example_interpreter
    (snd (save_active_config example_interpreter (PyDict tuned_config) empty_directory))
  = Return (PyDict tuned_config).
Proof.
  apply save_then_load_returns_the_saved_config with (fs := empty_directory).
  - exact tuned_config_valid.
  - exact tuned_config_surrogate_free.
  - cbn. lia.
  - vm_compute. reflexivity.
Defined.

Lemma paired_config_valid : valid_config paired_config.
Proof.
  constructor.
  - repeat (apply NoDup_cons; [cbn; intuition discriminate |]). apply NoDup_nil.
  - repeat (apply Forall_cons; [exact I |]). apply Forall_nil.
  - eexists. reflexivity.
  - eexists. reflexivity.
  - eexists. reflexivity.
  - eexists. reflexivity.
  - eexists. reflexivity.
Qed.

(** C8, as stated, fails: the configuration below has the five recognized
    keys at their types, its model name being a [str] of two surrogate
    code points.  The save returns, and the load returns a mapping whose
    model name is the one character the pair stands for. *)
Lemma surrogate_pair_is_not_loaded_as_saved :
  exists fs',
    valid_config paired_config /\
    save_active_config example_interpreter (PyDict paired_config) empty_directory
      = (Return tt, fs') /\
    load_active_config example_interpreter fs' = Return (PyDict joined_config) /\
    joined_config <> paired_config.
Proof.
  eexists. split; [exact paired_config_valid|].
  split; [vm_compute; reflexivity|].
  split; [vm_compute; reflexivity|].
  discriminate.
Qed.

(** The restriction to texts is needed: a [str] that holds the two halves
    of a surrogate pair as two characters comes back as one character. *)
Example surrogate_halves_come_back_joined :
  loads example_interpreter
    (fst (iterencode example_interpreter 0 (PyStr [55357%N; 56832%N])))
  = Return (PyStr [128512%N]).
Proof. vm_compute. reflexivity. Qed.

(** [get_active_embedding_model] on a file without the key. *)
Example get_active_embedding_model_default :
  get_active_embedding_model example_interpreter partial_file
  = Return (PyStr (py "text-embedding-3-small")).
Proof. vm_compute. reflexivity. Qed.

(** The built-in defaults survive being saved and loaded. *)
Example default_config_round_trips :
  load_active_config example_interpreter
    (snd (save_active_config example_interpreter DEFAULT_CONFIG empty_directory))
  = Return DEFAULT_CONFIG.
Proof. vm_compute. reflexivity. Qed.

(** ** The active embedding model, and saves that fail *)

Lemma load_active_config_of_text itp fs content :
  config_file fs = Text content ->
  load_active_config itp fs =
    match loads itp content with
    | Return config => Return config
    | Raise _ => Return DEFAULT_CONFIG
    end.
Proof.
  intros Hfile. unfold load_active_config, json_load, os_path_exists, open_and_read.
  rewrite Hfile. cbn [negb].
  pose proof (@loads_raises itp content) as Hraises.
  destruct (loads itp content) as [config|e]; [reflexivity|].
  rewrite (Hraises e eq_refl). reflexivity.
Qed.

Lemma load_active_config_unusable itp fs :
  unusable itp fs -> load_active_config itp fs = Return DEFAULT_CONFIG.
Proof.
  intros [H|cls msg H|content e H Hloads].
  - unfold load_active_config, os_path_exists. rewrite H. reflexivity.
  - unfold load_active_config, json_load, os_path_exists, open_and_read.
    rewrite H. reflexivity.
  - rewrite (@load_active_config_of_text itp fs _ H), Hloads. reflexivity.
Qed.

Lemma save_active_config_returned itp config fs fs' :
  save_active_config itp config fs = (Return tt, fs') ->
  exists written,
    iterencode itp 0 config = (written, None) /\
    fs' = {| config_file := Text written; open_for_writing_error := None |}.
Proof.
  unfold save_active_config.
  destruct (open_for_writing_error fs) as [[cls msg]|]; [discriminate|].
  destruct (iterencode itp 0 config) as [written [e|]]; [discriminate|].
  intros [= <-]. exists written. split; reflexivity.
Qed.

Lemma load_after_save itp config fs fs' :
  storable (recursion_limit itp) (PyDict config) ->
  save_active_config itp (PyDict config) fs = (Return tt, fs') ->
  load_active_config itp fs' = Return (PyDict config).
Proof.
  intros Hstore Hsave.
  destruct (@save_active_config_returned _ _ _ _ Hsave) as (written & Hwritten & ->).
  rewrite (@load_active_config_of_text itp (mkFilesystem (Text written) None) written eq_refl).
  rewrite (@loads_dumped_storable itp config written Hstore Hwritten).
  reflexivity.
Qed.

(** X10: [get_active_embedding_model] returns the built-in model name
    when the file is absent, unreadable or not valid JSON, and when the
    file holds a JSON object without the key [embedding_model]. *)
Theorem get_active_embedding_model_falls_back_to_default
    (itp : interpreter) (fs : filesystem) :
  unusable itp fs \/
  (exists content d,
     config_file fs = Text content /\
     loads itp content = Return (PyDict d) /\
     dict_get (py "embedding_model") d = None) ->
  get_active_embedding_model itp fs = Return (PyStr (py "text-embedding-3-small")).
Proof.
  intros [H|(content & d & Hfile & Hloads & Hkey)]; unfold get_active_embedding_model.
  - rewrite (@load_active_config_unusable itp fs H). reflexivity.
  - rewrite (@load_active_config_of_text itp fs _ Hfile), Hloads, Hkey. reflexivity.
Qed.

Lemma get_active_embedding_model_falls_back_to_default_witness :
  get_active_embedding_model example_interpreter truncated_file
  = Return (PyStr (py "text-embedding-3-small")).
Proof.
  apply get_active_embedding_model_falls_back_to_default.
  left. eapply unusable_invalid; reflexivity.
Defined.

(** X11: when the file holds a JSON object with the key
    [embedding_model], [get_active_embedding_model] returns what is stored
    under it, whatever its type: a [null] in the file comes back as
    [None], not as a model name. *)
Theorem get_active_embedding_model_returns_the_stored_value
    (itp : interpreter) (fs : filesystem) (content : pystr)
    (d : list (pystr * value)) (model : value) :
  config_file fs = Text content ->
  loads itp content = Return (PyDict d) ->
  dict_get (py "embedding_model") d = Some model ->
  get_active_embedding_model itp fs = Return model.
Proof.
  intros Hfile Hloads Hkey. unfold get_active_embedding_model.
  rewrite (@load_active_config_of_text itp fs _ Hfile), Hloads, Hkey. reflexivity.
Qed.

Lemma get_active_embedding_model_returns_the_stored_value_witness :
  get_active_embedding_model example_interpreter null_model_file = Return PyNone.
Proof.
  apply (@get_active_embedding_model_returns_the_stored_value example_interpreter
           null_model_file (py "{" ++ quoted "embedding_model" ++ py ": null}")
           [(py "embedding_model", PyNone)] PyNone); reflexivity.
Defined.

(** X12: when the file holds valid JSON that is not an object,
    [load_active_config] returns that value and
    [get_active_embedding_model] raises an [AttributeError] that names its
    type. *)
Theorem get_active_embedding_model_raises_on_a_non_object
    (itp : interpreter) (fs : filesystem) (content : pystr) (config : value) :
  config_file fs = Text content ->
  loads itp content = Return config ->
  (forall d, config <> PyDict d) ->
  load_active_config itp fs = Return config /\
  get_active_embedding_model itp fs =
    Raise (Exception (py "AttributeError")
             (py "'" ++ type_name config ++ py "' object has no attribute 'get'")).
Proof.
  intros Hfile Hloads Hconfig.
  assert (load_active_config itp fs = Return config) as Hload
    by (rewrite (@load_active_config_of_text itp fs _ Hfile), Hloads; reflexivity).
  split; [exact Hload|].
  unfold get_active_embedding_model. rewrite Hload.
  destruct config; try reflexivity. exfalso. eapply Hconfig. reflexivity.
Qed.

Lemma get_active_embedding_model_raises_on_a_non_object_witness :
  load_active_config example_interpreter array_file = Return (PyList []) /\
  get_active_embedding_model example_interpreter array_file =
    Raise (Exception (py "AttributeError") (py "'list' object has no attribute 'get'")).
Proof.
  apply (@get_active_embedding_model_raises_on_a_non_object example_interpreter
           array_file (py "[]") (PyList [])).
  - reflexivity.
  - reflexivity.
  - discriminate.
Defined.

(** X13: after a save that returned, [get_active_embedding_model]
    returns what the saved mapping holds under [embedding_model], and the
    built-in model name when the saved mapping has no such key. *)
Theorem saved_embedding_model_is_the_active_one
    (itp : interpreter) (config : list (pystr * value)) (fs fs' : filesystem) :
  storable (recursion_limit itp) (PyDict config) ->
  save_active_config itp (PyDict config) fs = (Return tt, fs') ->
  get_active_embedding_model itp fs' =
    Return match dict_get (py "embedding_model") config with
           | Some model => model
           | None => PyStr (py "text-embedding-3-small")
           end.
Proof.
  intros Hstore Hsave. unfold get_active_embedding_model.
  rewrite (@load_after_save itp config fs fs' Hstore Hsave).
  destruct (dict_get (py "embedding_model") config); reflexivity.
Qed.

Lemma saved_embedding_model_is_the_active_one_witness :
  get_active_embedding_model example_interpreter
    (snd (save_active_config example_interpreter
            (PyDict [(py "embedding_model", PyStr (py "text-embedding-3-large"))])
            truncated_file))
  = Return (PyStr (py "text-embedding-3-large")).
Proof.
  apply (@saved_embedding_model_is_the_active_one example_interpreter
           [(py "embedding_model", PyStr (py "text-embedding-3-large"))] truncated_file).
  - apply (@storable_dict 999).
    + repeat (apply NoDup_cons; [cbn; intuition discriminate |]). apply NoDup_nil.
    + repeat (apply Forall_cons; [split; [cbn; is_text | constructor; cbn; is_text] |]).
      apply Forall_nil.
  - vm_compute. reflexivity.
Defined.

(** X14: the round trip needs none of the recognized keys and no flat
    mapping: a mapping of distinct text keys to [None], [bool], [int],
    texts, lists and mappings of the same kind, nested no deeper than the
    decoder may go, is loaded back exactly as it was saved, whatever the
    file held before.  No defaults are merged in. *)
Theorem save_then_load_returns_nested_configs
    (itp : interpreter) (config : list (pystr * value)) (fs fs' : filesystem) :
  storable (recursion_limit itp) (PyDict config) ->
  save_active_config itp (PyDict config) fs = (Return tt, fs') ->
  load_active_config itp fs' = Return (PyDict config).
Proof.
  intros Hstore Hsave.
  exact (@load_after_save itp config fs fs' Hstore Hsave).
Qed.

Lemma nested_config_storable : storable 1000 (PyDict nested_config).
Proof.
  apply (@storable_dict 999).
  - repeat (apply NoDup_cons; [cbn; intuition discriminate |]). apply NoDup_nil.
  - apply Forall_cons; [split; [cbn; is_text|] |].
    { apply (@storable_list 998).
      repeat (apply Forall_cons; [constructor; cbn; is_text |]). apply Forall_nil. }
    apply Forall_cons; [split; [cbn; is_text|] |].
    { apply (@storable_dict 998).
      - repeat (apply NoDup_cons; [cbn; intuition discriminate |]). apply NoDup_nil.
      - apply Forall_cons; [split; [cbn; is_text | constructor] |].
        apply Forall_cons; [split; [cbn; is_text | constructor] |].
        apply Forall_cons; [split; [cbn; is_text |] |].
        { apply (@storable_list 997). apply Forall_nil. }
        apply Forall_nil. }
    apply Forall_cons; [split; [cbn; is_text|] |].
    { apply (@storable_dict 998); [apply NoDup_nil | apply Forall_nil]. }
    apply Forall_nil.
Qed.

Lemma save_then_load_returns_nested_configs_witness :
  load_active_config example_interpreter
    (snd (save_active_config example_interpreter (PyDict nested_config) truncated_file))
  = Return (PyDict nested_config).
Proof.
  apply (@save_then_load_returns_nested_configs example_interpreter nested_config
           truncated_file).
  - exact nested_config_storable.
  - vm_compute. reflexivity.
Defined.

(** X15: a save that opened the file and then failed while writing (an
    [int] beyond the digit limit) leaves a file that cannot be parsed:
    the next load returns [DEFAULT_CONFIG] and the active model is the
    built-in one, so the configuration saved before is lost. *)
Theorem failed_save_leaves_the_defaults
    (itp : interpreter) (config : list (pystr * value)) (fs fs' : filesystem) (e : exn) :
  flat config ->
  open_for_writing_error fs = None ->
  save_active_config itp (PyDict config) fs = (Raise e, fs') ->
  load_active_config itp fs' = Return DEFAULT_CONFIG /\
  get_active_embedding_model itp fs' = Return (PyStr (py "text-embedding-3-small")).
Proof.
  intros Hflat Hopen Hsave. unfold save_active_config in Hsave. rewrite Hopen in Hsave.
  destruct (iterencode itp 0 (PyDict config)) as [written [e0|]] eqn:Hwritten;
    [|discriminate].
  injection Hsave as <- <-.
  destruct (@loads_of_stopped_dump itp _ _ _ Hflat Hwritten) as (e' & He' & _).
  assert (load_active_config itp
            {| config_file := Text written; open_for_writing_error := None |}
          = Return DEFAULT_CONFIG) as Hload
    by (rewrite (@load_active_config_of_text itp (mkFilesystem (Text written) None) written eq_refl), He'; reflexivity).
  split; [exact Hload|].
  unfold get_active_embedding_model. rewrite Hload. reflexivity.
Qed.

Lemma failed_save_leaves_the_defaults_witness :
  load_active_config example_interpreter
    (snd (save_active_config example_interpreter (PyDict oversized_config) empty_directory))
  = Return DEFAULT_CONFIG /\
  get_active_embedding_model example_interpreter
    (snd (save_active_config example_interpreter (PyDict oversized_config) empty_directory))
  = Return (PyStr (py "text-embedding-3-small")).
Proof.
  apply (@failed_save_leaves_the_defaults example_interpreter oversized_config
           empty_directory _
           (ValueError "Exceeds the limit for integer string conversion")).
  - repeat (apply Forall_cons; [split; [cbn; is_text | constructor; cbn; is_text] |]).
    apply Forall_nil.
  - reflexivity.
  - vm_compute. reflexivity.
Defined.

(** X16: whatever is saved, and whether or not the save runs to its end,
    the file holds ASCII characters only: what a later read returns does
    not depend on the encoding the platform opens text files with. *)
Theorem save_active_config_writes_ascii_only
    (itp : interpreter) (config : value) (fs : filesystem) :
  (forall f, ascii_only (float_repr itp f)) ->
  open_for_writing_error fs = None ->
  exists written,
    config_file (snd (save_active_config itp config fs)) = Text written /\
    ascii_only written.
Proof.
  intros Hfloat Hopen. unfold save_active_config. rewrite Hopen.
  pose proof (@ascii_only_iterencode itp Hfloat config 0) as Hascii.
  destruct (iterencode itp 0 config) as [written [e|]]; cbn [fst] in Hascii;
    exists written; split; try reflexivity; exact Hascii.
Qed.

Lemma save_active_config_writes_ascii_only_witness :
  exists written,
    config_file (snd (save_active_config example_interpreter
                        (PyDict [(py "models", PyList [PyStr [233%N; 128640%N]; PyFloat nan])])
                        empty_directory)) = Text written /\
    ascii_only written.
Proof.
  apply save_active_config_writes_ascii_only.
  - intros f. apply ascii_only_checked; reflexivity.
  - reflexivity.
Defined.

(** ** Files that were edited by hand *)

Lemma skip_whitespace_blank s : blank s -> skip_whitespace s = [].
Proof.
  induction 1 as [|c s Hc _ IH]; [reflexivity|].
  cbn [skip_whitespace]. rewrite Hc. exact IH.
Qed.

Lemma startswith_blank s : blank s -> startswith s [65279%N] = false.
Proof.
  intros [|c s' Hc _]; [reflexivity|].
  cbn [startswith]. destruct (N.eqb_spec c 65279) as [->|]; [discriminate|reflexivity].
Qed.

(** X17: a file that is empty or holds whitespace only, and a file that
    begins with a byte order mark, are not valid JSON:
    [load_active_config] returns [DEFAULT_CONFIG]. *)
Theorem blank_or_marked_file_gives_defaults
    (itp : interpreter) (fs : filesystem) (content : pystr) :
  config_file fs = Text content ->
  blank content \/ (exists rest, content = 65279%N :: rest) ->
  load_active_config itp fs = Return DEFAULT_CONFIG.
Proof.
  intros Hfile Hcontent.
  rewrite (@load_active_config_of_text itp fs content Hfile).
  destruct Hcontent as [Hblank|(rest & ->)].
  - unfold loads. rewrite (startswith_blank Hblank), (skip_whitespace_blank Hblank).
    rewrite scan_once_empty. reflexivity.
  - reflexivity.
Qed.

Lemma blank_or_marked_file_gives_defaults_witness :
  load_active_config example_interpreter
    {| config_file := Text []; open_for_writing_error := None |}
  = Return DEFAULT_CONFIG.
Proof.
  apply (@blank_or_marked_file_gives_defaults example_interpreter _ []).
  - reflexivity.
  - left. constructor.
Defined.

(** X18: whitespace after the saved text, such as the newline an editor
    adds at the end of a file, changes nothing; any other text after it
    makes the whole file invalid, and [load_active_config] returns
    [DEFAULT_CONFIG] instead of what was saved. *)
Theorem text_after_the_saved_config
    (itp : interpreter) (config : list (pystr * value)) (fs fs' : filesystem)
    (tail : pystr) :
  storable (recursion_limit itp) (PyDict config) ->
  save_active_config itp (PyDict config) fs = (Return tt, fs') ->
  load_active_config itp (appended fs' tail) =
    Return (if forallb is_whitespace tail then PyDict config else DEFAULT_CONFIG).
Proof.
  intros Hstore Hsave.
  destruct (@save_active_config_returned _ _ _ _ Hsave) as (written & Hwritten & ->).
  rewrite (@load_active_config_of_text itp
             (appended (mkFilesystem (Text written) None) tail) (written ++ tail) eq_refl).
  pose proof (@read_back_storable itp (PyDict config) 0 (recursion_limit itp) written tail
                Hstore Hwritten) as Hscan.
  assert (exists r, written = ch "{" :: r) as (r & Hshape).
  { destruct config as [|p d].
    - cbn [iterencode yield] in Hwritten. injection Hwritten as <-. eexists. reflexivity.
    - rewrite iterencode_dict, !and_then_yield in Hwritten.
      apply pair_equal_spec in Hwritten. destruct Hwritten as [<- _].
      eexists. reflexivity. }
  unfold loads. rewrite Hshape in *. cbn [app startswith skip_whitespace].
  change (N.eqb (ch "{") 65279) with false. cbn [andb].
  change (is_whitespace (ch "{")) with false. cbv iota.
  cbn [app] in Hscan. rewrite Hscan by (intros Hplain; inversion Hplain).
  clear. induction tail as [|c tail IH]; [reflexivity|].
  cbn [skip_whitespace forallb]. destruct (is_whitespace c); [exact IH|reflexivity].
Qed.

Lemma text_after_the_saved_config_witness :
  load_active_config example_interpreter
    (appended (snd (save_active_config example_interpreter (PyDict nested_config)
                      empty_directory))
       (py "}"))
  = Return DEFAULT_CONFIG.
Proof.
  apply (@text_after_the_saved_config example_interpreter nested_config empty_directory
           _ (py "}")).
  - exact nested_config_storable.
  - vm_compute. reflexivity.
Defined.

End ConfigManagerFacts.
